(** * The construction-data pipeline, embedded in Rocq

    A shallow embedding of [PipelineService] (the field extractors, the two
    normalizers, the eligibility filters, the deduplicator and the
    renumbering merge of [runPipeline]) and of the export chunking of
    [downloadAll] in [App.tsx], followed by the properties of the
    specification that were checked against it.  The list parser of the
    configuration form and the files that [downloadAll] writes are
    embedded as well, and further properties of the code follow those of
    the specification.

    Conventions.
    - A JavaScript string is the list of its UTF-16 code units, so that
      [length], [substring] and comparison count what the engine counts.
    - A JavaScript number is an integer or NaN: every number the pipeline
      computes itself (positions, floor counts) is an integer, and doubles
      are exact on integers below 2^53.  Spreadsheet cells holding a
      fraction, and numeric literals with a fraction, an exponent or a radix
      prefix, lie outside this domain.
    - A JavaScript object is a finite map from property names to values;
      properties inherited from [Object.prototype] are not represented.
    - Code that can raise ([TypeError] on a method call on a non-string,
      [RangeError] from the date library) lives in the [result] monad.
    - [readExcel] is the tabular reader: a file is the list of its rows.
      Cells are read without [cellDates], so a cell is never a [Date]
      object and the [instanceof Date] branch of [parseDate] is not
      reachable from [runPipeline].  The log is observational and omitted. *)

From Stdlib Require Import ZArith NArith Lia Ascii String DecimalString.
From Stdlib Require DecimalPos DecimalZ.
From stdpp Require Import gmap list.

Local Open Scope N_scope.

(** ** Strings *)

Abbreviation jsstring := (list N).

(** Source text is UTF-8; [js] turns a literal into its UTF-16 code units. *)
Fixpoint utf16_of_utf8 (bs : list N) : jsstring :=
  match bs with
  | [] => []
  | b :: r =>
    if b <? 0x80 then b :: utf16_of_utf8 r
    else if b <? 0xE0 then
      match r with
      | b1 :: r1 =>
        N.lor (N.shiftl (N.land b 0x1F) 6) (N.land b1 0x3F) :: utf16_of_utf8 r1
      | [] => []
      end
    else if b <? 0xF0 then
      match r with
      | b1 :: b2 :: r2 =>
        N.lor (N.shiftl (N.land b 0x0F) 12)
              (N.lor (N.shiftl (N.land b1 0x3F) 6) (N.land b2 0x3F))
          :: utf16_of_utf8 r2
      | _ => []
      end
    else
      match r with
      | b1 :: b2 :: b3 :: r3 =>
        let cp := N.lor (N.shiftl (N.land b 0x07) 18)
                    (N.lor (N.shiftl (N.land b1 0x3F) 12)
                       (N.lor (N.shiftl (N.land b2 0x3F) 6) (N.land b3 0x3F))) in
        let v := cp - 0x10000 in
        (0xD800 + N.shiftr v 10) :: (0xDC00 + N.land v 0x3FF) :: utf16_of_utf8 r3
      | _ => []
      end
  end.

Definition js (s : string) : jsstring :=
  utf16_of_utf8 (map N_of_ascii (list_ascii_of_string s)).

(** WhiteSpace and LineTerminator code units: what [trim] strips and what
    [\s] matches. *)
Definition isWhiteSpace (c : N) : bool :=
  ((0x09 <=? c) && (c <=? 0x0D)) || (c =? 0x20) || (c =? 0xA0) || (c =? 0x1680)
  || ((0x2000 <=? c) && (c <=? 0x200A)) || (c =? 0x2028) || (c =? 0x2029)
  || (c =? 0x202F) || (c =? 0x205F) || (c =? 0x3000) || (c =? 0xFEFF).

Fixpoint trimStart (s : jsstring) : jsstring :=
  match s with
  | c :: s' => if isWhiteSpace c then trimStart s' else s
  | [] => []
  end.

Definition trimEnd (s : jsstring) : jsstring := rev (trimStart (rev s)).

Definition trim (s : jsstring) : jsstring := trimEnd (trimStart s).

Fixpoint startsWith (pat s : jsstring) : bool :=
  match pat, s with
  | [], _ => true
  | p :: pat', c :: s' => (p =? c) && startsWith pat' s'
  | _ :: _, [] => false
  end.

(** [s.indexOf(pat)], counting from [i]. *)
Fixpoint indexOfFrom (pat s : jsstring) (i : nat) : option nat :=
  if startsWith pat s then Some i
  else match s with
       | [] => None
       | _ :: s' => indexOfFrom pat s' (S i)
       end.

Definition includes (s pat : jsstring) : bool :=
  bool_decide (is_Some (indexOfFrom pat s 0)).

(** [s.replace(pat, rep)] with a string pattern: the first occurrence only. *)
Fixpoint replaceFirst (pat rep s : jsstring) : jsstring :=
  if startsWith pat s then rep ++ drop (length pat) s
  else match s with
       | [] => []
       | c :: s' => c :: replaceFirst pat rep s'
       end.

(** [s.replace(/c/g, '')]. *)
Definition removeAll (c : N) (s : jsstring) : jsstring :=
  List.filter (fun x => negb (x =? c)) s.

(** [s.split(sep)] for a one-unit separator; never the empty array. *)
Fixpoint split (sep : N) (s : jsstring) : list jsstring :=
  match s with
  | [] => [[]]
  | c :: s' =>
    if c =? sep then [] :: split sep s'
    else match split sep s' with
         | h :: t => (c :: h) :: t
         | [] => [[c]]
         end
  end.

(** [s.substring(a, b)] for [a <= b], and [s.substring(a)]. *)
Definition substring (a b : nat) (s : jsstring) : jsstring := take (b - a) (drop a s).
Definition substringFrom (a : nat) (s : jsstring) : jsstring := drop a s.

(** [a < b] on strings: code-unit lexicographic order. *)
Fixpoint str_ltb (a b : jsstring) : bool :=
  match a, b with
  | _, [] => false
  | [], _ :: _ => true
  | x :: a', y :: b' => (x <? y) || ((x =? y) && str_ltb a' b')
  end.

Definition str_eqb (a b : jsstring) : bool := bool_decide (a = b).

(** ** Numbers and values *)

Inductive number := NaN | Fin (z : Z).

Inductive value :=
| VUndef
| VNull
| VBool (b : bool)
| VNum (n : number)
| VStr (s : jsstring).

Definition isDigit (c : N) : bool := (0x30 <=? c) && (c <=? 0x39).

Definition digitsValue (ds : jsstring) : Z :=
  fold_left (fun acc d => (10 * acc + Z.of_N (d - 0x30))%Z) ds 0%Z.

Fixpoint takeDigits (s : jsstring) : jsstring :=
  match s with
  | c :: s' => if isDigit c then c :: takeDigits s' else []
  | [] => []
  end.

(** [parseInt(s)] in radix 10: leading white space, a sign, then the longest
    run of digits; NaN when there is none.  (The pipeline calls it on a
    run of digits or on "undefined", never on a [0x] prefix.) *)
Definition parseInt (s : jsstring) : number :=
  let t := trimStart s in
  let '(neg, u) := match t with
                   | 0x2D :: u => (true, u)
                   | 0x2B :: u => (false, u)
                   | _ => (false, t)
                   end in
  match takeDigits u with
  | [] => NaN
  | ds => Fin (if neg then - digitsValue ds else digitsValue ds)
  end.

(** [Number(s)] on the integer literals; the empty string is 0. *)
Definition stringToNumber (s : jsstring) : number :=
  let t := trim s in
  let '(neg, u) := match t with
                   | 0x2D :: u => (true, u)
                   | 0x2B :: u => (false, u)
                   | _ => (false, t)
                   end in
  match t with
  | [] => Fin 0
  | _ => match u with
         | [] => NaN
         | _ => if forallb isDigit u
                then Fin (if neg then - digitsValue u else digitsValue u)
                else NaN
         end
  end.

Definition numberToString (n : number) : jsstring :=
  match n with
  | NaN => js "NaN"
  | Fin z => map N_of_ascii (list_ascii_of_string (NilZero.string_of_int (Z.to_int z)))
  end.

(** [String(v)] *)
Definition toString (v : value) : jsstring :=
  match v with
  | VUndef => js "undefined"
  | VNull => js "null"
  | VBool true => js "true"
  | VBool false => js "false"
  | VNum n => numberToString n
  | VStr s => s
  end.

(** [Number(v)] *)
Definition toNumber (v : value) : number :=
  match v with
  | VUndef => NaN
  | VNull => Fin 0
  | VBool true => Fin 1
  | VBool false => Fin 0
  | VNum n => n
  | VStr s => stringToNumber s
  end.

(** Truthiness: what [!v], [v || w] and [v && w] test. *)
Definition truthy (v : value) : bool :=
  match v with
  | VUndef | VNull => false
  | VBool b => b
  | VNum NaN => false
  | VNum (Fin z) => negb (z =? 0)%Z
  | VStr s => negb (str_eqb s [])
  end.

Definition js_or (a b : value) : value := if truthy a then a else b.
Definition js_and (a b : value) : value := if truthy a then b else a.

(** [a < b]: [None] is the undefined outcome of a comparison with NaN. *)
Definition num_lt (a b : number) : option bool :=
  match a, b with
  | Fin x, Fin y => Some (x <? y)%Z
  | _, _ => None
  end.

Definition js_lt (a b : value) : option bool :=
  match a, b with
  | VStr x, VStr y => Some (str_ltb x y)
  | _, _ => num_lt (toNumber a) (toNumber b)
  end.

(** [a >= b] is true exactly when [a < b] is false. *)
Definition js_ge (a b : value) : bool :=
  match js_lt a b with
  | Some false => true
  | _ => false
  end.

Definition js_ltb (a b : value) : bool :=
  match js_lt a b with
  | Some true => true
  | _ => false
  end.

(** SameValueZero, the equality of [Array.prototype.includes]. *)
Definition sameValueZero (a b : value) : bool :=
  match a, b with
  | VUndef, VUndef | VNull, VNull => true
  | VBool x, VBool y => eqb x y
  | VNum NaN, VNum NaN => true
  | VNum (Fin x), VNum (Fin y) => (x =? y)%Z
  | VStr x, VStr y => str_eqb x y
  | _, _ => false
  end.

(** ** Objects *)

Abbreviation obj := (gmap jsstring value).

(** [o[k]]: a property that is not there reads as undefined. *)
Definition get (o : obj) (k : jsstring) : value := default VUndef (o !! k).

(** [{...src, ...}]: the own properties of [src] laid over [dst]. *)
Definition spread (src dst : obj) : obj := src ∪ dst.

(** ** Exceptions *)

Inductive exn := TypeError | RangeError.

Inductive result (A : Type) :=
| Ok (a : A)
| Throw (e : exn).
Arguments Ok {A} a.
Arguments Throw {A} e.

Definition bind {A B} (m : result A) (f : A -> result B) : result B :=
  match m with
  | Ok a => f a
  | Throw e => Throw e
  end.

Notation "'let*' x ':=' m 'in' k" := (bind m (fun x => k))
  (at level 10, x name, m at level 100, k at level 200).

(** What an observer [f] sees of a computation that returned. *)
Definition observe {A B} (f : A -> B) (m : result A) : result B :=
  match m with
  | Ok a => Ok (f a)
  | Throw e => Throw e
  end.

Definition returns {A} (m : result A) : bool :=
  match m with
  | Ok _ => true
  | Throw _ => false
  end.

(** [xs.map(f)] and [xs.filter(p)] when the callback can raise: the first
    exception aborts the traversal. *)
Fixpoint mapR {A B} (f : A -> result B) (l : list A) : result (list B) :=
  match l with
  | [] => Ok []
  | a :: l' => let* b := f a in let* bs := mapR f l' in Ok (b :: bs)
  end.

Fixpoint filterR {A} (p : A -> result bool) (l : list A) : result (list A) :=
  match l with
  | [] => Ok []
  | a :: l' => let* b := p a in let* r := filterR p l' in Ok (if b then a :: r else r)
  end.

(** ** Regular expressions

    A backtracking matcher for the constructs the extractors use, in
    continuation-passing style: a matcher consumes a prefix of the input
    and hands the rest, with the text of capture group 1, to its
    continuation; a [None] from the continuation makes it try its next
    alternative.  Every pattern of the pipeline has exactly one capture
    group.  The patterns carry the [i] flag, which changes nothing here:
    they contain Hangul, digits and punctuation only, and no code unit
    case-folds to one of these. *)

Inductive cset :=
| CDigit                      (* \d *)
| CSpace                      (* \s *)
| CDot                        (* .  *)
| COneOf (cs : list N).       (* [...] *)

Definition isLineTerminator (c : N) : bool :=
  (c =? 0x0A) || (c =? 0x0D) || (c =? 0x2028) || (c =? 0x2029).

Definition cset_mem (k : cset) (c : N) : bool :=
  match k with
  | CDigit => isDigit c
  | CSpace => isWhiteSpace c
  | CDot => negb (isLineTerminator c)
  | COneOf cs => existsb (N.eqb c) cs
  end.

Inductive regex :=
| REps
| RSet (k : cset)
| RLit (l : jsstring)
| RSeq (r1 r2 : regex)
| ROpt (r : regex)                    (* r?      *)
| RStar (greedy : bool) (r : regex)   (* r*, r*? *)
| RPlus (r : regex)                   (* r+      *)
| RRep (lo hi : nat) (r : regex)      (* r{lo,hi} *)
| RGroup (r : regex)                  (* (r), group 1 *)
| RNotAhead (r : regex).              (* (?!r)   *)

Definition cap := option jsstring.
Definition kont := jsstring -> cap -> option cap.
Definition matcher := jsstring -> cap -> kont -> option cap.

Definition orElse {A} (a b : option A) : option A :=
  match a with
  | Some _ => a
  | None => b
  end.

(** At most [n] further iterations of [m]; an iteration that consumes
    nothing is rejected, as the engine does. *)
Fixpoint star_loop (m : matcher) (greedy : bool) (n : nat) : matcher :=
  fun s c k =>
  match n with
  | O => k s c
  | S n' =>
    let again := m s c (fun s1 c1 =>
                   if (length s1 <? length s)%nat then star_loop m greedy n' s1 c1 k
                   else None) in
    if greedy then orElse again (k s c) else orElse (k s c) again
  end.

Fixpoint rep_loop (m : matcher) (lo hi : nat) : matcher :=
  fun s c k =>
  match hi with
  | O => match lo with O => k s c | S _ => None end
  | S hi' =>
    match lo with
    | S lo' => m s c (fun s1 c1 => rep_loop m lo' hi' s1 c1 k)
    | O => orElse (m s c (fun s1 c1 => rep_loop m 0 hi' s1 c1 k)) (k s c)
    end
  end.

Fixpoint rmatch (r : regex) : matcher :=
  fun s c k =>
  match r with
  | REps => k s c
  | RSet cls =>
    match s with
    | x :: s' => if cset_mem cls x then k s' c else None
    | [] => None
    end
  | RLit l => if startsWith l s then k (drop (length l) s) c else None
  | RSeq r1 r2 => rmatch r1 s c (fun s1 c1 => rmatch r2 s1 c1 k)
  | ROpt r1 => orElse (rmatch r1 s c k) (k s c)
  | RStar greedy r1 => star_loop (rmatch r1) greedy (length s) s c k
  | RPlus r1 =>
    rmatch r1 s c (fun s1 c1 => star_loop (rmatch r1) true (length s1) s1 c1 k)
  | RRep lo hi r1 => rep_loop (rmatch r1) lo hi s c k
  | RGroup r1 =>
    rmatch r1 s c (fun s1 _ => k s1 (Some (take (length s - length s1) s)))
  | RNotAhead r1 =>
    match rmatch r1 s c (fun _ c1 => Some c1) with
    | Some _ => None
    | None => k s c
    end
  end.

(** The leftmost match: its start index and its group 1. *)
Fixpoint execFrom (r : regex) (s : jsstring) (i : nat) : option (nat * cap) :=
  match rmatch r s None (fun _ c => Some c) with
  | Some c => Some (i, c)
  | None =>
    match s with
    | [] => None
    | _ :: s' => execFrom r s' (S i)
    end
  end.

(** [s.match(r)] without the [g] flag, and [s.search(r)]. *)
Definition str_match (r : regex) (s : jsstring) : option cap := snd <$> execFrom r s 0.
Definition search (r : regex) (s : jsstring) : option nat := fst <$> execFrom r s 0.

Fixpoint RCat (rs : list regex) : regex :=
  match rs with
  | [] => REps
  | [r] => r
  | r :: rs' => RSeq r (RCat rs')
  end.

(** ** Field extractors *)

(** [\d{1,3}(?:,\d{3})*(?:\.\d+)?] *)
Definition numberPattern : regex :=
  RCat [ RRep 1 3 (RSet CDigit);
         RStar true (RSeq (RLit (js ",")) (RRep 3 3 (RSet CDigit)));
         ROpt (RSeq (RLit (js ".")) (RPlus (RSet CDigit))) ].

Definition spaces : regex := RStar true (RSet CSpace).
(** [[:：]?] *)
Definition optColon : regex := ROpt (RSet (COneOf (js ":："))).

Inductive areaLabel := BuiltArea | SiteArea.

Definition areaLabelText (t : areaLabel) : jsstring :=
  match t with
  | BuiltArea => js "건축면적"
  | SiteArea => js "대지면적"
  end.

Inductive floorLabel := Ground | Basement.

Definition floorLabelText (t : floorLabel) : jsstring :=
  match t with
  | Ground => js "지상"
  | Basement => js "지하"
  end.

(** [`${type}.*?(\d{1,3}(?:,\d{3})*(?:\.\d+)?)㎡`] *)
Definition areaPattern (t : areaLabel) : regex :=
  RCat [ RLit (areaLabelText t); RStar false (RSet CDot);
         RGroup numberPattern; RLit (js "㎡") ].

(** [`${type}\s*(\d+)(?:층)?`] *)
Definition floorPattern (t : floorLabel) : regex :=
  RCat [ RLit (floorLabelText t); spaces; RGroup (RPlus (RSet CDigit));
         ROpt (RLit (js "층")) ].

Definition householdPatterns : list regex :=
  [ RCat [ RLit (js "세대수"); spaces; optColon; spaces; RGroup numberPattern ];
    RCat [ RLit (js "세"); spaces; RLit (js "대"); spaces; RLit (js "수"); spaces;
           optColon; spaces; RGroup numberPattern ];
    RCat [ RGroup numberPattern; spaces; RLit (js "세대"); RNotAhead (RLit (js "수")) ];
    RCat [ RGroup numberPattern; spaces; RLit (js "세"); spaces; RLit (js "대");
           RNotAhead (RSeq spaces (RLit (js "수"))) ] ].

Definition amountPatterns : list regex :=
  [ RCat [ RLit (js "금액"); spaces; optColon; spaces; RGroup numberPattern ];
    RCat [ RLit (js "공사비"); spaces; optColon; spaces; RGroup numberPattern ];
    RCat [ RLit (js "공사금액"); spaces; optColon; spaces; RGroup numberPattern ] ].

(** [match[1].replace(/,/g, '')]: a method call on group 1, which raises
    if the group did not take part in the match. *)
Definition groupNoCommas (m : cap) : result jsstring :=
  match m with
  | Some g => Ok (removeAll 0x2C g)
  | None => Throw TypeError
  end.

Definition extractArea (text : jsstring) (type : areaLabel) : result (option jsstring) :=
  match str_match (areaPattern type) text with
  | Some m => let* g := groupNoCommas m in Ok (Some g)
  | None => Ok None
  end.

Definition extractFloors (text : jsstring) (type : floorLabel) : option number :=
  match str_match (floorPattern type) text with
  | Some m => Some (parseInt (toString (from_option VStr VUndef m)))
  | None => None
  end.

(** [for (const p of patterns) { ... if (match) return ... } return null] *)
Fixpoint firstGroup (patterns : list regex) (text : jsstring) : result (option jsstring) :=
  match patterns with
  | [] => Ok None
  | p :: ps =>
    match str_match p text with
    | Some m => let* g := groupNoCommas m in Ok (Some g)
    | None => firstGroup ps text
    end
  end.

Definition extractHouseholds (text : jsstring) : result (option jsstring) :=
  firstGroup householdPatterns text.

Definition extractAmount (text : jsstring) : result (option jsstring) :=
  firstGroup amountPatterns text.

(** [/[\])]/] and [/[\[(]/] *)
Definition closingBracket : regex := RSet (COneOf (js "])")).
Definition openingBracket : regex := RSet (COneOf (js "[(")).

(** A project name comes straight from a cell; on a truthy value that is
    not a string, [name.length <= 4] is false and [name.substring] raises. *)
Definition cleanProjectName (name : value) : result value :=
  match name with
  | VStr s =>
    if negb (truthy name) || (length s <=? 4)%nat then Ok name
    else
      let front := substring 0 4 s in
      match search closingBracket front with
      | Some bracketIndex => Ok (VStr (trim (substringFrom (bracketIndex + 1) s)))
      | None =>
        match search closingBracket s with
        | Some fullBracketIndex =>
          match search openingBracket (substring 0 fullBracketIndex s) with
          | Some openingIndex =>
            let prefix := trim (substring 0 openingIndex s) in
            if (length prefix <=? 3)%nat
            then Ok (VStr (trim (substringFrom (fullBracketIndex + 1) s)))
            else Ok name
          | None => Ok name
          end
        | None => Ok name
        end
      end
  | _ => if negb (truthy name) then Ok name else Throw TypeError
  end.

(** [for (const [reg, code] of entries) if (address.includes(reg)) return code] *)
Fixpoint mapRegionLoop (address : value) (entries : list (jsstring * number)) : result value :=
  match entries with
  | [] => Ok (VStr [])
  | (reg, code) :: rest =>
    match address with
    | VStr a => if includes a reg then Ok (VNum code) else mapRegionLoop address rest
    | _ => Throw TypeError
    end
  end.

Definition mapRegionWith (entries : list (jsstring * number)) (address : value) : result value :=
  if negb (truthy address) then Ok (VStr []) else mapRegionLoop address entries.

(** ** The canonical record *)

Definition F_No := js "No.".
Definition F_sido := js "시도".
Definition F_sigungu := js "시군구".
Definition F_constr := js "공종".
Definition F_name := js "공사명".
Definition F_start := js "착공일".
Definition F_completion := js "준공(승인)일".
Definition F_address := js "주소".
Definition F_agency := js "발주(수요처)".
Definition F_contractor := js "시공사".
Definition F_contact := js "시공사연락처".
Definition F_builtArea := js "건축면적(㎡)".
Definition F_basement := js "지하층수".
Definition F_ground := js "지상층수".
Definition F_households := js "세대수".
Definition F_source := js "출처".
Definition F_registered := js "등록일".
Definition F_detail := js "상세공종".
Definition F_overview := js "공사개요".
Definition F_firstContract := js "최초계약일".
Definition F_changeCount := js "계약변경차수".
Definition F_amount := js "계약금액".
Definition F_joint := js "공동계약여부".
Definition F_companyKind := js "업체구분".
Definition F_mainTrade := js "주업종".
Definition F_bizNo := js "사업자번호".
Definition F_siteArea := js "대지면적(㎡)".
Definition F_structure := js "주구조".
Definition F_use := js "주용도".
Definition F_height := js "높이".
Definition F_originalConstr := js "_originalConstr".

(** An object literal: the properties are set in the order written. *)
Definition objLit (fields : list (jsstring * value)) : obj :=
  fold_left (fun o kv => <[kv.1 := kv.2]> o) fields ∅.

Definition emptyText : value := VStr [].

(** [x || ''] on the outcome of an extractor that returns text or null. *)
Definition textOrEmpty (o : option jsstring) : value := js_or (from_option VStr VNull o) emptyText.

(** [x || ''] on the outcome of the floor extractor. *)
Definition numberOrEmpty (o : option number) : value := js_or (from_option VNum VNull o) emptyText.

(** [arr[i]] on an array of strings. *)
Definition at_index (arr : list jsstring) (i : nat) : value := from_option VStr VUndef (arr !! i).

Record PipelineConfig (jsdate : Type) := {
  chunkSize : number;
  today : jsdate;
  completionOffsetDays : number;
  minContractAmount : number;
  excludedTypes : list jsstring;
  excludedKeywords : list jsstring
}.
Arguments chunkSize {jsdate} _.
Arguments today {jsdate} _.
Arguments completionOffsetDays {jsdate} _.
Arguments minContractAmount {jsdate} _.
Arguments excludedTypes {jsdate} _.
Arguments excludedKeywords {jsdate} _.

Record PipelineResult := {
  resultDf : list obj;
  duplicates : list obj;
  updatedMaster : list obj;
  dateTag : jsstring;
  resultChunkSize : number
}.

(** [{ ...p, "No.": i + 1 }] *)
Definition renumber (i : nat) (p : obj) : obj :=
  <[F_No := VNum (Fin (Z.of_nat i + 1))]> (spread p ∅).

(** [const { "No.": _, ...rest } = p; return { "No.": i + 1, ...rest }] *)
Definition renumberMaster (i : nat) (p : obj) : obj :=
  let rest := delete F_No p in
  spread rest (<[F_No := VNum (Fin (Z.of_nat i + 1))]> ∅).

Definition numberResult (uniqueNew : list obj) : list obj := imap renumber uniqueNew.

Definition mergeMaster (existingMaster uniqueNew : list obj) : list obj :=
  imap renumberMaster (existingMaster ++ uniqueNew).

Definition keyCols : list jsstring := [F_name; F_agency; F_contractor; F_address].

(** [String(item[key] || '').trim()] *)
Definition keyText (item : obj) (key : jsstring) : jsstring :=
  trim (toString (js_or (get item key) emptyText)).

Definition sameKey (newItem masterItem : obj) : bool :=
  forallb (fun key => str_eqb (keyText newItem key) (keyText masterItem key)) keyCols.

Definition isDuplicate (existingMaster : list obj) (newItem : obj) : bool :=
  existsb (sameKey newItem) existingMaster.

(** The [forEach] of the deduplicator: one [push] per new record, onto
    [duplicates] or onto [uniqueNew]. *)
Definition dedupStep (existingMaster : list obj) (acc : list obj * list obj) (newItem : obj)
  : list obj * list obj :=
  if isDuplicate existingMaster newItem
  then (acc.1 ++ [newItem], acc.2)
  else (acc.1, acc.2 ++ [newItem]).

Definition deduplicate (existingMaster mergedNew : list obj) : list obj * list obj :=
  fold_left (dedupStep existingMaster) mergedNew ([], []).

(** The structural bounds applied to the merged set. *)
Definition floorOk (limit : Z) (v : value) : bool :=
  match v with
  | VStr [] => true                                   (* === '' gives null *)
  | _ => js_ltb (VNum (toNumber v)) (VNum (Fin limit))
  end.

Definition mergedPredicate (p : obj) : bool :=
  floorOk 10 (get p F_basement) && floorOk 100 (get p F_ground).

(** ** Export chunking ([downloadAll]) *)

(** [xs.slice(a, b)] for [0 <= a <= b]; the end is clamped to the length. *)
Definition slice {A} (a b : nat) (l : list A) : list A := take (b - a) (drop a l).

(** [Math.ceil(n / c)] for integers [n >= 0] and [c > 0]. *)
Definition ceilDiv (n c : Z) : Z := (- ((- n) / c))%Z.

(** The data handed to [exportExcel], chunk after chunk.  [None] stands for
    a loop that never ends: a chunk size of 0 makes the bound infinite.  A
    negative or NaN size makes the loop body unreachable. *)
Definition exportChunks (resultDf : list obj) (chunkSize : number) : option (list (list obj)) :=
  match chunkSize with
  | NaN => Some []
  | Fin c =>
    if (0 <? c)%Z then
      let numChunks := Z.to_nat (ceilDiv (Z.of_nat (length resultDf)) c) in
      let size := Z.to_nat c in
      Some ((fun i => imap renumber (slice (i * size) ((i + 1) * size) resultDf))
              <$> seq 0 numChunks)
    else if (c =? 0)%Z then
      match resultDf with [] => Some [] | _ :: _ => None end
    else Some []
  end.

(** ** The pipeline, over its tables and library functions *)

Section Pipeline.

(** Lookup tables of [constants]: two type-code objects, and the entries of
    the two region objects in property order (the declared order, as region
    names are not array indices). *)
Variable CONSTR_MAPPING DETAIL_CONSTR_MAPPING : obj.
Variable REGION_MAPPING REGION_MAPPING2 : list (jsstring * number).

(** [String.prototype.toLowerCase], the engine's Unicode case mapping. *)
Variable toLowerCase : jsstring -> jsstring.

(** The date library: [parse], [isValid], [format], [addDays] of date-fns
    and the clock [new Date()]. *)
Variable jsdate : Type.
Variable dfns_parse : jsstring -> jsstring -> jsdate -> result jsdate.
Variable dfns_isValid : jsdate -> bool.
Variable dfns_format : jsdate -> jsstring -> result jsstring.
Variable dfns_addDays : jsdate -> number -> jsdate.
Variable now : jsdate.

(** The body of the [try] block of [parseDate]. *)
Definition tryFormat (str f : jsstring) : result (option jsstring) :=
  let* d := dfns_parse str f now in
  if dfns_isValid d
  then let* out := dfns_format d (js "yyyy-MM-dd") in Ok (Some out)
  else Ok None.

Fixpoint parseDateLoop (str : jsstring) (formats : list jsstring) : option jsstring :=
  match formats with
  | [] => None
  | f :: fs =>
    match tryFormat str f with
    | Ok (Some out) => Some out
    | Ok None => parseDateLoop str fs
    | Throw _ => parseDateLoop str fs               (* catch (e) {} *)
    end
  end.

Definition dateFormats : list jsstring := [js "yyyy.MM.dd"; js "yyyyMMdd"; js "yyyy-MM-dd"].

Definition parseDate (dateVal : value) : option jsstring :=
  if negb (truthy dateVal) then None
  else parseDateLoop (trim (toString dateVal)) dateFormats.

Definition containsExcludedKeyword (name : value) (keywords : list jsstring) : result bool :=
  if negb (truthy name) then Ok false
  else match name with
       | VStr s =>
         let lower := toLowerCase s in
         Ok (existsb (fun k => includes lower (toLowerCase (trim k))) keywords)
       | _ => Throw TypeError
       end.

Definition mapRegion : value -> result value := mapRegionWith REGION_MAPPING.
Definition mapRegion2 : value -> result value := mapRegionWith REGION_MAPPING2.

(** *** Normalizers *)

Definition normalizeWhobuilds (row : obj) : result obj :=
  let originalConstr := toString (js_or (get row (js "공종")) emptyText) in
  let dateRange := split 0x7E (toString (js_or (get row (js "착공일/준공일")) emptyText)) in
  let contactRaw := split 0x2F (toString (js_or (get row (js "전화/팩스")) emptyText)) in
  let overview := toString (js_or (get row (js "공사개요")) emptyText) in
  let* sido := mapRegion (get row (js "주소")) in
  let* sigungu := mapRegion2 (get row (js "주소")) in
  let* builtArea := extractArea overview BuiltArea in
  let* households := extractHouseholds overview in
  let* amount := extractAmount overview in
  let* siteArea := extractArea overview SiteArea in
  let project := objLit [
    (F_No, emptyText);
    (F_sido, sido);
    (F_sigungu, sigungu);
    (F_constr, js_or (get CONSTR_MAPPING originalConstr) emptyText);
    (F_name, get row (js "공사명"));
    (F_start, textOrEmpty (parseDate (at_index dateRange 0)));
    (F_completion, textOrEmpty (parseDate (at_index dateRange 1)));
    (F_address, VStr (replaceFirst (js "일원") [] (toString (js_or (get row (js "주소")) emptyText))));
    (F_agency, get row (js "발주처"));
    (F_contractor, get row (js "시공사"));
    (F_contact, VStr (trim (replaceFirst (js "h:") []
                              (toString (js_or (at_index contactRaw 0) emptyText)))));
    (F_builtArea, textOrEmpty builtArea);
    (F_basement, numberOrEmpty (extractFloors overview Basement));
    (F_ground, numberOrEmpty (extractFloors overview Ground));
    (F_households, textOrEmpty households);
    (F_source, VStr (js "01"));
    (F_registered, textOrEmpty (parseDate (get row (js "등록일"))));
    (F_detail, js_or (get DETAIL_CONSTR_MAPPING originalConstr) emptyText);
    (F_overview, VStr overview);
    (F_firstContract, emptyText);
    (F_changeCount, emptyText);
    (F_amount, textOrEmpty amount);
    (F_joint, emptyText);
    (F_companyKind, emptyText);
    (F_mainTrade, emptyText);
    (F_bizNo, emptyText);
    (F_siteArea, textOrEmpty siteArea);
    (F_structure, emptyText);
    (F_use, emptyText);
    (F_height, emptyText) ] in
  Ok (<[F_originalConstr := VStr originalConstr]> project).

Definition normalizeNarajang (row : obj) : result obj :=
  let originalConstr := toString (js_or (get row (js "공공조달분류")) emptyText) in
  let* sido := mapRegion (get row (js "현장지역")) in
  let* sigungu := mapRegion2 (get row (js "현장지역")) in
  let* name := cleanProjectName (get row (js "계약명")) in
  let project := objLit [
    (F_No, emptyText);
    (F_sido, sido);
    (F_sigungu, sigungu);
    (F_constr, js_or (get CONSTR_MAPPING originalConstr) (VStr (js "E0")));
    (F_name, name);
    (F_start, textOrEmpty (parseDate (get row (js "착수일자"))));
    (F_completion, textOrEmpty (parseDate (get row (js "총완수일자"))));
    (F_address, js_or (get row (js "현장지역")) emptyText);
    (F_agency, get row (js "수요기관"));
    (F_contractor, get row (js "계약시점 업체명"));
    (F_contact, emptyText);
    (F_builtArea, emptyText);
    (F_basement, emptyText);
    (F_ground, emptyText);
    (F_households, emptyText);
    (F_source, VStr (js "02"));
    (F_registered, textOrEmpty (parseDate (get row (js "기준일자"))));
    (F_detail, js_or (get DETAIL_CONSTR_MAPPING originalConstr) emptyText);
    (F_overview, emptyText);
    (F_firstContract, textOrEmpty (parseDate (get row (js "최초계약일자"))));
    (F_changeCount, js_or (get row (js "계약변경차수")) emptyText);
    (F_amount, js_or (get row (js "계약금액")) (VNum (Fin 0)));
    (F_joint, match get row (js "공동수급구성방식") with
              | VStr m => if str_eqb m (js "단독계약") then VStr (js "N") else VStr (js "Y")
              | _ => VStr (js "Y")
              end);
    (F_companyKind, js_or (get row (js "계약시점 기업형태구분")) emptyText);
    (F_mainTrade, js_or (get row (js "계약시점 업체지역")) emptyText);
    (F_bizNo, js_or (get row (js "업체사업자등록번호")) emptyText);
    (F_siteArea, emptyText);
    (F_structure, emptyText);
    (F_use, emptyText);
    (F_height, emptyText) ] in
  Ok (<[F_originalConstr := VStr originalConstr]> project).

(** *** Eligibility filters *)

Variable config : PipelineConfig jsdate.

(** [p["준공(승인)일"] && p["준공(승인)일"] >= cutoffDateStr] *)
Definition dateCheck (cutoffDateStr : jsstring) (p : obj) : value :=
  js_and (get p F_completion) (VBool (js_ge (get p F_completion) (VStr cutoffDateStr))).

(** [!config.excludedTypes.includes(p._originalConstr)] *)
Definition constrCheck (p : obj) : bool :=
  negb (existsb (fun t => sameValueZero (VStr t) (get p F_originalConstr)) (excludedTypes config)).

Definition whobuildsPredicate (cutoffDateStr : jsstring) (p : obj) : result bool :=
  let isDefenseAgency := includes (toString (get p F_agency)) (js "방위사업청") in
  let dateOk := dateCheck cutoffDateStr p in
  let constrOk := constrCheck p in
  let* excluded := containsExcludedKeyword (get p F_name) (excludedKeywords config) in
  let keywordCheck := negb excluded in
  Ok (negb isDefenseAgency && truthy dateOk && constrOk && keywordCheck).

Definition narajangPredicate (cutoffDateStr : jsstring) (p : obj) : result bool :=
  let amt := toNumber (get p F_amount) in
  let amtCheck := js_ge (VNum amt) (VNum (minContractAmount config)) in
  let dateOk := dateCheck cutoffDateStr p in
  let constrOk := constrCheck p in
  let* excluded := containsExcludedKeyword (get p F_name) (excludedKeywords config) in
  let keywordCheck := negb excluded in
  Ok (amtCheck && truthy dateOk && constrOk && keywordCheck).

(** *** [runPipeline] *)

Definition runPipeline (whobuildsFiles : list (list obj)) (narajangFile masterFile : option (list obj))
  : result PipelineResult :=
  let* cutoffDateStr :=
    dfns_format (dfns_addDays (today config) (completionOffsetDays config)) (js "yyyy-MM-dd") in
  let whobuildsData := concat whobuildsFiles in
  let* whobuildsNormalized := mapR normalizeWhobuilds whobuildsData in
  let* whobuildsProcessed := filterR (whobuildsPredicate cutoffDateStr) whobuildsNormalized in
  let* narajangProcessed :=
    match narajangFile with
    | Some rawNarajang =>
      let* normalized := mapR normalizeNarajang rawNarajang in
      filterR (narajangPredicate cutoffDateStr) normalized
    | None => Ok []
    end in
  let mergedNew := List.filter mergedPredicate (whobuildsProcessed ++ narajangProcessed) in
  let existingMaster := default [] masterFile in
  let '(duplicates, uniqueNew) := deduplicate existingMaster mergedNew in
  let* dateTag := dfns_format now (js "yyyyMMdd") in
  let resultDf := numberResult uniqueNew in
  let updatedMaster := mergeMaster existingMaster uniqueNew in
  Ok {| resultDf := resultDf; duplicates := duplicates; updatedMaster := updatedMaster;
        dateTag := dateTag; resultChunkSize := chunkSize config |}.

End Pipeline.

Arguments constrCheck {jsdate} config p.
Arguments whobuildsPredicate toLowerCase {jsdate} config cutoffDateStr p.
Arguments narajangPredicate toLowerCase {jsdate} config cutoffDateStr p.

(** ** A reference environment for the examples

    Small tables standing in for [constants], ASCII lower-casing, and the
    date library on strictly formatted dates (four-digit year, two-digit
    month and day); a date is its day number, [None] is an invalid date. *)

Definition sampleConstr : obj :=
  objLit [ (js "건축", VStr (js "A0")); (js "토목", VStr (js "B0")) ].
Definition sampleDetail : obj :=
  objLit [ (js "건축", VStr (js "A1")) ].
Definition sampleRegion : list (jsstring * number) :=
  [ (js "서울", Fin 11); (js "경기", Fin 41) ].
Definition sampleRegion2 : list (jsstring * number) :=
  [ (js "강남구", Fin 11680); (js "수원시", Fin 41110) ].

Definition asciiLower (s : jsstring) : jsstring :=
  map (fun c => if (0x41 <=? c) && (c <=? 0x5A) then c + 0x20 else c) s.

Definition daysFromCivil (y m d : Z) : Z :=
  (let y' := if m <=? 2 then y - 1 else y in
   let era := y' / 400 in
   let yoe := y' - era * 400 in
   let doy := (153 * (if 2 <? m then m - 3 else m + 9) + 2) / 5 + d - 1 in
   let doe := yoe * 365 + yoe / 4 - yoe / 100 + doy in
   era * 146097 + doe - 719468)%Z.

Definition civilFromDays (z : Z) : Z * Z * Z :=
  (let z' := z + 719468 in
   let era := z' / 146097 in
   let doe := z' - era * 146097 in
   let yoe := (doe - doe / 1460 + doe / 36524 - doe / 146096) / 365 in
   let doy := doe - (365 * yoe + yoe / 4 - yoe / 100) in
   let mp := (5 * doy + 2) / 153 in
   let d := doy - (153 * mp + 2) / 5 + 1 in
   let m := if mp <? 10 then mp + 3 else mp - 9 in
   (if m <=? 2 then yoe + era * 400 + 1 else yoe + era * 400, m, d))%Z.

Definition civilDate (y m d : jsstring) : option Z :=
  if forallb isDigit (y ++ m ++ d) then
    let '(yy, mm, dd) := (digitsValue y, digitsValue m, digitsValue d) in
    let z := daysFromCivil yy mm dd in
    if bool_decide (civilFromDays z = (yy, mm, dd)) && (0 <? yy)%Z then Some z else None
  else None.

Definition sampleParse (str f : jsstring) (_ : option Z) : result (option Z) :=
  if str_eqb f (js "yyyy.MM.dd") then
    match str with
    | [y1; y2; y3; y4; 0x2E; m1; m2; 0x2E; d1; d2] =>
      Ok (civilDate [y1; y2; y3; y4] [m1; m2] [d1; d2])
    | _ => Ok None
    end
  else if str_eqb f (js "yyyyMMdd") then
    match str with
    | [y1; y2; y3; y4; m1; m2; d1; d2] => Ok (civilDate [y1; y2; y3; y4] [m1; m2] [d1; d2])
    | _ => Ok None
    end
  else if str_eqb f (js "yyyy-MM-dd") then
    match str with
    | [y1; y2; y3; y4; 0x2D; m1; m2; 0x2D; d1; d2] =>
      Ok (civilDate [y1; y2; y3; y4] [m1; m2] [d1; d2])
    | _ => Ok None
    end
  else Throw RangeError.

Definition sampleIsValid (d : option Z) : bool := bool_decide (is_Some d).

Definition padDigits (width : nat) (z : Z) : jsstring :=
  let ds := numberToString (Fin z) in
  replicate (width - length ds) 0x30 ++ ds.

Definition sampleFormat (d : option Z) (f : jsstring) : result jsstring :=
  match d with
  | None => Throw RangeError
  | Some z =>
    let '(y, m, dd) := civilFromDays z in
    if str_eqb f (js "yyyy-MM-dd")
    then Ok (padDigits 4 y ++ js "-" ++ padDigits 2 m ++ js "-" ++ padDigits 2 dd)
    else if str_eqb f (js "yyyyMMdd")
    then Ok (padDigits 4 y ++ padDigits 2 m ++ padDigits 2 dd)
    else Throw RangeError
  end.

Definition sampleAddDays (d : option Z) (n : number) : option Z :=
  match d, n with
  | Some z, Fin k => Some (z + k)%Z
  | _, _ => None
  end.

Definition sampleNow : option Z := Some (daysFromCivil 2024 6 1).

Definition sampleConfig : PipelineConfig (option Z) :=
  {| chunkSize := Fin 500;
     today := sampleNow;
     completionOffsetDays := Fin 30;
     minContractAmount := Fin 10000000;
     excludedTypes := [js "조경"];
     excludedKeywords := [js "철거"] |}.

Definition samplePipeline :=
  runPipeline sampleConstr sampleDetail sampleRegion sampleRegion2 asciiLower
    (option Z) sampleParse sampleIsValid sampleFormat sampleAddDays sampleNow sampleConfig.

Definition sampleRowA (completion : string) : obj :=
  objLit [ (js "공종", VStr (js "건축"));
           (js "공사명", VStr (js "한빛 아파트 신축공사"));
           (js "착공일/준공일", VStr (js "2024.01.15~" ++ js completion));
           (js "주소", VStr (js "서울 강남구 역삼동 1 일원"));
           (js "발주처", VStr (js "한빛건설"));
           (js "시공사", VStr (js "두리건설"));
           (js "전화/팩스", VStr (js "h:02-123-4567/02-123-4568"));
           (js "공사개요", VStr (js "건축면적 1,200.5㎡, 대지면적 3,000㎡, 지하 2층, 지상 15층, 세대수: 1,234, 공사금액 12,345,000"));
           (js "등록일", VStr (js "20240110")) ].

(** A Source-A row whose overview states zero basement floors. *)
Definition sampleRowZeroFloor : obj :=
  objLit [ (js "공종", VStr (js "건축"));
           (js "공사명", VStr (js "한빛 물류창고 신축공사"));
           (js "착공일/준공일", VStr (js "2024.01.15~2099.12.31"));
           (js "주소", VStr (js "경기 수원시 1"));
           (js "공사개요", VStr (js "지하 0층, 지상 15층")) ].

(** Two normalized records with the given completion date. *)
Definition sampleRecord (completion : string) : obj :=
  objLit [ (F_name, VStr (js "한빛 아파트 신축공사"));
           (F_agency, VStr (js "한빛건설"));
           (F_contractor, VStr (js "두리건설"));
           (F_address, VStr (js "서울 강남구 역삼동 1"));
           (F_completion, VStr (js completion));
           (F_amount, VNum (Fin 20000000));
           (F_originalConstr, VStr (js "건축")) ].

(** A master record whose contractor cell holds the number 0, and a new
    record that has no contractor. *)
Definition sampleMasterRecord : obj :=
  objLit [ (F_name, VStr (js "한빛 아파트 신축공사"));
           (F_agency, VStr (js "한빛건설"));
           (F_contractor, VNum (Fin 0));
           (F_address, VStr (js "서울 강남구 역삼동 1")) ].

Definition sampleNewRecord : obj :=
  objLit [ (F_name, VStr (js "한빛 아파트 신축공사"));
           (F_agency, VStr (js "한빛건설"));
           (F_contractor, VUndef);
           (F_address, VStr (js "서울 강남구 역삼동 1")) ].

Definition sampleNormalizeA : obj -> result obj :=
  normalizeWhobuilds sampleConstr sampleDetail sampleRegion sampleRegion2
    (option Z) sampleParse sampleIsValid sampleFormat sampleNow.

Definition sampleParseDate : value -> option jsstring :=
  parseDate (option Z) sampleParse sampleIsValid sampleFormat sampleNow.

(** ** The specification's wording, for comparison *)

(** [pat] occurs somewhere in [s]. *)
Definition occursIn (pat s : jsstring) : Prop := exists u v, s = u ++ pat ++ v.

(** A key component as the specification words it: coerced to text, a
    missing value read as the empty string, then trimmed. *)
Definition claimedKeyText (item : obj) (key : jsstring) : jsstring :=
  trim (match item !! key with
        | None | Some VUndef | Some VNull => []
        | Some v => toString v
        end).

(** The same with every falsy value read as the empty string. *)
Definition falsyKeyText (item : obj) (key : jsstring) : jsstring :=
  trim (match item !! key with
        | None | Some VUndef | Some VNull => []
        | Some (VBool false) | Some (VNum NaN) | Some (VNum (Fin 0)) => []
        | Some v => toString v
        end).

Definition agreeOnKey (text : obj -> jsstring -> jsstring) (a b : obj) : Prop :=
  forall key, key ∈ keyCols -> text a key = text b key.

Fixpoint firstIndexFrom (P : N -> bool) (s : jsstring) (i : nat) : option nat :=
  match s with
  | [] => None
  | c :: s' => if P c then Some i else firstIndexFrom P s' (S i)
  end.

Definition isClosing (c : N) : bool := (c =? 0x5D) || (c =? 0x29).   (* ] ) *)
Definition isOpening (c : N) : bool := (c =? 0x5B) || (c =? 0x28).   (* [ ( *)

(** The name-cleaning rule, with the measure applied to the text that
    precedes the opening bracket left open. *)
Definition cleanByRule (measure : jsstring -> nat) (name : jsstring) : jsstring :=
  if (length name <=? 4)%nat then name
  else match firstIndexFrom isClosing (take 4 name) 0 with
       | Some i => trim (drop (S i) name)
       | None =>
         match firstIndexFrom isClosing name 0 with
         | Some j =>
           match firstIndexFrom isOpening (take j name) 0 with
           | Some i => if (measure (take i name) <=? 3)%nat then trim (drop (S j) name) else name
           | None => name
           end
         | None => name
         end
       end.

(** As the specification words it: the preceding text is at most 3 long. *)
Definition cleanAsClaimed : jsstring -> jsstring := cleanByRule (@length N).

(** As the code measures it: the preceding text, trimmed, is at most 3 long. *)
Definition cleanTrimmedPrefix : jsstring -> jsstring := cleanByRule (fun p => length (trim p)).

(** The overview text and the completion-date text of a Source-A row, as
    [normalizeWhobuilds] reads them. *)
Definition overviewOf (row : obj) : jsstring :=
  toString (js_or (get row (js "공사개요")) emptyText).

Definition completionTextOf (row : obj) : value :=
  at_index (split 0x7E (toString (js_or (get row (js "착공일/준공일")) emptyText))) 1.

(** The pattern sets group 1 on every path through it. *)
Fixpoint setsGroup (r : regex) : bool :=
  match r with
  | RGroup _ => true
  | RSeq r1 r2 => setsGroup r1 || setsGroup r2
  | _ => false
  end.

(** A matcher that succeeds has called its continuation, and a group that
    was set going in is still set there. *)
Definition passes (m : matcher) : Prop :=
  forall s c k res, m s c k = Some res ->
    exists s' c', k s' c' = Some res /\ (is_Some c -> is_Some c').

(** The same, with the group set whatever it was going in. *)
Definition captures (m : matcher) : Prop :=
  forall s c k res, m s c k = Some res ->
    exists s' c', k s' c' = Some res /\ is_Some c'.

(** The record has a completion date, and it is not below the cutoff. *)
Definition completesOnOrAfter (cutoff : jsstring) (q : obj) : Prop :=
  exists s, q !! F_completion = Some (VStr s) /\ s <> [] /\ str_ltb s cutoff = false.

(** The original-type field of each record of an artifact. *)
Definition originalTypes (l : list obj) : list (option value) :=
  (fun p : obj => p !! F_originalConstr) <$> l.

(** The record carries the normalizer's original type label. *)
Definition carriesOriginalType (p : obj) : Prop :=
  exists label, p !! F_originalConstr = Some (VStr label).

(** A cell on which [x.includes] and [x.substring] cannot raise: a string,
    or a falsy value, which the guards return on before any method call. *)
Definition textOrFalsy (v : value) : Prop :=
  (exists a, v = VStr a) \/ truthy v = false.

(** ** Words a pattern consumes *)

(** The later of two settings of group 1; [None] leaves it as it was. *)
Definition later (c o : cap) : cap :=
  match o with
  | Some _ => o
  | None => c
  end.

(** [matches r w o]: the pattern can consume the word [w], setting group 1
    to [o] on the way ([None]: not touching it).  A lookahead consumes
    nothing, whatever follows. *)
Inductive matches : regex -> jsstring -> cap -> Prop :=
| matches_eps : matches REps [] None
| matches_set cls x : cset_mem cls x = true -> matches (RSet cls) [x] None
| matches_lit l : matches (RLit l) l None
| matches_seq r1 r2 w1 w2 o1 o2 :
    matches r1 w1 o1 -> matches r2 w2 o2 -> matches (RSeq r1 r2) (w1 ++ w2) (later o1 o2)
| matches_opt_skip r : matches (ROpt r) [] None
| matches_opt_take r w o : matches r w o -> matches (ROpt r) w o
| matches_star_stop greedy r : matches (RStar greedy r) [] None
| matches_star_more greedy r w1 w2 o1 o2 :
    matches r w1 o1 -> matches (RStar greedy r) w2 o2 ->
    matches (RStar greedy r) (w1 ++ w2) (later o1 o2)
| matches_plus r w1 w2 o1 o2 :
    matches r w1 o1 -> matches (RStar true r) w2 o2 ->
    matches (RPlus r) (w1 ++ w2) (later o1 o2)
| matches_rep_stop hi r : matches (RRep 0 hi r) [] None
| matches_rep_more lo hi r w1 w2 o1 o2 :
    matches r w1 o1 -> matches (RRep (pred lo) hi r) w2 o2 ->
    matches (RRep lo (S hi) r) (w1 ++ w2) (later o1 o2)
| matches_group r w o : matches r w o -> matches (RGroup r) w (Some w)
| matches_notahead r : matches (RNotAhead r) [] None.

(** The code units that can occur in a consumed word. *)
Fixpoint alphabet (r : regex) (x : N) : bool :=
  match r with
  | REps => false
  | RSet cls => cset_mem cls x
  | RLit l => existsb (N.eqb x) l
  | RSeq r1 r2 => alphabet r1 x || alphabet r2 x
  | ROpt r1 | RStar _ r1 | RPlus r1 | RRep _ _ r1 | RGroup r1 => alphabet r1 x
  | RNotAhead _ => false
  end.

(** The pattern can consume the empty word. *)
Fixpoint nullable (r : regex) : bool :=
  match r with
  | REps => true
  | RSet _ => false
  | RLit l => bool_decide (l = [])
  | RSeq r1 r2 => nullable r1 && nullable r2
  | ROpt _ | RStar _ _ => true
  | RPlus r1 | RGroup r1 => nullable r1
  | RRep lo _ r1 => (lo =? 0)%nat || nullable r1
  | RNotAhead _ => true
  end.

(** The pattern has no capture group. *)
Fixpoint groupFree (r : regex) : bool :=
  match r with
  | RGroup _ => false
  | RSeq r1 r2 => groupFree r1 && groupFree r2
  | ROpt r1 | RStar _ r1 | RPlus r1 | RRep _ _ r1 => groupFree r1
  | _ => true
  end.

(** A matcher that succeeds has consumed a word of the pattern and handed
    on group 1 as that word set it. *)
Definition sound (r : regex) (m : matcher) : Prop :=
  forall s c k res, m s c k = Some res ->
    exists w s' o, s = w ++ s' /\ matches r w o /\ k s' (later c o) = Some res.

(** A plain decimal numeral: digits, optionally a point and more digits. *)
Definition decimalText (t : jsstring) : Prop :=
  exists whole frac,
    t = whole ++ frac /\ whole <> [] /\ Forall (fun x => isDigit x = true) whole /\
    (frac = [] \/ exists ds, frac = 0x2E :: ds /\ ds <> [] /\ Forall (fun x => isDigit x = true) ds).

(** A number as the patterns read it: 1 to 3 digits, groups of a comma and
    3 digits, optionally a point and digits. *)
Definition groupedNumber (g : jsstring) : Prop :=
  exists o, matches numberPattern g o.

(** The literal texts every word of the pattern contains. *)
Fixpoint literals (r : regex) : list jsstring :=
  match r with
  | RLit l => [l]
  | RSeq r1 r2 => literals r1 ++ literals r2
  | RPlus r1 | RGroup r1 => literals r1
  | _ => []
  end.

(** The bodies of the capture groups of a pattern. *)
Fixpoint groupBodies (r : regex) : list regex :=
  match r with
  | RGroup r1 => [r1]
  | RSeq r1 r2 => groupBodies r1 ++ groupBodies r2
  | ROpt r1 | RStar _ r1 | RPlus r1 | RRep _ _ r1 => groupBodies r1
  | _ => []
  end.

(** ** Where a returned record comes from *)

(** [p] is the normalized form of one of [rows], and its source's
    eligibility predicate kept it. *)
Definition keptFrom (normalize : obj -> result obj) (keep : obj -> result bool)
    (rows : list obj) (p : obj) : Prop :=
  exists row, row ∈ rows /\ normalize row = Ok p /\ keep p = Ok true.

(** A cell that is truthy and not a string: a non-zero number or [true]. *)
Definition nonText (v : value) : Prop := truthy v = true /\ forall s, v <> VStr s.

(** The field names of a normalized record, in the order the normalizers
    write them. *)
Definition canonicalFields : list jsstring :=
  [ F_No; F_sido; F_sigungu; F_constr; F_name; F_start; F_completion; F_address;
    F_agency; F_contractor; F_contact; F_builtArea; F_basement; F_ground;
    F_households; F_source; F_registered; F_detail; F_overview; F_firstContract;
    F_changeCount; F_amount; F_joint; F_companyKind; F_mainTrade; F_bizNo;
    F_siteArea; F_structure; F_use; F_height ].

(** The date text of a Source-A row, as [normalizeWhobuilds] reads it. *)
Definition dateRangeOf (row : obj) : jsstring :=
  toString (js_or (get row (js "착공일/준공일")) emptyText).

(** [out] is how the date library renders some valid date as yyyy-MM-dd. *)
Definition isRendering {jsdate : Type} (isValid : jsdate -> bool)
    (format : jsdate -> jsstring -> result jsstring) (out : jsstring) : Prop :=
  exists d, isValid d = true /\ format d (js "yyyy-MM-dd") = Ok out.

(** A region field read from [address]: the empty string, or the code of
    a table entry whose name occurs in the address text. *)
Definition regionCodeFor (table : list (jsstring * number)) (address v : value) : Prop :=
  v = VStr [] \/
  exists a reg code, address = VStr a /\ (reg, code) ∈ table /\ occursIn reg a /\ v = VNum code.

(** ** The configuration form ([App]) *)

(** [xs.join(sep)] *)
Fixpoint join (sep : jsstring) (xs : list jsstring) : jsstring :=
  match xs with
  | [] => []
  | x :: rest =>
    match rest with
    | [] => x
    | _ :: _ => x ++ sep ++ join sep rest
    end
  end.

(** [str.split(',').map(s => s.trim()).filter(s => s !== '')] *)
Definition parseList (str : jsstring) : list jsstring :=
  List.filter (fun s => negb (str_eqb s [])) (trim <$> split 0x2C str).

(** The initial text of a list field: [CONSTANT.join(', ')]. *)
Definition initialText (constant : list jsstring) : jsstring := join (js ", ") constant.

(** The configuration [executePipeline] builds from the state of the form. *)
Definition formConfig {jsdate : Type} (chunkSize : number) (today : jsdate)
    (completionOffset minAmount : number) (excludedTypesStr excludedKeywordsStr : jsstring)
  : PipelineConfig jsdate :=
  {| chunkSize := chunkSize;
     today := today;
     completionOffsetDays := completionOffset;
     minContractAmount := minAmount;
     excludedTypes := parseList excludedTypesStr;
     excludedKeywords := parseList excludedKeywordsStr |}.

(** An entry as the form's parser leaves it: not empty, trimmed, without a comma. *)
Definition listEntry (e : jsstring) : Prop := e <> [] /\ trim e = e /\ 0x2C ∉ e.

(** ** The export files ([downloadAll]) *)

(** [s.padStart(width, fill)] for a one-unit [fill]. *)
Definition padStart (width : nat) (fill : N) (s : jsstring) : jsstring :=
  replicate (width - length s) fill ++ s.

(** The name of the file of chunk [i], counted from 0. *)
Definition chunkFileName (i : nat) : jsstring :=
  js "잠재기회_데이터_" ++ padStart 2 0x30 (numberToString (Fin (Z.of_nat i + 1)))
    ++ js ".xlsx".

(** The calls of [exportExcel] that [downloadAll] makes, in order, each with
    its data and its file name; nothing when there are no results.  [None]
    stands for the chunk loop that never ends, as in [exportChunks]. *)
Definition downloadAll (results : option PipelineResult) : option (list (list obj * jsstring)) :=
  match results with
  | None => Some []
  | Some r =>
    let duplicateFile :=
      if (0 <? length (duplicates r))%nat
      then [ (duplicates r, js "잠재기회_중복데이터_" ++ dateTag r ++ js ".xlsx") ]
      else [] in
    let fixedFiles :=
      [ (resultDf r, js "잠재기회_업로드양식_" ++ dateTag r ++ js ".xlsx");
        (updatedMaster r, js "잠재기회_통합파일_" ++ dateTag r ++ js ".xlsx") ] in
    match exportChunks (resultDf r) (resultChunkSize r) with
    | Some chunks =>
      Some (duplicateFile ++ fixedFiles ++ imap (fun i chunk => (chunk, chunkFileName i)) chunks)
    | None => None
    end
  end.

(** The value of a text of decimal digits, read with the library that
    [numberToString] prints with. *)
Definition readDecimal (s : jsstring) : option Z :=
  (fun d => Z.of_N (Pos.of_uint d))
    <$> NilEmpty.uint_of_string (string_of_list_ascii (ascii_of_N <$> s)).

(** ** Further sample rows and results *)

(** A Source-B row. *)
Definition sampleRowB : obj :=
  objLit [ (js "공공조달분류", VStr (js "토목"));
           (js "계약명", VStr (js "[긴급] 한빛 도로 보수공사"));
           (js "착수일자", VStr (js "2024-02-01"));
           (js "총완수일자", VStr (js "2099-12-31"));
           (js "현장지역", VStr (js "경기 수원시"));
           (js "수요기관", VStr (js "경기도"));
           (js "계약시점 업체명", VStr (js "두리건설"));
           (js "기준일자", VStr (js "20240110"));
           (js "최초계약일자", VStr (js "2024.01.20"));
           (js "계약금액", VNum (Fin 20000000));
           (js "공동수급구성방식", VStr (js "단독계약")) ].

(** Source-A rows whose name cell, and whose address cell, holds a number. *)
Definition sampleRowNumericName : obj :=
  objLit [ (js "공사명", VNum (Fin 2024));
           (js "착공일/준공일", VStr (js "2024.01.15~2099.12.31")) ].

Definition sampleRowNumericAddress : obj :=
  objLit [ (js "공사명", VStr (js "한빛 아파트 신축공사"));
           (js "주소", VNum (Fin 12345));
           (js "착공일/준공일", VStr (js "2024.01.15~2099.12.31")) ].

(** A Source-A row whose date cell holds one date and no tilde. *)
Definition sampleRowNoTilde : obj :=
  objLit [ (js "공종", VStr (js "건축"));
           (js "공사명", VStr (js "한빛 아파트 신축공사"));
           (js "착공일/준공일", VStr (js "2099.12.31")) ].

(** A record whose original type has a leading space. *)
Definition sampleRecordUntrimmedType : obj :=
  objLit [ (F_originalConstr, VStr (js " 조경")) ].

(** Results with three new records, no duplicate and a chunk size of 2. *)
Definition sampleResults : PipelineResult :=
  {| resultDf := replicate 3 ∅;
     duplicates := [];
     updatedMaster := replicate 3 ∅;
     dateTag := js "20240601";
     resultChunkSize := Fin 2 |}.

(** A run on one row of each source, without a master file. *)
Definition sampleRun : result PipelineResult :=
  samplePipeline [[sampleRowA "2099.12.31"]] (Some [sampleRowB]) None.

Definition sampleNormalizeB : obj -> result obj :=
  normalizeNarajang sampleConstr sampleDetail sampleRegion sampleRegion2
    (option Z) sampleParse sampleIsValid sampleFormat sampleNow.

(** * Properties *)

(** ** Proof tactics *)

Ltac field_ne :=
  let H := fresh in intros H; vm_compute in H; discriminate H.

(** Reads a field of an object literal extended by assignments. *)
Ltac read_field :=
  cbv [objLit fold_left fst snd];
  repeat (rewrite lookup_insert_ne by field_ne);
  rewrite lookup_insert_eq.

(** Splits [bind m k = Ok r] into [m = Ok x] and [k x = Ok r]. *)
Ltac bind_inv_as H x E :=
  match type of H with
  | bind ?m _ = Ok _ =>
    destruct m as [x|] eqn:E; [|discriminate H];
    change (bind (Ok x) ?k) with (k x) in H; cbv beta in H
  end.

Ltac bind_inv H :=
  let x := fresh "x" in
  let E := fresh "E" in
  bind_inv_as H x E.

Ltac passed := do 2 eexists; split; [eassumption|tauto || done].

(** ** Strings *)

Lemma Ok_inj {A} (a b : A) : Ok a = Ok b -> a = b.
Proof. by intros [= ]. Qed.

Lemma startsWith_app pat v : startsWith pat (pat ++ v) = true.
Proof. induction pat as [|p pat IH]; simpl; [done|]. by rewrite N.eqb_refl. Qed.

Lemma startsWith_inv pat s : startsWith pat s = true -> exists v, s = pat ++ v.
Proof.
  revert s. induction pat as [|p pat IH]; intros s H.
  - by exists s.
  - destruct s as [|c s]; simpl in H; [done|].
    apply andb_prop in H as [Hc Hs]. apply N.eqb_eq in Hc as ->.
    destruct (IH _ Hs) as [v ->]. by exists v.
Qed.

Lemma indexOfFrom_occurs pat s i n : indexOfFrom pat s i = Some n -> occursIn pat s.
Proof.
  revert i. induction s as [|c s IH]; intros i; simpl.
  - destruct (startsWith pat []) eqn:E; [|done]. intros _.
    apply startsWith_inv in E as [v E]. by exists [], v.
  - destruct (startsWith pat (c :: s)) eqn:E.
    + intros _. apply startsWith_inv in E as [v E]. by exists [], v.
    + intros H. destruct (IH _ H) as (u & v & ->). by exists (c :: u), v.
Qed.

Lemma occurs_indexOfFrom pat u v i : is_Some (indexOfFrom pat (u ++ pat ++ v) i).
Proof.
  revert i. induction u as [|c u IH]; intros i.
  - simpl. destruct (pat ++ v) eqn:E.
    + simpl. rewrite <- E, startsWith_app. eauto.
    + simpl. rewrite <- E, startsWith_app. eauto.
  - simpl. destruct (startsWith pat (c :: u ++ pat ++ v)); eauto.
Qed.

Lemma includes_occurs s pat : includes s pat = true <-> occursIn pat s.
Proof.
  unfold includes. rewrite bool_decide_eq_true. split.
  - intros [n H]. eauto using indexOfFrom_occurs.
  - intros (u & v & ->). apply occurs_indexOfFrom.
Qed.

Lemma includes_not_occurs s pat : includes s pat = false <-> ~ occursIn pat s.
Proof. rewrite <- includes_occurs. by destruct (includes s pat). Qed.

Lemma str_ltb_irrefl a : str_ltb a a = false.
Proof. induction a as [|x a IH]; simpl; [done|]. rewrite N.ltb_irrefl, N.eqb_refl. done. Qed.

(** The order is total: not below means equal or above. *)
Lemma str_ltb_total a b : str_ltb a b = false <-> a = b \/ str_ltb b a = true.
Proof.
  revert b. induction a as [|x a IH]; intros [|y b]; simpl; try (by intuition).
  destruct (N.lt_trichotomy x y) as [Hlt|[->|Hgt]].
  - assert ((x <? y) = true) as -> by (apply N.ltb_lt; lia).
    assert ((y <? x) = false) as -> by (apply N.ltb_ge; lia).
    assert ((y =? x) = false) as -> by (apply N.eqb_neq; lia).
    simpl. split; [done|]. intros [[= ]|]; [lia|done].
  - rewrite N.ltb_irrefl, N.eqb_refl. simpl. rewrite IH.
    split; (intros [Heq|Hlt]; [left; congruence|by right]).
  - assert ((x <? y) = false) as -> by (apply N.ltb_ge; lia).
    assert ((x =? y) = false) as -> by (apply N.eqb_neq; lia).
    assert ((y <? x) = true) as -> by (apply N.ltb_lt; lia).
    simpl. by split; [right|].
Qed.

Local Close Scope N_scope.

(** ** Region mapper *)

Lemma mapRegionLoop_total a entries : exists v, mapRegionLoop (VStr a) entries = Ok v.
Proof.
  induction entries as [|[reg code] rest IH]; simpl; [eauto|].
  destruct (includes a reg); eauto.
Qed.

Lemma mapRegionLoop_none a entries :
  Forall (fun e => ~ occursIn e.1 a) entries ->
  mapRegionLoop (VStr a) entries = Ok (VStr []).
Proof.
  induction 1 as [|[reg code] rest Hno _ IH]; simpl; [done|].
  apply includes_not_occurs in Hno. simpl in Hno. by rewrite Hno.
Qed.

Lemma mapRegionLoop_first a pre reg code post :
  occursIn reg a ->
  Forall (fun e => ~ occursIn e.1 a) pre ->
  mapRegionLoop (VStr a) (pre ++ (reg, code) :: post) = Ok (VNum code).
Proof.
  intros Hin. induction 1 as [|[reg' code'] rest Hno _ IH]; simpl.
  - apply includes_occurs in Hin. by rewrite Hin.
  - apply includes_not_occurs in Hno. simpl in Hno. by rewrite Hno.
Qed.

Lemma truthy_nonempty a : a <> [] -> truthy (VStr a) = true.
Proof. intros H. unfold truthy, str_eqb. by rewrite bool_decide_eq_false_2. Qed.

(** C5.  On a string address, both region mappers return the code of the
    first table entry, in table order, whose name occurs in the address,
    whatever later entries also occur; the empty address and an address in
    which no entry occurs give the empty string; no address raises. *)
Theorem C5_region_first_match (table : list (jsstring * number)) (address : jsstring)
    (mapper : value -> result value) :
  mapper = mapRegion table \/ mapper = mapRegion2 table ->
  (address = [] -> mapper (VStr address) = Ok (VStr [])) /\
  (forall pre reg code post,
      address <> [] ->
      table = pre ++ (reg, code) :: post ->
      occursIn reg address ->
      Forall (fun e => ~ occursIn e.1 address) pre ->
      mapper (VStr address) = Ok (VNum code)) /\
  (Forall (fun e => ~ occursIn e.1 address) table -> mapper (VStr address) = Ok (VStr [])) /\
  (exists v, mapper (VStr address) = Ok v).
Proof.
  assert (Hboth : mapRegion2 table = mapRegion table) by reflexivity.
  intros Hm. assert (mapper = mapRegionWith table) as ->.
  { destruct Hm as [->| ->]; done. }
  clear Hm Hboth. unfold mapRegionWith. repeat split.
  - by intros ->.
  - intros pre reg code post Hne -> Hin Hpre.
    rewrite truthy_nonempty by done. simpl. by apply mapRegionLoop_first.
  - intros Hnone. destruct (truthy (VStr address)); simpl; [|done].
    by apply mapRegionLoop_none.
  - destruct (truthy (VStr address)); simpl; [|eauto]. apply mapRegionLoop_total.
Qed.

(** ** Renumbering merge *)

Lemma renumberMaster_insert i p :
  renumberMaster i p = <[F_No := VNum (Fin (Z.of_nat i + 1))]> p.
Proof.
  unfold renumberMaster, spread. apply map_eq. intros k.
  rewrite lookup_union. destruct (decide (k = F_No)) as [->|Hne].
  - rewrite lookup_delete_eq, !lookup_insert_eq. done.
  - rewrite lookup_delete_ne by done. rewrite !lookup_insert_ne by done.
    rewrite lookup_empty. by destruct (p !! k).
Qed.

Lemma renumber_insert i p : renumber i p = <[F_No := VNum (Fin (Z.of_nat i + 1))]> p.
Proof. unfold renumber, spread. by rewrite (right_id_L ∅ (∪)). Qed.

(** C3.  The updated master is the master followed by the new unique
    records: apart from "No." every record keeps exactly its fields; and
    the "No." fields read 1, 2, ..., L whatever they were before. *)
Theorem C3_master_renumbered (existingMaster uniqueNew : list obj) :
  length (mergeMaster existingMaster uniqueNew) = length existingMaster + length uniqueNew /\
  delete F_No <$> mergeMaster existingMaster uniqueNew
    = delete F_No <$> (existingMaster ++ uniqueNew) /\
  (fun r : obj => r !! F_No) <$> mergeMaster existingMaster uniqueNew
    = (fun i => Some (VNum (Fin (Z.of_nat i))))
        <$> seq 1 (length existingMaster + length uniqueNew).
Proof.
  unfold mergeMaster. split; [by rewrite length_imap, length_app|]. split.
  - rewrite fmap_imap. rewrite <- (imap_const (delete F_No)).
    apply imap_ext. intros i p _. simpl.
    rewrite renumberMaster_insert. apply delete_insert_eq.
  - rewrite fmap_imap, <- length_app.
    rewrite <- (imap_seq (existingMaster ++ uniqueNew)
                  (fun i => Some (VNum (Fin (Z.of_nat i)))) 1).
    apply imap_ext. intros i p _. simpl.
    rewrite renumberMaster_insert, lookup_insert_eq. do 3 f_equal. lia.
Qed.

(** ** Filters *)

Lemma filterR_idem {A} (p : A -> result bool) l l' :
  filterR p l = Ok l' -> filterR p l' = Ok l'.
Proof.
  revert l'. induction l as [|a l IH]; intros l'; simpl.
  - by intros [= <-].
  - destruct (p a) as [b|] eqn:Hp; simpl; [|done].
    destruct (filterR p l) as [r|] eqn:Hr; simpl; [|done].
    intros [= <-]. specialize (IH r eq_refl). destruct b; [|done].
    simpl. rewrite Hp. simpl. by rewrite IH.
Qed.

Lemma filter_idem {A} (p : A -> bool) l : List.filter p (List.filter p l) = List.filter p l.
Proof.
  induction l as [|a l IH]; simpl; [done|].
  destruct (p a) eqn:Hp; simpl; [|done]. by rewrite Hp, IH.
Qed.

(** C7.  Each eligibility filter is idempotent: when a pass over a list
    returns, a second pass with the same predicate and configuration
    returns the same list. *)
Theorem C7_filters_idempotent (toLowerCase : jsstring -> jsstring) (jsdate : Type)
    (config : PipelineConfig jsdate) (cutoffDateStr : jsstring) :
  (forall l l',
      filterR (whobuildsPredicate toLowerCase config cutoffDateStr) l = Ok l' ->
      filterR (whobuildsPredicate toLowerCase config cutoffDateStr) l' = Ok l') /\
  (forall l l',
      filterR (narajangPredicate toLowerCase config cutoffDateStr) l = Ok l' ->
      filterR (narajangPredicate toLowerCase config cutoffDateStr) l' = Ok l') /\
  (forall l, List.filter mergedPredicate (List.filter mergedPredicate l)
             = List.filter mergedPredicate l).
Proof.
  split; [|split].
  - intros l l'. apply filterR_idem.
  - intros l l'. apply filterR_idem.
  - apply filter_idem.
Qed.

(** ** Deduplicator *)

Lemma dedup_fold M N d u :
  fold_left (dedupStep M) N (d, u)
  = (d ++ List.filter (isDuplicate M) N,
     u ++ List.filter (fun n => negb (isDuplicate M n)) N).
Proof.
  revert d u. induction N as [|n N IH]; intros d u; simpl.
  - by rewrite !app_nil_r.
  - unfold dedupStep at 2. destruct (isDuplicate M n); simpl; rewrite IH.
    + by rewrite <- app_assoc.
    + by rewrite <- app_assoc.
Qed.

Lemma deduplicate_filter M N :
  deduplicate M N
  = (List.filter (isDuplicate M) N, List.filter (fun n => negb (isDuplicate M n)) N).
Proof. unfold deduplicate. by rewrite dedup_fold. Qed.

Lemma trim_nil : trim [] = [].
Proof. reflexivity. Qed.

(** What [String(v || '').trim()] reads: every falsy value as the empty string. *)
Lemma keyText_falsy item key : keyText item key = falsyKeyText item key.
Proof.
  unfold keyText, falsyKeyText, get, js_or.
  destruct (item !! key) as [[| |[]|[|z]|s]|]; simpl; try done.
  - destruct (Z.eqb_spec z 0) as [->|Hz]; simpl; [done|]. by destruct z.
  - unfold str_eqb. case_bool_decide; simpl; [by subst|done].
Qed.

Lemma sameKey_agree n m : sameKey n m = true <-> agreeOnKey falsyKeyText n m.
Proof.
  unfold sameKey, agreeOnKey. rewrite forallb_forall. split.
  - intros H key Hk. apply list_elem_of_In in Hk. specialize (H key Hk).
    unfold str_eqb in H. apply bool_decide_eq_true in H. by rewrite <- !keyText_falsy.
  - intros H key Hk. apply list_elem_of_In in Hk. unfold str_eqb.
    apply bool_decide_eq_true. rewrite !keyText_falsy. by apply H.
Qed.

Lemma isDuplicate_spec M n :
  isDuplicate M n = true <-> exists m, m ∈ M /\ agreeOnKey falsyKeyText n m.
Proof.
  unfold isDuplicate. rewrite existsb_exists. split.
  - intros (m & Hm & Hs). exists m. split; [by apply list_elem_of_In|by apply sameKey_agree].
  - intros (m & Hm & Hs). exists m. split; [by apply list_elem_of_In|by apply sameKey_agree].
Qed.

Lemma filter_sublist {A} (p : A -> bool) l : List.filter p l `sublist_of` l.
Proof.
  induction l as [|a l IH]; simpl; [done|].
  destruct (p a); [by apply sublist_skip|by apply sublist_cons].
Qed.

Lemma filter_split_perm {A} (p : A -> bool) l :
  List.filter p l ++ List.filter (fun a => negb (p a)) l ≡ₚ l.
Proof.
  induction l as [|a l IH]; simpl; [done|].
  destruct (p a); simpl.
  - by rewrite IH.
  - rewrite <- Permutation_middle. by rewrite IH.
Qed.

(** C2, as the code has it.  The deduplicator routes every new record, in
    input order, to [duplicates] or to [uniqueNew]: the two lists are the
    records that satisfy, respectively fail, the duplicate test, so they
    are order-preserving, disjoint and together a rearrangement of the
    input.  A record is a duplicate exactly when some master record agrees
    with it on the four key components, each read as text with missing and
    all other falsy values (0, NaN, false) as the empty string, trimmed,
    and compared for equality. *)
Theorem C2_dedup_partition (existingMaster mergedNew : list obj) :
  (deduplicate existingMaster mergedNew).1
    = List.filter (isDuplicate existingMaster) mergedNew /\
  (deduplicate existingMaster mergedNew).2
    = List.filter (fun n => negb (isDuplicate existingMaster n)) mergedNew /\
  (deduplicate existingMaster mergedNew).1 `sublist_of` mergedNew /\
  (deduplicate existingMaster mergedNew).2 `sublist_of` mergedNew /\
  (deduplicate existingMaster mergedNew).1 ++ (deduplicate existingMaster mergedNew).2
    ≡ₚ mergedNew /\
  (forall n, n ∈ (deduplicate existingMaster mergedNew).1 ->
             n ∉ (deduplicate existingMaster mergedNew).2) /\
  (forall n, n ∈ mergedNew ->
     (n ∈ (deduplicate existingMaster mergedNew).1 <->
      exists m, m ∈ existingMaster /\ agreeOnKey falsyKeyText n m)).
Proof.
  rewrite deduplicate_filter. simpl. repeat split.
  - apply filter_sublist.
  - apply filter_sublist.
  - apply filter_split_perm.
  - intros n Hd Hu. apply list_elem_of_In, filter_In in Hd as [_ Hd].
    apply list_elem_of_In, filter_In in Hu as [_ Hu]. by rewrite Hd in Hu.
  - intros Hd. apply list_elem_of_In, filter_In in Hd as [_ Hd]. by apply isDuplicate_spec.
  - intros Hm. apply list_elem_of_In, filter_In. split; [by apply list_elem_of_In|].
    by apply isDuplicate_spec.
Qed.

(** ** Export chunking *)

Lemma ceilDiv_nat (n : nat) (c : Z) :
  (0 < c)%Z ->
  Z.to_nat (ceilDiv (Z.of_nat n) c)
  = n / Z.to_nat c + (if n mod Z.to_nat c =? 0 then 0 else 1).
Proof.
  intros Hc. unfold ceilDiv.
  assert (Hm : c = Z.of_nat (Z.to_nat c)) by lia.
  set (m := Z.to_nat c) in *. assert (0 < m) by lia.
  pose proof (Nat.div_mod_eq n m) as Hdm.
  pose proof (Nat.mod_upper_bound n m ltac:(lia)) as Hr.
  set (q := n / m) in *. set (r := n mod m) in *.
  destruct (Nat.eqb_spec r 0) as [Hz|Hnz].
  - assert ((- Z.of_nat n) / c = - Z.of_nat q)%Z as ->; [|lia].
    symmetry. apply (Z.div_unique _ _ _ 0%Z); lia.
  - assert ((- Z.of_nat n) / c = - Z.of_nat q - 1)%Z as ->; [|lia].
    symmetry. apply (Z.div_unique _ _ _ (c - Z.of_nat r)%Z); nia.
Qed.

Lemma slice_length {A} (l : list A) m i :
  length (slice (i * m) ((i + 1) * m) l) = min m (length l - i * m).
Proof. unfold slice. rewrite length_take, length_drop. f_equal. lia. Qed.

Lemma slices_concat {A} (l : list A) m k :
  concat ((fun i => slice (i * m) ((i + 1) * m) l) <$> seq 0 k) = take (k * m) l.
Proof.
  induction k as [|k IH]; [done|].
  rewrite seq_S, fmap_app, concat_app, IH. simpl. rewrite app_nil_r.
  unfold slice. replace ((k + 1) * m - k * m) with m by lia.
  rewrite take_take_drop. f_equal. lia.
Qed.

Lemma fmap_seq_const {B} (f : nat -> B) x q :
  (forall i, i < q -> f i = x) -> f <$> seq 0 q = replicate q x.
Proof.
  induction q as [|q IH]; intros H; [done|].
  rewrite seq_S, fmap_app, IH by (intros; apply H; lia). simpl.
  rewrite H by lia. change [x] with (replicate 1 x).
  rewrite <- replicate_add. by replace (q + 1) with (S q) by lia.
Qed.

Lemma renumber_numbers (chunk : list obj) :
  (fun r : obj => r !! F_No) <$> imap renumber chunk
  = (fun j => Some (VNum (Fin (Z.of_nat j)))) <$> seq 1 (length chunk).
Proof.
  rewrite fmap_imap.
  rewrite <- (imap_seq chunk (fun i => Some (VNum (Fin (Z.of_nat i)))) 1).
  apply imap_ext. intros i p _. simpl.
  rewrite renumber_insert, lookup_insert_eq. do 3 f_equal. lia.
Qed.

Lemma renumber_erased (chunk : list obj) :
  delete F_No <$> imap renumber chunk = delete F_No <$> chunk.
Proof.
  rewrite fmap_imap, <- (imap_const (delete F_No)).
  apply imap_ext. intros i p _. simpl. rewrite renumber_insert. apply delete_insert_eq.
Qed.

(** C8.  For a positive chunk size [c] the export loop ends and produces
    ceil(n/c) chunks: n/c chunks of [c] records, then a shorter one holding
    the remainder when [c] does not divide [n]; the chunks are consecutive
    slices of [resultDf] (joined, and leaving "No." aside, they are
    [resultDf]); and within each chunk "No." runs from 1 to its length.
    1050 records in chunks of 500 give sizes 500, 500 and 50. *)
Theorem C8_export_chunks (resultDf : list obj) (c : Z) :
  (0 < c)%Z ->
  exists chunks : list (list obj),
    exportChunks resultDf (Fin c) = Some chunks /\
    (Z.of_nat (length resultDf) <= Z.of_nat (length chunks) * c
       < Z.of_nat (length resultDf) + c)%Z /\
    length <$> chunks
      = replicate (length resultDf / Z.to_nat c) (Z.to_nat c)
        ++ (if length resultDf mod Z.to_nat c =? 0 then []
            else [length resultDf mod Z.to_nat c]) /\
    concat ((fun chunk : list obj => delete F_No <$> chunk) <$> chunks)
      = delete F_No <$> resultDf /\
    Forall (fun chunk : list obj =>
              (fun r : obj => r !! F_No) <$> chunk
              = (fun j => Some (VNum (Fin (Z.of_nat j)))) <$> seq 1 (length chunk))
           chunks /\
    (length resultDf = 1050 -> c = 500%Z -> length <$> chunks = [500; 500; 50]).
Proof.
  intros Hc. unfold exportChunks.
  assert ((0 <? c)%Z = true) as -> by lia.
  eexists. split; [reflexivity|].
  rewrite ceilDiv_nat by done.
  assert (Hm : c = Z.of_nat (Z.to_nat c)) by lia.
  set (m := Z.to_nat c) in *. assert (0 < m) by lia.
  set (n := length resultDf).
  pose proof (Nat.div_mod_eq n m) as Hdm.
  pose proof (Nat.mod_upper_bound n m ltac:(lia)) as Hr.
  set (q := n / m) in *. set (r := n mod m) in *.
  set (e := if r =? 0 then 0 else 1).
  assert (He : n <= (q + e) * m < n + m).
  { unfold e. destruct (Nat.eqb_spec r 0); nia. }
  assert (Hsizes :
    length <$> ((fun i => imap renumber (slice (i * m) ((i + 1) * m) resultDf))
                  <$> seq 0 (q + e))
    = replicate q m ++ (if r =? 0 then [] else [r])).
  { rewrite <- list_fmap_compose.
    rewrite seq_app, fmap_app. f_equal.
    + apply fmap_seq_const. intros i Hi. simpl.
      rewrite length_imap, slice_length. fold n. nia.
    + unfold e. destruct (Nat.eqb_spec r 0); simpl; [done|].
      rewrite length_imap, slice_length. fold n. f_equal. nia. }
  split; [|split; [exact Hsizes|split; [|split]]].
  - rewrite length_fmap, length_seq. nia.
  - rewrite <- list_fmap_compose.
    rewrite (list_fmap_ext _ (fun i => slice (i * m) ((i + 1) * m) (delete F_No <$> resultDf))).
    + rewrite slices_concat. apply take_ge. rewrite length_fmap. fold n. lia.
    + intros i x _. simpl. rewrite renumber_erased. unfold slice.
      by rewrite fmap_take, fmap_drop.
  - apply Forall_fmap, Forall_forall. intros i _. simpl.
    rewrite renumber_numbers. by rewrite length_imap.
  - intros Hn Hc500. rewrite Hsizes. subst q r m n c. rewrite Hn. reflexivity.
Qed.

Lemma filterR_elem {A} (f : A -> result bool) l l' x :
  filterR f l = Ok l' -> x ∈ l' -> x ∈ l /\ f x = Ok true.
Proof.
  revert l'. induction l as [|a l IH]; intros l'; simpl.
  - intros [= <-] Hx. by apply not_elem_of_nil in Hx.
  - destruct (f a) as [b|] eqn:Hf; simpl; [|done].
    destruct (filterR f l) as [r|] eqn:Hr; simpl; [|done].
    intros [= <-] Hx. specialize (IH r eq_refl).
    destruct b.
    + apply elem_of_cons in Hx as [->|Hx].
      * split; [apply elem_of_cons; by left|done].
      * destruct (IH Hx). split; [apply elem_of_cons; by right|done].
    + destruct (IH Hx). split; [apply elem_of_cons; by right|done].
Qed.

(** ** Completion-date cutoff *)

Lemma dateCheck_string cutoff p s :
  get p F_completion = VStr s ->
  truthy (dateCheck cutoff p) = negb (str_eqb s []) && negb (str_ltb s cutoff).
Proof.
  intros Hs. unfold dateCheck, js_and. rewrite Hs. simpl.
  destruct (str_eqb s []) eqn:E; simpl.
  - by rewrite E.
  - unfold js_ge. simpl. by destruct (str_ltb s cutoff).
Qed.

Lemma completion_rejected (toLowerCase : jsstring -> jsstring) (jsdate : Type)
    (config : PipelineConfig jsdate) (cutoff : jsstring) (p : obj) (s : jsstring) :
  get p F_completion = VStr s ->
  s = [] \/ str_ltb s cutoff = true ->
  (forall b, whobuildsPredicate toLowerCase config cutoff p = Ok b -> b = false) /\
  (forall b, narajangPredicate toLowerCase config cutoff p = Ok b -> b = false).
Proof.
  intros Hs Hbad.
  assert (Hf : truthy (dateCheck cutoff p) = false).
  { rewrite (dateCheck_string cutoff p s Hs). destruct Hbad as [->|Hlt]; [done|].
    rewrite Hlt. by destruct (str_eqb s []). }
  split; intros b.
  - unfold whobuildsPredicate.
    destruct (containsExcludedKeyword _ _ _); simpl; [|done].
    rewrite Hf. intros [= <-]. by rewrite andb_false_r.
  - unfold narajangPredicate.
    destruct (containsExcludedKeyword _ _ _); simpl; [|done].
    rewrite Hf. intros [= <-]. by rewrite andb_false_r.
Qed.

(** The two predicates at a given completion date. *)
Lemma completion_cutoff_predicates (toLowerCase : jsstring -> jsstring) (jsdate : Type)
    (config : PipelineConfig jsdate) (cutoff : jsstring) (p : obj) (s : jsstring) :
  get p F_completion = VStr s ->
  (s = [] \/ str_ltb s cutoff = true ->
     (forall b, whobuildsPredicate toLowerCase config cutoff p = Ok b -> b = false) /\
     (forall b, narajangPredicate toLowerCase config cutoff p = Ok b -> b = false) /\
     (forall l l', filterR (whobuildsPredicate toLowerCase config cutoff) l = Ok l' -> p ∉ l') /\
     (forall l l', filterR (narajangPredicate toLowerCase config cutoff) l = Ok l' -> p ∉ l')) /\
  (cutoff <> [] -> s = cutoff \/ str_ltb cutoff s = true ->
     truthy (dateCheck cutoff p) = true /\
     forall excluded,
       containsExcludedKeyword toLowerCase (get p F_name) (excludedKeywords config)
         = Ok excluded ->
       whobuildsPredicate toLowerCase config cutoff p
         = Ok (negb (includes (toString (get p F_agency)) (js "방위사업청"))
               && constrCheck config p && negb excluded) /\
       narajangPredicate toLowerCase config cutoff p
         = Ok (js_ge (VNum (toNumber (get p F_amount))) (VNum (minContractAmount config))
               && constrCheck config p && negb excluded)).
Proof.
  intros Hs. pose proof (dateCheck_string cutoff p s Hs) as Hd. split.
  - intros Hbad.
    destruct (completion_rejected toLowerCase jsdate config cutoff p s Hs Hbad) as [HA HB].
    repeat split; [done|done| |].
    + intros l l' Hl Hin. destruct (filterR_elem _ _ _ _ Hl Hin) as [_ Ht].
      by apply HA in Ht.
    + intros l l' Hl Hin. destruct (filterR_elem _ _ _ _ Hl Hin) as [_ Ht].
      by apply HB in Ht.
  - intros Hne Hge.
    assert (Ht : truthy (dateCheck cutoff p) = true).
    { rewrite Hd. rewrite (proj2 (str_ltb_total s cutoff) Hge).
      assert (s <> []) as Hs'.
      { intros ->. destruct Hge as [<-|Hlt]; [done|]. by destruct cutoff. }
      unfold str_eqb. by rewrite bool_decide_eq_false_2. }
    split; [done|]. intros excluded Hex.
    unfold whobuildsPredicate, narajangPredicate. rewrite Hex. simpl.
    rewrite Ht. by rewrite !andb_true_r.
Qed.

(** ** Name cleaner *)

Lemma execFrom_set cls s i :
  fst <$> execFrom (RSet cls) s i = firstIndexFrom (cset_mem cls) s i.
Proof.
  revert i. induction s as [|c s IH]; intros i; simpl; [done|].
  destruct (cset_mem cls c); [done|]. apply IH.
Qed.

Lemma search_closing s : search closingBracket s = firstIndexFrom isClosing s 0.
Proof.
  unfold search, closingBracket. rewrite execFrom_set. revert s.
  generalize 0. intros i s. revert i.
  induction s as [|c s IH]; intros i; simpl; [done|].
  rewrite IH. unfold isClosing. by rewrite orb_false_r.
Qed.

Lemma search_opening s : search openingBracket s = firstIndexFrom isOpening s 0.
Proof.
  unfold search, openingBracket. rewrite execFrom_set. revert s.
  generalize 0. intros i s. revert i.
  induction s as [|c s IH]; intros i; simpl; [done|].
  rewrite IH. unfold isOpening. by rewrite orb_false_r.
Qed.

Lemma substring_0 n (s : jsstring) : substring 0 n s = take n s.
Proof. unfold substring. by rewrite drop_0, Nat.sub_0_r. Qed.

Lemma cleanProjectName_string s :
  cleanProjectName (VStr s) = Ok (VStr (cleanTrimmedPrefix s)).
Proof.
  unfold cleanProjectName, cleanTrimmedPrefix, cleanByRule.
  destruct (length s <=? 4) eqn:Hlen.
  - by rewrite orb_true_r.
  - rewrite orb_false_r.
    assert (truthy (VStr s) = true) as ->.
    { apply truthy_nonempty. intros ->. done. }
    simpl negb. cbv iota. unfold substringFrom.
    rewrite substring_0, !search_closing.
    destruct (firstIndexFrom isClosing (take 4 s) 0) as [i|].
    { by rewrite Nat.add_1_r. }
    destruct (firstIndexFrom isClosing s 0) as [j|]; [|done].
    rewrite substring_0, search_opening.
    destruct (firstIndexFrom isOpening (take j s) 0) as [i|]; [|done].
    rewrite substring_0, Nat.add_1_r.
    by destruct (length (trim (take i s)) <=? 3).
Qed.

(** C6, as the code has it.  On a string the name cleaner never raises
    and follows the stated rule, except that the text preceding the first
    opening bracket is measured after trimming: names of at most 4 units
    come back unchanged; a closing bracket among the first 4 units strips
    through it; otherwise the first closing bracket is stripped through
    when an opening bracket precedes it and the trimmed text before the
    first opening bracket has at most 3 units; otherwise the name is
    unchanged.  "[A]Test Project" gives "Test Project". *)
Theorem C6_name_cleaner (name : jsstring) :
  cleanProjectName (VStr name) = Ok (VStr (cleanTrimmedPrefix name)) /\
  (length name <= 4 -> cleanProjectName (VStr name) = Ok (VStr name)) /\
  cleanProjectName (VStr (js "[A]Test Project")) = Ok (VStr (js "Test Project")).
Proof.
  split; [apply cleanProjectName_string|]. split; [|by vm_compute].
  intros Hlen. rewrite cleanProjectName_string.
  unfold cleanTrimmedPrefix, cleanByRule.
  by assert ((length name <=? 4) = true) as -> by (apply Nat.leb_le; lia).
Qed.

(** ** Normalized records *)

Section NormalizedRecords.

Variable CONSTR_MAPPING DETAIL_CONSTR_MAPPING : obj.
Variable REGION_MAPPING REGION_MAPPING2 : list (jsstring * number).
Variable jsdate : Type.
Variable dfns_parse : jsstring -> jsstring -> jsdate -> result jsdate.
Variable dfns_isValid : jsdate -> bool.
Variable dfns_format : jsdate -> jsstring -> result jsstring.
Variable now : jsdate.

Local Abbreviation parseDate' := (parseDate jsdate dfns_parse dfns_isValid dfns_format now).
Local Abbreviation normalizeA :=
  (normalizeWhobuilds CONSTR_MAPPING DETAIL_CONSTR_MAPPING REGION_MAPPING REGION_MAPPING2
     jsdate dfns_parse dfns_isValid dfns_format now).
Local Abbreviation normalizeB :=
  (normalizeNarajang CONSTR_MAPPING DETAIL_CONSTR_MAPPING REGION_MAPPING REGION_MAPPING2
     jsdate dfns_parse dfns_isValid dfns_format now).

Lemma normalizeWhobuilds_fields row p :
  normalizeA row = Ok p ->
  p !! F_originalConstr = Some (VStr (toString (js_or (get row (js "공종")) emptyText))) /\
  p !! F_basement = Some (numberOrEmpty (extractFloors (overviewOf row) Basement)) /\
  p !! F_ground = Some (numberOrEmpty (extractFloors (overviewOf row) Ground)) /\
  p !! F_completion = Some (textOrEmpty (parseDate' (completionTextOf row))) /\
  p !! F_registered = Some (textOrEmpty (parseDate' (get row (js "등록일")))) /\
  (exists a, extractArea (overviewOf row) BuiltArea = Ok a /\
             p !! F_builtArea = Some (textOrEmpty a)) /\
  (exists a, extractArea (overviewOf row) SiteArea = Ok a /\
             p !! F_siteArea = Some (textOrEmpty a)) /\
  (exists a, extractHouseholds (overviewOf row) = Ok a /\
             p !! F_households = Some (textOrEmpty a)) /\
  (exists a, extractAmount (overviewOf row) = Ok a /\
             p !! F_amount = Some (textOrEmpty a)).
Proof.
  unfold overviewOf, completionTextOf. intros H.
  cbv beta zeta delta [normalizeWhobuilds] in H.
  do 6 bind_inv H. apply Ok_inj in H as <-.
  repeat split; try (eexists; split; [reflexivity|]); by read_field.
Qed.

Lemma normalizeNarajang_fields row p :
  normalizeB row = Ok p ->
  p !! F_originalConstr = Some (VStr (toString (js_or (get row (js "공공조달분류")) emptyText))) /\
  p !! F_completion = Some (textOrEmpty (parseDate' (get row (js "총완수일자")))) /\
  p !! F_start = Some (textOrEmpty (parseDate' (get row (js "착수일자")))) /\
  p !! F_registered = Some (textOrEmpty (parseDate' (get row (js "기준일자")))) /\
  p !! F_firstContract = Some (textOrEmpty (parseDate' (get row (js "최초계약일자")))).
Proof.
  intros H. cbv beta zeta delta [normalizeNarajang] in H.
  do 3 bind_inv H. apply Ok_inj in H as <-.
  repeat split; by read_field.
Qed.

End NormalizedRecords.

(** ** The extractors never raise *)

Lemma orElse_Some {A} (a b : option A) res :
  orElse a b = Some res -> a = Some res \/ b = Some res.
Proof. destruct a; simpl; auto. Qed.

Lemma star_loop_passes m greedy n : passes m -> passes (star_loop m greedy n).
Proof.
  intros Hm. induction n as [|n IH]; intros s c k res H; simpl in H.
  - passed.
  - assert (Hcases : m s c (fun s1 c1 =>
                       if length s1 <? length s then star_loop m greedy n s1 c1 k else None)
                     = Some res \/ k s c = Some res).
    { destruct greedy; apply orElse_Some in H; tauto. }
    destruct Hcases as [Hagain|Hk]; [|passed].
    apply Hm in Hagain as (s1 & c1 & Hloop & Hc1).
    destruct (length s1 <? length s); [|done].
    apply IH in Hloop as (s2 & c2 & Hk & Hc2). passed.
Qed.

Lemma rep_loop_passes m lo hi : passes m -> passes (rep_loop m lo hi).
Proof.
  intros Hm. revert lo. induction hi as [|hi IH]; intros lo s c k res H; simpl in H.
  - destruct lo; [passed|done].
  - destruct lo as [|lo].
    + apply orElse_Some in H as [H|H]; [|passed].
      apply Hm in H as (s1 & c1 & Hloop & Hc1).
      apply IH in Hloop as (s2 & c2 & Hk & Hc2). passed.
    + apply Hm in H as (s1 & c1 & Hloop & Hc1).
      apply IH in Hloop as (s2 & c2 & Hk & Hc2). passed.
Qed.

Lemma rmatch_passes r : passes (rmatch r).
Proof.
  induction r as [|cls|l|r1 IH1 r2 IH2|r1 IH1|greedy r1 IH1|r1 IH1|lo hi r1 IH1|r1 IH1|r1 IH1];
    intros s c k res H; simpl in H.
  - passed.
  - destruct s as [|x s]; [done|]. destruct (cset_mem cls x); [passed|done].
  - destruct (startsWith l s); [passed|done].
  - apply IH1 in H as (s1 & c1 & H & Hc1). apply IH2 in H as (s2 & c2 & H & Hc2). passed.
  - apply orElse_Some in H as [H|H]; [|passed]. by apply IH1 in H.
  - by apply (star_loop_passes _ _ _ IH1) in H.
  - apply IH1 in H as (s1 & c1 & H & Hc1).
    apply (star_loop_passes _ _ _ IH1) in H as (s2 & c2 & H & Hc2). passed.
  - by apply (rep_loop_passes _ _ _ IH1) in H.
  - apply IH1 in H as (s1 & c1 & H & Hc1). passed.
  - destruct (rmatch r1 s c _); [done|passed].
Qed.

Lemma rmatch_captures r : setsGroup r = true -> captures (rmatch r).
Proof.
  induction r as [|cls|l|r1 IH1 r2 IH2|r1 IH1|greedy r1 IH1|r1 IH1|lo hi r1 IH1|r1 IH1|r1 IH1];
    simpl; intros Hset; try discriminate Hset; intros s c k res H; simpl in H.
  - apply orb_true_iff in Hset as [Hset|Hset].
    + apply (IH1 Hset) in H as (s1 & c1 & H & Hc1).
      apply rmatch_passes in H as (s2 & c2 & H & Hc2). passed.
    + apply rmatch_passes in H as (s1 & c1 & H & Hc1).
      apply (IH2 Hset) in H as (s2 & c2 & H & Hc2). passed.
  - apply rmatch_passes in H as (s1 & c1 & H & Hc1). passed.
Qed.

Lemma str_match_group r s m : setsGroup r = true -> str_match r s = Some m -> is_Some m.
Proof.
  intros Hset. unfold str_match. generalize 0.
  induction s as [|x s IH]; intros i; simpl.
  - destruct (rmatch r [] None _) as [c|] eqn:E; simpl; [|done].
    intros [= <-]. apply (rmatch_captures r Hset) in E as (s' & c' & [= <-] & Hc). done.
  - destruct (rmatch r (x :: s) None _) as [c|] eqn:E; simpl.
    + intros [= <-]. apply (rmatch_captures r Hset) in E as (s' & c' & [= <-] & Hc). done.
    + apply IH.
Qed.

Lemma extractArea_total text type : exists o, extractArea text type = Ok o.
Proof.
  unfold extractArea. destruct (str_match (areaPattern type) text) as [m|] eqn:E; [|eauto].
  apply str_match_group in E as [g ->]; [simpl; eauto|]. by destruct type.
Qed.

Lemma firstGroup_total patterns text :
  Forall (fun r => setsGroup r = true) patterns -> exists o, firstGroup patterns text = Ok o.
Proof.
  induction 1 as [|r rs Hr _ IH]; simpl; [eauto|].
  destruct (str_match r text) as [m|] eqn:E; [|done].
  apply str_match_group in E as [g ->]; [simpl; eauto|done].
Qed.

Lemma extractHouseholds_total text : exists o, extractHouseholds text = Ok o.
Proof. apply firstGroup_total. repeat constructor. Qed.

Lemma extractAmount_total text : exists o, extractAmount text = Ok o.
Proof. apply firstGroup_total. repeat constructor. Qed.

Lemma mapRegionWith_total entries v :
  textOrFalsy v -> exists r, mapRegionWith entries v = Ok r.
Proof.
  unfold mapRegionWith. intros [[a ->]|Hf].
  - destruct (truthy (VStr a)); simpl; [apply mapRegionLoop_total|eauto].
  - rewrite Hf. simpl. eauto.
Qed.

Lemma cleanProjectName_total v : textOrFalsy v -> exists r, cleanProjectName v = Ok r.
Proof.
  intros [[a ->]|Hf].
  - rewrite cleanProjectName_string. eauto.
  - unfold cleanProjectName. rewrite Hf. simpl. destruct v; eauto.
Qed.

Lemma mapR_length {A B} (f : A -> result B) l l' : mapR f l = Ok l' -> length l' = length l.
Proof.
  revert l'. induction l as [|a l IH]; intros l'; simpl.
  - by intros [= <-].
  - destruct (f a); simpl; [|done]. destruct (mapR f l) as [bs|]; simpl; [|done].
    intros [= <-]. simpl. f_equal. by apply IH.
Qed.

Lemma mapR_Forall {A B} (f : A -> result B) (P : B -> Prop) l l' :
  (forall a b, f a = Ok b -> P b) -> mapR f l = Ok l' -> Forall P l'.
Proof.
  intros Hf. revert l'. induction l as [|a l IH]; intros l'; simpl.
  - intros [= <-]. constructor.
  - destruct (f a) as [b|] eqn:Hb; simpl; [|done].
    destruct (mapR f l) as [bs|]; simpl; [|done].
    intros [= <-]. constructor; eauto.
Qed.

Lemma filterR_Forall {A} (f : A -> result bool) (P : A -> Prop) l l' :
  filterR f l = Ok l' -> Forall P l -> Forall P l'.
Proof.
  intros Hl HP. apply Forall_forall. intros x Hx.
  apply (filterR_elem _ _ _ _ Hl) in Hx as [Hx _].
  by apply (proj1 (Forall_forall P l) HP).
Qed.

Lemma filter_Forall {A} (f : A -> bool) (P : A -> Prop) l :
  Forall P l -> Forall P (List.filter f l).
Proof.
  intros HP. apply Forall_forall. intros x Hx.
  apply list_elem_of_In, filter_In in Hx as [Hx _].
  apply (proj1 (Forall_forall P l) HP). by apply list_elem_of_In.
Qed.

(** ** The pipeline as a whole *)

Section PipelineProperties.

Variable CONSTR_MAPPING DETAIL_CONSTR_MAPPING : obj.
Variable REGION_MAPPING REGION_MAPPING2 : list (jsstring * number).
Variable toLowerCase : jsstring -> jsstring.
Variable jsdate : Type.
Variable dfns_parse : jsstring -> jsstring -> jsdate -> result jsdate.
Variable dfns_isValid : jsdate -> bool.
Variable dfns_format : jsdate -> jsstring -> result jsstring.
Variable dfns_addDays : jsdate -> number -> jsdate.
Variable now : jsdate.
Variable config : PipelineConfig jsdate.

Local Abbreviation tryFormat' := (tryFormat jsdate dfns_parse dfns_isValid dfns_format now).
Local Abbreviation parseDate' := (parseDate jsdate dfns_parse dfns_isValid dfns_format now).
Local Abbreviation normalizeA :=
  (normalizeWhobuilds CONSTR_MAPPING DETAIL_CONSTR_MAPPING REGION_MAPPING REGION_MAPPING2
     jsdate dfns_parse dfns_isValid dfns_format now).
Local Abbreviation normalizeB :=
  (normalizeNarajang CONSTR_MAPPING DETAIL_CONSTR_MAPPING REGION_MAPPING REGION_MAPPING2
     jsdate dfns_parse dfns_isValid dfns_format now).
Local Abbreviation run :=
  (runPipeline CONSTR_MAPPING DETAIL_CONSTR_MAPPING REGION_MAPPING REGION_MAPPING2
     toLowerCase jsdate dfns_parse dfns_isValid dfns_format dfns_addDays now config).

Lemma parseDateLoop_none str formats :
  (forall f out, f ∈ formats -> tryFormat' str f <> Ok (Some out)) ->
  parseDateLoop jsdate dfns_parse dfns_isValid dfns_format now str formats = None.
Proof.
  induction formats as [|f fs IH]; intros H; simpl; [done|].
  assert (Hfs : forall f' out, f' ∈ fs -> tryFormat' str f' <> Ok (Some out)).
  { intros f' out Hf'. apply H. apply elem_of_cons. by right. }
  destruct (tryFormat' str f) as [[out|]|e] eqn:E; auto.
  exfalso. apply (H f out); [apply elem_of_cons; by left|done].
Qed.

Lemma normalizeA_total row :
  textOrFalsy (get row (js "주소")) -> exists p, normalizeA row = Ok p.
Proof.
  intros Haddr. cbv beta zeta delta [normalizeWhobuilds].
  destruct (mapRegionWith_total REGION_MAPPING _ Haddr) as [r1 H1].
  destruct (mapRegionWith_total REGION_MAPPING2 _ Haddr) as [r2 H2].
  unfold mapRegion, mapRegion2. rewrite H1, H2.
  change (bind (Ok r1) ?k) with (k r1). cbv beta.
  change (bind (Ok r2) ?k) with (k r2). cbv beta.
  fold (overviewOf row).
  destruct (extractArea_total (overviewOf row) BuiltArea) as [a1 ->].
  change (bind (Ok a1) ?k) with (k a1). cbv beta.
  destruct (extractHouseholds_total (overviewOf row)) as [a2 ->].
  change (bind (Ok a2) ?k) with (k a2). cbv beta.
  destruct (extractAmount_total (overviewOf row)) as [a3 ->].
  change (bind (Ok a3) ?k) with (k a3). cbv beta.
  destruct (extractArea_total (overviewOf row) SiteArea) as [a4 ->].
  change (bind (Ok a4) ?k) with (k a4). cbv beta.
  eauto.
Qed.

Lemma normalizeB_total row :
  textOrFalsy (get row (js "현장지역")) -> textOrFalsy (get row (js "계약명")) ->
  exists p, normalizeB row = Ok p.
Proof.
  intros Haddr Hname. cbv beta zeta delta [normalizeNarajang].
  destruct (mapRegionWith_total REGION_MAPPING _ Haddr) as [r1 H1].
  destruct (mapRegionWith_total REGION_MAPPING2 _ Haddr) as [r2 H2].
  unfold mapRegion, mapRegion2. rewrite H1, H2.
  change (bind (Ok r1) ?k) with (k r1). cbv beta.
  change (bind (Ok r2) ?k) with (k r2). cbv beta.
  destruct (cleanProjectName_total _ Hname) as [r3 ->].
  change (bind (Ok r3) ?k) with (k r3). cbv beta.
  eauto.
Qed.

Lemma textOrEmpty_text o : exists s, textOrEmpty o = VStr s.
Proof.
  destruct o as [s|]; [|by exists []].
  unfold textOrEmpty, js_or. simpl. destruct (negb (str_eqb s [])); eauto.
Qed.

Lemma passed_date_check (cutoff : jsstring) (p : obj) :
  (exists s, p !! F_completion = Some (VStr s)) ->
  truthy (dateCheck cutoff p) = true ->
  completesOnOrAfter cutoff p.
Proof.
  intros [s Hs] Ht. exists s. split; [done|].
  rewrite (dateCheck_string cutoff p s) in Ht by (unfold get; by rewrite Hs).
  apply andb_prop in Ht as [Hne Hlt]. split.
  - intros ->. done.
  - by destruct (str_ltb s cutoff).
Qed.

Lemma whobuilds_kept_date (cutoff : jsstring) (p : obj) :
  whobuildsPredicate toLowerCase config cutoff p = Ok true -> truthy (dateCheck cutoff p) = true.
Proof.
  unfold whobuildsPredicate. destruct (containsExcludedKeyword _ _ _); simpl; [|done].
  intros [= H]. destruct (truthy (dateCheck cutoff p)); [done|].
  by rewrite andb_false_r in H.
Qed.

Lemma narajang_kept_date (cutoff : jsstring) (p : obj) :
  narajangPredicate toLowerCase config cutoff p = Ok true -> truthy (dateCheck cutoff p) = true.
Proof.
  unfold narajangPredicate. destruct (containsExcludedKeyword _ _ _); simpl; [|done].
  intros [= H]. destruct (truthy (dateCheck cutoff p)); [done|].
  by rewrite andb_false_r in H.
Qed.

Lemma renumber_keeps_date (cutoff : jsstring) (i : nat) (p : obj) :
  completesOnOrAfter cutoff p -> completesOnOrAfter cutoff (renumber i p).
Proof.
  intros (s & Hs & H). exists s. split; [|done].
  rewrite renumber_insert. by rewrite lookup_insert_ne by field_ne.
Qed.

(** C4.  On a normalized record, whose completion date is a string, both
    per-source predicates reject the record when that date is emptyText or
    lexically below the cutoff, so no filter pass keeps it; when the date
    equals the cutoff or is lexically above it, the date check passes and
    the predicate is the conjunction of the source's other checks.  A run
    formats the cutoff once, from today plus the offset, and every record
    it returns in [resultDf] or [duplicates] has a non-empty completion
    date that is not below that cutoff. *)
Theorem C4_completion_cutoff :
  (forall (cutoff : jsstring) (p : obj) (s : jsstring),
     get p F_completion = VStr s ->
     (s = [] \/ str_ltb s cutoff = true ->
        (forall b, whobuildsPredicate toLowerCase config cutoff p = Ok b -> b = false) /\
        (forall b, narajangPredicate toLowerCase config cutoff p = Ok b -> b = false) /\
        (forall l l', filterR (whobuildsPredicate toLowerCase config cutoff) l = Ok l' ->
                      p ∉ l') /\
        (forall l l', filterR (narajangPredicate toLowerCase config cutoff) l = Ok l' ->
                      p ∉ l')) /\
     (cutoff <> [] -> s = cutoff \/ str_ltb cutoff s = true ->
        truthy (dateCheck cutoff p) = true /\
        forall excluded,
          containsExcludedKeyword toLowerCase (get p F_name) (excludedKeywords config)
            = Ok excluded ->
          whobuildsPredicate toLowerCase config cutoff p
            = Ok (negb (includes (toString (get p F_agency)) (js "방위사업청"))
                  && constrCheck config p && negb excluded) /\
          narajangPredicate toLowerCase config cutoff p
            = Ok (js_ge (VNum (toNumber (get p F_amount))) (VNum (minContractAmount config))
                  && constrCheck config p && negb excluded))) /\
  (forall whobuildsFiles narajangFile masterFile r,
     run whobuildsFiles narajangFile masterFile = Ok r ->
     exists cutoff,
       dfns_format (dfns_addDays (today config) (completionOffsetDays config))
                   (js "yyyy-MM-dd") = Ok cutoff /\
       Forall (completesOnOrAfter cutoff) (resultDf r) /\
       Forall (completesOnOrAfter cutoff) (duplicates r)).
Proof.
  split; [intros cutoff p s; apply completion_cutoff_predicates|].
  intros whobuildsFiles narajangFile masterFile r H.
  cbv beta zeta delta [runPipeline] in H.
  bind_inv_as H cutoff Hcut. exists cutoff. split; [done|].
  bind_inv_as H normalizedA HnA.
  bind_inv_as H processedA HfA.
  bind_inv_as H processedB HB.
  rewrite deduplicate_filter in H. cbv beta iota in H.
  bind_inv H. apply Ok_inj in H as <-. cbn [resultDf duplicates].
  assert (HA' : Forall (completesOnOrAfter cutoff) processedA).
  { apply Forall_forall. intros p Hp.
    destruct (filterR_elem _ _ _ _ HfA Hp) as [Hin Hkept].
    apply passed_date_check; [|by apply whobuilds_kept_date].
    assert (Hshape : Forall (fun p : obj => exists s, p !! F_completion = Some (VStr s))
                            normalizedA).
    { eapply mapR_Forall; [|exact HnA]. intros row q Hq.
      destruct (normalizeWhobuilds_fields _ _ _ _ _ _ _ _ _ _ _ Hq) as (_ & _ & _ & Hc & _).
      destruct (textOrEmpty_text (parseDate' (completionTextOf row))) as [s Hs].
      exists s. by rewrite Hc, Hs. }
    by apply (proj1 (Forall_forall _ _) Hshape). }
  assert (HB' : Forall (completesOnOrAfter cutoff) processedB).
  { destruct narajangFile as [raw|]; [|apply Ok_inj in HB as <-; constructor].
    bind_inv_as HB normalizedB HnB.
    apply Forall_forall. intros p Hp.
    destruct (filterR_elem _ _ _ _ HB Hp) as [Hin Hkept].
    apply passed_date_check; [|by apply narajang_kept_date].
    assert (Hshape : Forall (fun p : obj => exists s, p !! F_completion = Some (VStr s))
                            normalizedB).
    { eapply mapR_Forall; [|exact HnB]. intros row q Hq.
      destruct (normalizeNarajang_fields _ _ _ _ _ _ _ _ _ _ _ Hq) as (_ & Hc & _).
      destruct (textOrEmpty_text (parseDate' (get row (js "총완수일자")))) as [s Hs].
      exists s. by rewrite Hc, Hs. }
    by apply (proj1 (Forall_forall _ _) Hshape). }
  assert (Hmerged : Forall (completesOnOrAfter cutoff)
                      (List.filter mergedPredicate (processedA ++ processedB))).
  { apply filter_Forall, Forall_app. done. }
  split.
  - unfold numberResult. apply Forall_forall. intros p Hp.
    apply elem_of_lookup_imap in Hp as (i & q & -> & Hq).
    apply renumber_keeps_date.
    eapply (proj1 (Forall_forall _ _)); [by apply filter_Forall, Hmerged|].
    by eapply list_elem_of_lookup_2.
  - by apply filter_Forall.
Qed.

(** C10.  When the floor extractor returns 0 on a Source-A row's overview,
    the basement (above-ground) floor field of the normalized record is
    the empty string, exactly as when the extractor finds nothing; any
    other count is stored as the number itself. *)
Theorem C10_zero_floor_reads_empty (row p : obj) :
  normalizeA row = Ok p ->
  (extractFloors (overviewOf row) Basement = Some (Fin 0) -> p !! F_basement = Some emptyText) /\
  (extractFloors (overviewOf row) Ground = Some (Fin 0) -> p !! F_ground = Some emptyText) /\
  (extractFloors (overviewOf row) Basement = None -> p !! F_basement = Some emptyText) /\
  (extractFloors (overviewOf row) Ground = None -> p !! F_ground = Some emptyText) /\
  (forall n, n <> 0%Z -> extractFloors (overviewOf row) Basement = Some (Fin n) ->
             p !! F_basement = Some (VNum (Fin n))) /\
  (forall n, n <> 0%Z -> extractFloors (overviewOf row) Ground = Some (Fin n) ->
             p !! F_ground = Some (VNum (Fin n))) /\
  extractFloors (js "지하 0") Basement = Some (Fin 0) /\
  extractFloors (js "지상 0") Ground = Some (Fin 0).
Proof.
  intros H.
  destruct (normalizeWhobuilds_fields _ _ _ _ _ _ _ _ _ _ _ H) as (_ & Hb & Hg & _).
  rewrite Hb, Hg. repeat split; try (intros ->; reflexivity).
  - intros n Hn ->. unfold numberOrEmpty, js_or. simpl.
    by destruct (Z.eqb_spec n 0).
  - intros n Hn ->. unfold numberOrEmpty, js_or. simpl.
    by destruct (Z.eqb_spec n 0).
Qed.

(** C9, as the code has it.  No extractor raises: each returns, with null
    on the empty input and whenever nothing can be extracted, and the date
    parser returns null even where the date library raises.  The
    normalizers store the empty string for a null and produce one record
    per row; on a row whose address (and, for Source B, contract name) is
    text or missing they return.  So no record is lost at normalization.
    A record whose completion date fails to extract is rejected afterwards
    by its source's eligibility predicate. *)
Theorem C9_extraction_failure_is_not_an_error :
  ((forall text type, exists o, extractArea text type = Ok o) /\
   (forall text, exists o, extractHouseholds text = Ok o) /\
   (forall text, exists o, extractAmount text = Ok o)) /\
  ((forall type, extractArea [] type = Ok None) /\
   (forall type, extractFloors [] type = None) /\
   extractHouseholds [] = Ok None /\
   extractAmount [] = Ok None /\
   parseDate' (VStr []) = None /\
   (forall s, (forall f out, f ∈ dateFormats -> tryFormat' (trim s) f <> Ok (Some out)) ->
              parseDate' (VStr s) = None)) /\
  (textOrEmpty None = emptyText /\ numberOrEmpty None = emptyText) /\
  ((forall rows ps, mapR normalizeA rows = Ok ps -> length ps = length rows) /\
   (forall rows ps, mapR normalizeB rows = Ok ps -> length ps = length rows) /\
   (forall row, textOrFalsy (get row (js "주소")) -> exists p, normalizeA row = Ok p) /\
   (forall row, textOrFalsy (get row (js "현장지역")) -> textOrFalsy (get row (js "계약명")) ->
                exists p, normalizeB row = Ok p)) /\
  (forall row p, normalizeA row = Ok p ->
     (extractArea (overviewOf row) BuiltArea = Ok None -> p !! F_builtArea = Some emptyText) /\
     (extractArea (overviewOf row) SiteArea = Ok None -> p !! F_siteArea = Some emptyText) /\
     (extractFloors (overviewOf row) Basement = None -> p !! F_basement = Some emptyText) /\
     (extractFloors (overviewOf row) Ground = None -> p !! F_ground = Some emptyText) /\
     (extractHouseholds (overviewOf row) = Ok None -> p !! F_households = Some emptyText) /\
     (extractAmount (overviewOf row) = Ok None -> p !! F_amount = Some emptyText) /\
     (parseDate' (get row (js "등록일")) = None -> p !! F_registered = Some emptyText) /\
     (parseDate' (completionTextOf row) = None -> p !! F_completion = Some emptyText)) /\
  (forall cutoff row p b,
     normalizeA row = Ok p -> parseDate' (completionTextOf row) = None ->
     whobuildsPredicate toLowerCase config cutoff p = Ok b -> b = false) /\
  (forall cutoff row p b,
     normalizeB row = Ok p -> parseDate' (get row (js "총완수일자")) = None ->
     narajangPredicate toLowerCase config cutoff p = Ok b -> b = false).
Proof.
  split; [|split; [|split; [|split; [|split; [|split]]]]].
  - split; [apply extractArea_total|].
    split; [apply extractHouseholds_total|apply extractAmount_total].
  - repeat split; try (by intros []).
    intros s Hall. unfold parseDate. destruct (negb (truthy (VStr s))); [done|].
    by apply parseDateLoop_none.
  - done.
  - split; [intros rows ps; apply mapR_length|].
    split; [intros rows ps; apply mapR_length|].
    split; [apply normalizeA_total|apply normalizeB_total].
  - intros row p H.
    destruct (normalizeWhobuilds_fields _ _ _ _ _ _ _ _ _ _ _ H)
      as (_ & Hb & Hg & Hc & Hr & (a1 & E1 & H1) & (a2 & E2 & H2)
          & (a3 & E3 & H3) & (a4 & E4 & H4)).
    rewrite Hb, Hg, Hc, Hr, H1, H2, H3, H4, E1, E2, E3, E4.
    repeat split; try (intros ->; reflexivity); by intros [= ->].
  - intros cutoff row p b H Hnone.
    destruct (normalizeWhobuilds_fields _ _ _ _ _ _ _ _ _ _ _ H) as (_ & _ & _ & Hc & _).
    rewrite Hnone in Hc.
    apply (completion_rejected toLowerCase jsdate config cutoff p []); [|by left].
    unfold get. by rewrite Hc.
  - intros cutoff row p b H Hnone.
    destruct (normalizeNarajang_fields _ _ _ _ _ _ _ _ _ _ _ H) as (_ & Hc & _).
    rewrite Hnone in Hc.
    apply (completion_rejected toLowerCase jsdate config cutoff p []); [|by left].
    unfold get. by rewrite Hc.
Qed.

Lemma renumber_keeps_type i p : carriesOriginalType p -> carriesOriginalType (renumber i p).
Proof.
  intros [t Ht]. exists t. rewrite renumber_insert.
  rewrite lookup_insert_ne by field_ne. done.
Qed.

Lemma renumberMaster_other i p k : k <> F_No -> renumberMaster i p !! k = p !! k.
Proof. intros Hk. rewrite renumberMaster_insert. by rewrite lookup_insert_ne. Qed.

(** C1, as the code has it.  When a run returns, every record of
    [resultDf], and every record of [updatedMaster] past the master's own,
    still carries the original type label the normalizer attached; the
    master's records carry the field exactly when they did on input. *)
Theorem C1_original_type_is_exported
    (whobuildsFiles : list (list obj)) (narajangFile masterFile : option (list obj))
    (r : PipelineResult) :
  run whobuildsFiles narajangFile masterFile = Ok r ->
  Forall carriesOriginalType (resultDf r) /\
  Forall carriesOriginalType (drop (length (default [] masterFile)) (updatedMaster r)) /\
  take (length (default [] masterFile))
       ((fun p : obj => p !! F_originalConstr) <$> updatedMaster r)
    = (fun p : obj => p !! F_originalConstr) <$> default [] masterFile.
Proof.
  intros H. cbv beta zeta delta [runPipeline] in H.
  bind_inv_as H cutoff Hcut.
  bind_inv_as H normalizedA HnA.
  bind_inv_as H processedA HfA.
  bind_inv_as H processedB HB.
  set (M := default [] masterFile) in *.
  rewrite deduplicate_filter in H. cbv beta iota in H.
  bind_inv H. apply Ok_inj in H as <-. cbn [resultDf updatedMaster].
  assert (HA' : Forall carriesOriginalType processedA).
  { apply (filterR_Forall _ _ _ _ HfA). eapply mapR_Forall; [|exact HnA].
    intros row p Hp. eexists.
    apply (normalizeWhobuilds_fields _ _ _ _ _ _ _ _ _ _ _ Hp). }
  assert (HB' : Forall carriesOriginalType processedB).
  { destruct narajangFile as [raw|]; [|apply Ok_inj in HB as <-; constructor].
    bind_inv_as HB normalizedB HnB.
    apply (filterR_Forall _ _ _ _ HB). eapply mapR_Forall; [|exact HnB].
    intros row p Hp. eexists.
    apply (normalizeNarajang_fields _ _ _ _ _ _ _ _ _ _ _ Hp). }
  set (U := List.filter _ (List.filter mergedPredicate _)).
  assert (HU : Forall carriesOriginalType U).
  { apply filter_Forall, filter_Forall, Forall_app. done. }
  split; [|split].
  - unfold numberResult. apply Forall_forall. intros p Hp.
    apply elem_of_lookup_imap in Hp as (i & q & -> & Hq).
    apply renumber_keeps_type. apply (proj1 (Forall_forall _ U) HU).
    by eapply list_elem_of_lookup_2.
  - unfold mergeMaster. rewrite imap_app, drop_app_length'; [|by rewrite length_imap].
    apply Forall_forall. intros p Hp.
    apply elem_of_lookup_imap in Hp as (i & q & -> & Hq).
    destruct (proj1 (Forall_forall _ U) HU q) as [t Ht]; [by eapply list_elem_of_lookup_2|].
    exists t. rewrite renumberMaster_other by field_ne. done.
  - unfold mergeMaster. rewrite imap_app, fmap_app, take_app_length'.
    2: { by rewrite length_fmap, length_imap. }
    rewrite fmap_imap, <- (imap_const (fun p : obj => p !! F_originalConstr)).
    apply imap_ext. intros i p _. simpl. apply renumberMaster_other. field_ne.
Qed.

End PipelineProperties.

(** * Instances and counterexamples *)

Lemma returns_Throw {A} (m : result A) e : returns m = true -> m <> Throw e.
Proof. by intros H ->. Qed.

(** C1: a run on one Source-A row returns a record in [resultDf] and one in
    [updatedMaster] that carry the original type label "건축". *)
Lemma C1_counterexample :
  observe (fun r => (originalTypes (resultDf r), originalTypes (updatedMaster r)))
          (samplePipeline [[sampleRowA "2099.12.31"]] None None)
  = Ok ([Some (VStr (js "건축"))], [Some (VStr (js "건축"))]).
Proof. vm_compute. reflexivity. Qed.

Lemma C1_original_type_is_exported_witness :
  observe (fun r => length (resultDf r)) (samplePipeline [[sampleRowA "2099.12.31"]] None None)
    = Ok 1 /\
  match samplePipeline [[sampleRowA "2099.12.31"]] None None with
  | Ok r => Forall carriesOriginalType (resultDf r)
  | Throw _ => False
  end.
Proof.
  split; [vm_compute; reflexivity|].
  destruct (samplePipeline [[sampleRowA "2099.12.31"]] None None) as [r|e] eqn:Hr.
  - exact (proj1 (C1_original_type_is_exported sampleConstr sampleDetail sampleRegion
                    sampleRegion2 asciiLower (option Z) sampleParse sampleIsValid sampleFormat
                    sampleAddDays sampleNow sampleConfig
                    [[sampleRowA "2099.12.31"]] None None r Hr)).
  - apply (returns_Throw _ e) in Hr; [done|]. vm_compute. reflexivity.
Defined.

(** C2: the master's contractor cell holds the number 0 and the new record
    has no contractor.  As text the two components are "0" and the empty
    string, so no master record agrees with the new one in the
    specification's reading; the code reads both as the empty string and
    files the record under [duplicates]. *)
Lemma C2_counterexample :
  (deduplicate [sampleMasterRecord] [sampleNewRecord]).1 = [sampleNewRecord] /\
  ~ (exists m, m ∈ [sampleMasterRecord] /\ agreeOnKey claimedKeyText sampleNewRecord m).
Proof.
  split; [vm_compute; reflexivity|].
  intros (m & Hm & Hagree). apply list_elem_of_singleton in Hm as ->.
  assert (Hin : F_contractor ∈ keyCols) by (unfold keyCols; set_solver).
  specialize (Hagree F_contractor Hin). vm_compute in Hagree. discriminate Hagree.
Qed.

Lemma C2_dedup_partition_witness :
  sampleNewRecord ∈ (deduplicate [sampleMasterRecord] [sampleNewRecord]).1.
Proof.
  destruct (C2_dedup_partition [sampleMasterRecord] [sampleNewRecord])
    as (_ & _ & _ & _ & _ & _ & Hiff).
  apply (Hiff sampleNewRecord); [by left|].
  exists sampleMasterRecord. split; [by left|].
  intros key Hkey. unfold keyCols in Hkey.
  repeat (apply elem_of_cons in Hkey as [->|Hkey]; [vm_compute; reflexivity|]).
  by apply not_elem_of_nil in Hkey.
Defined.

(** C4: the cutoff of the sample configuration is 2024-07-01.  A record
    completed that very day passes the date check; one completed the day
    before is rejected. *)
Lemma C4_completion_cutoff_witness :
  truthy (dateCheck (js "2024-07-01") (sampleRecord "2024-07-01")) = true /\
  (forall b, whobuildsPredicate asciiLower sampleConfig (js "2024-07-01")
               (sampleRecord "2024-06-30") = Ok b -> b = false) /\
  match samplePipeline [[sampleRowA "2099.12.31"]] None None with
  | Ok r => Forall (completesOnOrAfter (js "2024-07-01")) (resultDf r)
  | Throw _ => False
  end.
Proof.
  pose proof (C4_completion_cutoff sampleConstr sampleDetail sampleRegion sampleRegion2
                asciiLower (option Z) sampleParse sampleIsValid sampleFormat sampleAddDays
                sampleNow sampleConfig) as [Hpred Hrun].
  split; [|split].
  - refine (proj1 (proj2 (Hpred (js "2024-07-01") (sampleRecord "2024-07-01")
                            (js "2024-07-01") _) _ _)).
    + vm_compute. reflexivity.
    + vm_compute. discriminate.
    + by left.
  - refine (proj1 (proj1 (Hpred (js "2024-07-01") (sampleRecord "2024-06-30")
                            (js "2024-06-30") _) _)).
    + vm_compute. reflexivity.
    + right. vm_compute. reflexivity.
  - destruct (samplePipeline [[sampleRowA "2099.12.31"]] None None) as [r|e] eqn:Hr.
    + destruct (Hrun [[sampleRowA "2099.12.31"]] None None r Hr) as (cutoff & Hcut & Hres & _).
      vm_compute in Hcut. apply Ok_inj in Hcut as <-. exact Hres.
    + apply (returns_Throw _ e) in Hr; [done|]. vm_compute. reflexivity.
Defined.

(** C5: two overlapping region names; the first entry wins although the
    second, longer one also occurs. *)
Lemma C5_region_first_match_witness :
  mapRegion [(js "서울", Fin 11); (js "서울특별시", Fin 99)] (VStr (js "서울특별시 강남구"))
  = Ok (VNum (Fin 11)).
Proof.
  refine (proj1 (proj2 (C5_region_first_match
            [(js "서울", Fin 11); (js "서울특별시", Fin 99)] (js "서울특별시 강남구") _
            (or_introl eq_refl)))
          [] (js "서울") (Fin 11) [(js "서울특별시", Fin 99)] _ _ _ _).
  - vm_compute. discriminate.
  - reflexivity.
  - apply includes_occurs. vm_compute. reflexivity.
  - constructor.
Defined.

(** C6: four units precede the opening bracket, three once trimmed.  The
    rule as worded leaves the name alone; the code strips the bracket. *)
Lemma C6_counterexample :
  cleanProjectName (VStr (js "Lot [A] Tower")) = Ok (VStr (js "Tower")) /\
  cleanAsClaimed (js "Lot [A] Tower") = js "Lot [A] Tower" /\
  cleanProjectName (VStr (js "Lot [A] Tower"))
    <> Ok (VStr (cleanAsClaimed (js "Lot [A] Tower"))).
Proof.
  split; [vm_compute; reflexivity|]. split; [vm_compute; reflexivity|].
  vm_compute. discriminate.
Qed.

Lemma C6_name_cleaner_witness :
  cleanProjectName (VStr (js "[A]")) = Ok (VStr (js "[A]")).
Proof.
  apply (proj1 (proj2 (C6_name_cleaner (js "[A]")))). vm_compute. lia.
Defined.

(** C7: filtering a kept and a rejected record, then filtering again. *)
Lemma C7_filters_idempotent_witness :
  filterR (whobuildsPredicate asciiLower sampleConfig (js "2024-07-01"))
    [sampleRecord "2024-07-01"] = Ok [sampleRecord "2024-07-01"].
Proof.
  apply (proj1 (C7_filters_idempotent asciiLower _ sampleConfig (js "2024-07-01"))
           [sampleRecord "2024-07-01"; sampleRecord "2024-06-30"]).
  vm_compute. reflexivity.
Defined.

(** C8: 1050 records in chunks of 500. *)
Lemma C8_export_chunks_witness :
  exists chunks,
    exportChunks (replicate 1050 ∅) (Fin 500) = Some chunks /\
    length <$> chunks = [500; 500; 50].
Proof.
  destruct (C8_export_chunks (replicate 1050 ∅) 500 ltac:(lia))
    as (chunks & Hc & _ & _ & _ & _ & Hex).
  exists chunks. split; [exact Hc|]. apply Hex; [vm_compute; reflexivity|reflexivity].
Defined.

(** C9: two Source-A rows that differ only in the completion-date text.
    The date of the first parses and its record reaches [resultDf]; the
    date of the second does not parse and its record is in no output:
    it was dropped for no other reason than the failed extraction. *)
Lemma C9_counterexample :
  sampleParseDate (VStr (js "2099.12.31")) = Some (js "2099-12-31") /\
  sampleParseDate (VStr (js "미정")) = None /\
  observe (fun r => length (resultDf r))
          (samplePipeline [[sampleRowA "2099.12.31"]] None None) = Ok 1 /\
  observe (fun r => (resultDf r, duplicates r, updatedMaster r))
          (samplePipeline [[sampleRowA "미정"]] None None) = Ok ([], [], []).
Proof. repeat split; vm_compute; reflexivity. Qed.

Lemma C9_extraction_failure_is_not_an_error_witness :
  match sampleNormalizeA (sampleRowA "미정") with
  | Ok p => forall b, whobuildsPredicate asciiLower sampleConfig (js "2024-07-01") p = Ok b ->
                      b = false
  | Throw _ => False
  end.
Proof.
  destruct (sampleNormalizeA (sampleRowA "미정")) as [p|e] eqn:Hp.
  - intros b Hb.
    refine (proj1 (proj2 (proj2 (proj2 (proj2 (proj2
              (C9_extraction_failure_is_not_an_error sampleConstr sampleDetail sampleRegion
                 sampleRegion2 asciiLower (option Z) sampleParse sampleIsValid sampleFormat
                 sampleNow sampleConfig))))))
              (js "2024-07-01") (sampleRowA "미정") p b Hp _ Hb).
    vm_compute. reflexivity.
  - apply (returns_Throw _ e) in Hp; [done|]. vm_compute. reflexivity.
Defined.

(** C10: an overview that states zero basement floors. *)
Lemma C10_zero_floor_reads_empty_witness :
  match sampleNormalizeA sampleRowZeroFloor with
  | Ok p => p !! F_basement = Some emptyText /\ p !! F_ground = Some (VNum (Fin 15))
  | Throw _ => False
  end.
Proof.
  destruct (sampleNormalizeA sampleRowZeroFloor) as [p|e] eqn:Hp.
  - destruct (C10_zero_floor_reads_empty sampleConstr sampleDetail sampleRegion sampleRegion2
                (option Z) sampleParse sampleIsValid sampleFormat sampleNow
                sampleRowZeroFloor p Hp) as (Hb & _ & _ & _ & _ & Hg & _).
    split; [apply Hb; vm_compute; reflexivity|apply Hg; [lia|vm_compute; reflexivity]].
  - apply (returns_Throw _ e) in Hp; [done|]. vm_compute. reflexivity.
Defined.

(** * Further properties *)

(** ** The matcher only finds words of the pattern *)

Lemma later_assoc c o1 o2 : later (later c o1) o2 = later c (later o1 o2).
Proof. by destruct o2. Qed.

Lemma star_loop_sound greedy r m n :
  sound r m -> sound (RStar greedy r) (star_loop m greedy n).
Proof.
  intros Hm. induction n as [|n IH]; intros s c k res H; simpl in H.
  - exists [], s, None. split; [done|]. split; [constructor|done].
  - assert (Hcases : m s c (fun s1 c1 =>
                       if length s1 <? length s then star_loop m greedy n s1 c1 k else None)
                     = Some res \/ k s c = Some res).
    { destruct greedy; apply orElse_Some in H; tauto. }
    destruct Hcases as [Hagain|Hk].
    + apply Hm in Hagain as (w1 & s1 & o1 & -> & Hw1 & Hloop).
      destruct (length s1 <? length (w1 ++ s1)); [|done].
      apply IH in Hloop as (w2 & s2 & o2 & -> & Hw2 & Hk).
      exists (w1 ++ w2), s2, (later o1 o2). rewrite <- app_assoc, <- later_assoc.
      split; [done|]. split; [by constructor|done].
    + exists [], s, None. split; [done|]. split; [constructor|done].
Qed.

Lemma rep_loop_sound r m lo hi :
  sound r m -> sound (RRep lo hi r) (rep_loop m lo hi).
Proof.
  intros Hm. revert lo. induction hi as [|hi IH]; intros lo s c k res H; simpl in H.
  - destruct lo; [|done]. exists [], s, None. split; [done|]. split; [constructor|done].
  - assert (Hcases : m s c (fun s1 c1 => rep_loop m (pred lo) hi s1 c1 k) = Some res
                     \/ (lo = 0 /\ k s c = Some res)).
    { destruct lo as [|lo]; simpl; [|by left].
      apply orElse_Some in H as [H|H]; [by left|by right]. }
    destruct Hcases as [Hmore|[-> Hk]].
    + apply Hm in Hmore as (w1 & s1 & o1 & -> & Hw1 & Hloop).
      apply IH in Hloop as (w2 & s2 & o2 & -> & Hw2 & Hk).
      exists (w1 ++ w2), s2, (later o1 o2). rewrite <- app_assoc, <- later_assoc.
      split; [done|]. split; [by constructor|done].
    + exists [], s, None. split; [done|]. split; [constructor|done].
Qed.

Lemma rmatch_sound r : sound r (rmatch r).
Proof.
  induction r as [|cls|l|r1 IH1 r2 IH2|r1 IH1|greedy r1 IH1|r1 IH1|lo hi r1 IH1|r1 IH1|r1 IH1];
    intros s c k res H; simpl in H.
  - exists [], s, None. split; [done|]. split; [constructor|done].
  - destruct s as [|x s]; [done|]. destruct (cset_mem cls x) eqn:Hx; [|done].
    exists [x], s, None. split; [done|]. split; [by constructor|done].
  - destruct (startsWith l s) eqn:Hl; [|done].
    apply startsWith_inv in Hl as [v ->]. rewrite drop_app_length in H.
    exists l, v, None. split; [done|]. split; [constructor|done].
  - apply IH1 in H as (w1 & s1 & o1 & -> & Hw1 & H).
    apply IH2 in H as (w2 & s2 & o2 & -> & Hw2 & H).
    exists (w1 ++ w2), s2, (later o1 o2). rewrite <- app_assoc, <- later_assoc.
    split; [done|]. split; [by constructor|done].
  - apply orElse_Some in H as [H|H].
    + apply IH1 in H as (w1 & s1 & o1 & -> & Hw1 & H).
      exists w1, s1, o1. split; [done|]. split; [by constructor|done].
    + exists [], s, None. split; [done|]. split; [constructor|done].
  - by apply (star_loop_sound greedy r1 _ _ IH1) in H.
  - apply IH1 in H as (w1 & s1 & o1 & -> & Hw1 & H).
    apply (star_loop_sound true r1 _ _ IH1) in H as (w2 & s2 & o2 & -> & Hw2 & H).
    exists (w1 ++ w2), s2, (later o1 o2). rewrite <- app_assoc, <- later_assoc.
    split; [done|]. split; [by constructor|done].
  - by apply (rep_loop_sound r1 _ lo hi IH1) in H.
  - apply IH1 in H as (w1 & s1 & o1 & -> & Hw1 & H).
    rewrite length_app, Nat.add_sub, take_app_length in H.
    exists w1, s1, (Some w1). split; [done|]. split; [by econstructor|done].
  - destruct (rmatch r1 s c _); [done|].
    exists [], s, None. split; [done|]. split; [constructor|done].
Qed.

(** What [s.match(r)] returns is a word of the pattern inside the text,
    with group 1 as that word set it. *)
Lemma str_match_sound r s c :
  str_match r s = Some c -> exists pre w post, s = pre ++ w ++ post /\ matches r w c.
Proof.
  unfold str_match.
  assert (Hex : forall i j, execFrom r s i = Some (j, c) ->
                exists pre w post, s = pre ++ w ++ post /\ matches r w c).
  { induction s as [|x s IH]; intros i j; simpl.
    - destruct (rmatch r [] None _) as [c0|] eqn:E; [|done]. intros [= <- <-].
      apply rmatch_sound in E as (w & s' & o & Hs & Hw & [= <-]).
      exists [], w, s'. by destruct o.
    - destruct (rmatch r (x :: s) None _) as [c0|] eqn:E.
      + intros [= <- <-].
        apply rmatch_sound in E as (w & s' & o & Hs & Hw & [= <-]).
        exists [], w, s'. by destruct o.
      + intros H. apply IH in H as (pre & w & post & -> & Hw).
        by exists (x :: pre), w, post. }
  destruct (execFrom r s 0) as [[j c0]|] eqn:E; [|done].
  intros [= <-]. eauto.
Qed.

Lemma matches_alphabet r w o : matches r w o -> Forall (fun x => alphabet r x = true) w.
Proof.
  induction 1 as [|cls x Hx|l|r1 r2 w1 w2 o1 o2 _ IH1 _ IH2| | | | | | | | |]; simpl;
    try (by constructor); try (apply Forall_app; by split); try assumption.
  - apply Forall_forall. intros x Hx. apply existsb_exists. exists x.
    split; [by apply list_elem_of_In|apply N.eqb_refl].
  - apply Forall_app. split.
    + eapply Forall_impl; [exact IH1|]. simpl. intros x ->. done.
    + eapply Forall_impl; [exact IH2|]. simpl. intros x ->. by rewrite orb_true_r.
Qed.

Lemma matches_nonempty r w o : matches r w o -> nullable r = false -> w <> [].
Proof.
  induction 1 as [|cls x Hx|l|r1 r2 w1 w2 o1 o2 _ IH1 _ IH2| |r w o _ IH| |
                  |r w1 w2 o1 o2 _ IH1 _ _| |lo hi r w1 w2 o1 o2 _ IH1 _ _|r w o _ IH|];
    simpl; try done.
  - intros Hl ->. by rewrite bool_decide_eq_true_2 in Hl.
  - intros Hn Hw. apply app_eq_nil in Hw as [-> ->].
    apply andb_false_iff in Hn as [Hn|Hn]; [by apply IH1|by apply IH2].
  - intros Hn Hw. apply app_eq_nil in Hw as [-> ->]. by apply IH1.
  - intros Hn Hw. apply app_eq_nil in Hw as [-> ->].
    apply orb_false_iff in Hn as [_ Hn]. by apply IH1.
Qed.

Lemma matches_groupFree r w o : matches r w o -> groupFree r = true -> o = None.
Proof.
  induction 1 as [|cls x Hx|l|r1 r2 w1 w2 o1 o2 _ IH1 _ IH2| |r w o _ IH| |
                  g r w1 w2 o1 o2 _ IH1 _ IH2|r w1 w2 o1 o2 _ IH1 _ IH2|
                  |lo hi r w1 w2 o1 o2 _ IH1 _ IH2|r w o _ IH|];
    simpl; try done.
  - intros [H1 H2]%andb_prop. by rewrite IH1, IH2.
  - intros Hg. by rewrite IH1, IH2.
  - intros Hg. by rewrite IH1, IH2.
  - intros Hg. by rewrite IH1, IH2.
Qed.

(** The text of group 1 lies inside the word that set it. *)
Lemma matches_group_inside r w g : matches r w (Some g) -> occursIn g w.
Proof.
  remember (Some g) as o eqn:Ho. intros H. revert g Ho.
  induction H as [|cls x Hx|l|r1 r2 w1 w2 o1 o2 _ IH1 _ IH2| |r w o _ IH| |
                  g0 r w1 w2 o1 o2 _ IH1 _ IH2|r w1 w2 o1 o2 _ IH1 _ IH2|
                  |lo hi r w1 w2 o1 o2 _ IH1 _ IH2|r w o _ IH|];
    intros g Ho; try discriminate Ho; eauto.
  - destruct o2 as [g2|]; simpl in Ho.
    + destruct (IH2 g Ho) as (u & v & ->). exists (w1 ++ u), v. by rewrite <- !app_assoc.
    + destruct (IH1 g Ho) as (u & v & ->). exists u, (v ++ w2). by rewrite <- !app_assoc.
  - destruct o2 as [g2|]; simpl in Ho.
    + destruct (IH2 g Ho) as (u & v & ->). exists (w1 ++ u), v. by rewrite <- !app_assoc.
    + destruct (IH1 g Ho) as (u & v & ->). exists u, (v ++ w2). by rewrite <- !app_assoc.
  - destruct o2 as [g2|]; simpl in Ho.
    + destruct (IH2 g Ho) as (u & v & ->). exists (w1 ++ u), v. by rewrite <- !app_assoc.
    + destruct (IH1 g Ho) as (u & v & ->). exists u, (v ++ w2). by rewrite <- !app_assoc.
  - destruct o2 as [g2|]; simpl in Ho.
    + destruct (IH2 g Ho) as (u & v & ->). exists (w1 ++ u), v. by rewrite <- !app_assoc.
    + destruct (IH1 g Ho) as (u & v & ->). exists u, (v ++ w2). by rewrite <- !app_assoc.
  - injection Ho as ->. exists [], []. by rewrite app_nil_r.
Qed.

(** ** What the extractors return *)

Lemma occursIn_trans a b c : occursIn a b -> occursIn b c -> occursIn a c.
Proof.
  intros (u & v & ->) (u' & v' & ->). exists (u' ++ u), (v ++ v').
  by rewrite <- !app_assoc.
Qed.

Lemma occursIn_app_l a w1 w2 : occursIn a w1 -> occursIn a (w1 ++ w2).
Proof. intros (u & v & ->). exists u, (v ++ w2). by rewrite <- !app_assoc. Qed.

Lemma occursIn_app_r a w1 w2 : occursIn a w2 -> occursIn a (w1 ++ w2).
Proof. intros (u & v & ->). exists (w1 ++ u), v. by rewrite <- !app_assoc. Qed.

Lemma matches_literals r w o l : matches r w o -> l ∈ literals r -> occursIn l w.
Proof.
  induction 1 as [|cls x Hx|l0|r1 r2 w1 w2 o1 o2 _ IH1 _ IH2| |r w o _ IH| |
                  g0 r w1 w2 o1 o2 _ IH1 _ IH2|r w1 w2 o1 o2 _ IH1 _ IH2|
                  |lo hi r w1 w2 o1 o2 _ IH1 _ IH2|r w o _ IH|];
    simpl; intros Hl; try (by apply not_elem_of_nil in Hl).
  - apply list_elem_of_singleton in Hl as ->. exists [], []. by rewrite app_nil_r.
  - apply elem_of_app in Hl as [Hl|Hl];
      [apply occursIn_app_l|apply occursIn_app_r]; auto.
  - apply occursIn_app_l. auto.
  - auto.
Qed.

Lemma matches_seq_inv r1 r2 w o :
  matches (RSeq r1 r2) w o ->
  exists w1 w2 o1 o2, w = w1 ++ w2 /\ o = later o1 o2 /\ matches r1 w1 o1 /\ matches r2 w2 o2.
Proof. inversion 1; subst. eauto 10. Qed.

Lemma matches_lit_inv l w o : matches (RLit l) w o -> w = l /\ o = None.
Proof. by inversion 1. Qed.

Lemma matches_group_inv r w o : matches (RGroup r) w o -> o = Some w /\ exists o', matches r w o'.
Proof. inversion 1; subst. eauto. Qed.

Lemma matches_opt_inv r w o : matches (ROpt r) w o -> (w = [] /\ o = None) \/ matches r w o.
Proof. inversion 1; subst; auto. Qed.

Lemma digit_not_comma x : isDigit x = true -> negb (x =? 0x2C)%N = true.
Proof.
  unfold isDigit. intros [H1 H2]%andb_prop. apply N.leb_le in H1.
  apply negb_true_iff, N.eqb_neq. lia.
Qed.

Lemma removeAll_digits ds :
  Forall (fun x => isDigit x = true) ds -> removeAll 0x2C ds = ds.
Proof.
  unfold removeAll. induction 1 as [|x ds Hx _ IH]; simpl; [done|].
  by rewrite (digit_not_comma x Hx), IH.
Qed.

Lemma removeAll_app c a b : removeAll c (a ++ b) = removeAll c a ++ removeAll c b.
Proof. unfold removeAll. apply List.filter_app. Qed.

(** A grouped number, once its commas are removed, is a plain decimal
    numeral. *)
Lemma groupedNumber_decimal g : groupedNumber g -> decimalText (removeAll 0x2C g).
Proof.
  intros [o H]. unfold numberPattern in H. simpl in H.
  apply matches_seq_inv in H as (wa & w' & oa & o' & -> & _ & Ha & H).
  apply matches_seq_inv in H as (wb & wc & ob & oc & -> & _ & Hb & Hc).
  pose proof (matches_alphabet _ _ _ Ha) as Haa. simpl in Haa.
  pose proof (matches_nonempty _ _ _ Ha eq_refl) as Hne.
  pose proof (matches_alphabet _ _ _ Hb) as Hbb. simpl in Hbb.
  rewrite !removeAll_app, (removeAll_digits wa Haa).
  assert (Hb' : Forall (fun x => isDigit x = true) (removeAll 0x2C wb)).
  { unfold removeAll. clear Hb. induction Hbb as [|x wb Hx _ IH]; simpl; [constructor|].
    destruct (N.eqb_spec x 0x2C) as [->|Hx']; simpl; [done|].
    constructor; [|done]. rewrite orb_false_r in Hx.
    apply orb_prop in Hx as [Hx|Hx]; [|done]. by apply N.eqb_eq in Hx. }
  exists (wa ++ removeAll 0x2C wb), (removeAll 0x2C wc). rewrite <- app_assoc.
  split; [done|]. split; [by destruct wa|]. split; [by apply Forall_app|].
  apply matches_opt_inv in Hc as [[-> _]|Hc]; [by left|]. right.
  apply matches_seq_inv in Hc as (wp & ds & op & od & -> & _ & Hp & Hd).
  apply matches_lit_inv in Hp as [-> _].
  pose proof (matches_alphabet _ _ _ Hd) as Hdd. simpl in Hdd.
  pose proof (matches_nonempty _ _ _ Hd eq_refl) as Hdne.
  exists ds. rewrite removeAll_app, (removeAll_digits ds Hdd). by repeat split.
Qed.





Lemma matches_group_body r w g :
  matches r w (Some g) -> exists b o, b ∈ groupBodies r /\ matches b g o.
Proof.
  remember (Some g) as c eqn:Hc. intros H. revert g Hc.
  induction H as [|cls x Hx|l|r1 r2 w1 w2 o1 o2 _ IH1 _ IH2| |r w o _ IH| |
                  g0 r w1 w2 o1 o2 _ IH1 _ IH2|r w1 w2 o1 o2 _ IH1 _ IH2|
                  |lo hi r w1 w2 o1 o2 _ IH1 _ IH2|r w o H IH|];
    intros g Hc; try discriminate Hc; simpl; eauto.
  - destruct o2 as [g2|]; simpl in Hc.
    + destruct (IH2 g Hc) as (b & o & Hb & Hm). exists b, o. split; [|done].
      apply elem_of_app. by right.
    + destruct (IH1 g Hc) as (b & o & Hb & Hm). exists b, o. split; [|done].
      apply elem_of_app. by left.
  - destruct o2 as [g2|]; simpl in Hc; eauto.
  - destruct o2 as [g2|]; simpl in Hc; eauto.
  - destruct o2 as [g2|]; simpl in Hc; eauto.
  - injection Hc as ->. exists r, o. split; [by left|done].
Qed.


(** X2.  When the area extractor returns a text, the overview contains the
    label, later on the same line a grouped number directly followed by the
    square-metre sign, and the text is that number without its commas: a
    plain decimal numeral. *)
Theorem extractArea_reads_number (text : jsstring) (type : areaLabel) (t : jsstring) :
  extractArea text type = Ok (Some t) ->
  exists pre mid g post,
    text = pre ++ areaLabelText type ++ mid ++ g ++ js "㎡" ++ post /\
    Forall (fun x => isLineTerminator x = false) mid /\
    groupedNumber g /\ t = removeAll 0x2C g /\ decimalText t.
Proof.
  unfold extractArea.
  destruct (str_match (areaPattern type) text) as [m|] eqn:E; [|done].
  apply str_match_sound in E as (pre & w & post & -> & H).
  unfold areaPattern in H. simpl RCat in H.
  apply matches_seq_inv in H as (wl & w1 & ol & o1 & -> & -> & Hl & H).
  apply matches_lit_inv in Hl as [-> ->].
  apply matches_seq_inv in H as (mid & w2 & os & o2 & -> & -> & Hs & H).
  apply matches_seq_inv in H as (g & wt & od & ot & -> & -> & Hd & Ht).
  pose proof (matches_alphabet _ _ _ Hs) as Hmid. simpl in Hmid.
  apply matches_groupFree in Hs as ->; [|done].
  apply matches_lit_inv in Ht as [-> ->].
  apply matches_group_inv in Hd as [-> Hg]. simpl. intros [= <-].
  exists pre, mid, g, post. rewrite <- !app_assoc.
  split; [done|]. split.
  { eapply Forall_impl; [exact Hmid|]. simpl. intros x Hx. by apply negb_true_iff. }
  split; [done|]. split; [done|]. by apply groupedNumber_decimal.
Qed.

Lemma firstGroup_found patterns text t :
  firstGroup patterns text = Ok (Some t) ->
  exists p w g, p ∈ patterns /\ occursIn w text /\ matches p w (Some g) /\ t = removeAll 0x2C g.
Proof.
  induction patterns as [|p ps IH]; simpl; [done|].
  destruct (str_match p text) as [m|] eqn:E.
  - destruct m as [g|]; simpl; [|done]. intros [= <-].
    apply str_match_sound in E as (pre & w & post & -> & H).
    exists p, w, g. split; [by left|]. split; [by exists pre, post|done].
  - intros H. destruct (IH H) as (p' & w & g & Hp & Hrest).
    exists p', w, g. split; [by right|done].
Qed.

Lemma found_number patterns text t :
  Forall (fun p => groupBodies p = [numberPattern]) patterns ->
  firstGroup patterns text = Ok (Some t) ->
  exists g, occursIn g text /\ groupedNumber g /\ t = removeAll 0x2C g /\ decimalText t.
Proof.
  intros Hall H. apply firstGroup_found in H as (p & w & g & Hp & Hw & Hm & ->).
  exists g. split; [eauto using occursIn_trans, matches_group_inside|].
  assert (groupedNumber g) as Hg.
  { destruct (matches_group_body _ _ _ Hm) as (b & o & Hb & Hbm).
    rewrite (proj1 (Forall_forall _ _) Hall p Hp) in Hb.
    apply list_elem_of_singleton in Hb as ->. by exists o. }
  split; [done|]. split; [done|]. by apply groupedNumber_decimal.
Qed.

Lemma found_literal patterns text t (lits : list jsstring) :
  Forall (fun p => exists l, l ∈ literals p /\ Exists (fun a => occursIn a l) lits) patterns ->
  firstGroup patterns text = Ok (Some t) ->
  Exists (fun a => occursIn a text) lits.
Proof.
  intros Hall H. apply firstGroup_found in H as (p & w & g & Hp & Hw & Hm & _).
  destruct (proj1 (Forall_forall _ _) Hall p Hp) as (l & Hl & Hex).
  eapply Exists_impl; [exact Hex|]. simpl. intros a Ha.
  eauto using occursIn_trans, matches_literals.
Qed.

(** X3.  When the household extractor returns a text, the overview
    contains the syllable of the household label and a grouped number, and
    the text is that number without its commas: a plain decimal numeral. *)
Theorem extractHouseholds_reads_number (text t : jsstring) :
  extractHouseholds text = Ok (Some t) ->
  occursIn (js "세") text /\
  exists g, occursIn g text /\ groupedNumber g /\ t = removeAll 0x2C g /\ decimalText t.
Proof.
  intros H. split.
  - assert (Exists (fun a => occursIn a text) [js "세"]) as Hex.
    { eapply found_literal; [|exact H]. unfold householdPatterns.
      repeat constructor.
      + exists (js "세대수"). split; [by left|]. left. by exists [], (js "대수").
      + exists (js "세"). split; [by left|]. left. by exists [], [].
      + exists (js "세대"). split; [set_solver|]. left. by exists [], (js "대").
      + exists (js "세"). split; [set_solver|]. left. by exists [], []. }
    by apply Exists_cons in Hex as [?|?%Exists_nil].
  - eapply found_number; [|exact H]. by repeat constructor.
Qed.

(** X4.  When the amount extractor returns a text, the overview contains
    one of the two amount labels and a grouped number, and the text is that
    number without its commas: a plain decimal numeral. *)
Theorem extractAmount_reads_number (text t : jsstring) :
  extractAmount text = Ok (Some t) ->
  (occursIn (js "금액") text \/ occursIn (js "공사비") text) /\
  exists g, occursIn g text /\ groupedNumber g /\ t = removeAll 0x2C g /\ decimalText t.
Proof.
  intros H. split.
  - assert (Exists (fun a => occursIn a text) [js "금액"; js "공사비"]) as Hex.
    { eapply found_literal; [|exact H]. unfold amountPatterns.
      repeat constructor.
      + exists (js "금액"). split; [by left|]. left. by exists [], [].
      + exists (js "공사비"). split; [by left|]. right. left. by exists [], [].
      + exists (js "공사금액"). split; [by left|]. left. by exists (js "공사"), []. }
    apply Exists_cons in Hex as [?|Hex]; [by left|].
    apply Exists_cons in Hex as [?|?%Exists_nil]; [by right|done].
  - eapply found_number; [|exact H]. by repeat constructor.
Qed.

(** ** Runs of the pipeline *)

Lemma mapR_elem {A B} (f : A -> result B) l l' a :
  mapR f l = Ok l' -> a ∈ l -> exists b, b ∈ l' /\ f a = Ok b.
Proof.
  revert l'. induction l as [|x l IH]; intros l'; simpl.
  - intros _ Ha. by apply not_elem_of_nil in Ha.
  - destruct (f x) as [y|] eqn:Hx; simpl; [|done].
    destruct (mapR f l) as [ys|]; simpl; [|done]. intros [= <-] Ha.
    apply elem_of_cons in Ha as [->|Ha].
    + exists y. split; [by left|done].
    + destruct (IH ys eq_refl Ha) as (b & Hb & Hf). exists b. split; [by right|done].
Qed.

Lemma mapR_elem_inv {A B} (f : A -> result B) l l' b :
  mapR f l = Ok l' -> b ∈ l' -> exists a, a ∈ l /\ f a = Ok b.
Proof.
  revert l'. induction l as [|x l IH]; intros l'; simpl.
  - intros [= <-] Hb. by apply not_elem_of_nil in Hb.
  - destruct (f x) as [y|] eqn:Hx; simpl; [|done].
    destruct (mapR f l) as [ys|]; simpl; [|done]. intros [= <-] Hb.
    apply elem_of_cons in Hb as [->|Hb].
    + exists x. split; [by left|done].
    + destruct (IH ys eq_refl Hb) as (a & Ha & Hf). exists a. split; [by right|done].
Qed.

Lemma filterR_returns {A} (f : A -> result bool) l l' a :
  filterR f l = Ok l' -> a ∈ l -> exists b, f a = Ok b.
Proof.
  revert l'. induction l as [|x l IH]; intros l'; simpl.
  - intros _ Ha. by apply not_elem_of_nil in Ha.
  - destruct (f x) as [y|] eqn:Hx; simpl; [|done].
    destruct (filterR f l) as [ys|]; simpl; [|done]. intros _ Ha.
    apply elem_of_cons in Ha as [->|Ha]; eauto.
Qed.

Lemma filterR_length {A} (f : A -> result bool) l l' :
  filterR f l = Ok l' -> length l' <= length l.
Proof.
  revert l'. induction l as [|x l IH]; intros l'; simpl.
  - by intros [= <-].
  - destruct (f x) as [y|]; simpl; [|done].
    destruct (filterR f l) as [ys|]; simpl; [|done]. intros [= <-].
    specialize (IH ys eq_refl). destruct y; simpl; lia.
Qed.

Lemma filter_length_le {A} (f : A -> bool) l : length (List.filter f l) <= length l.
Proof. induction l as [|x l IH]; simpl; [done|]. destruct (f x); simpl; lia. Qed.

Lemma filter_split_length {A} (f : A -> bool) l :
  length (List.filter f l) + length (List.filter (fun a => negb (f a)) l) = length l.
Proof. induction l as [|x l IH]; simpl; [done|]. destruct (f x); simpl; lia. Qed.

Lemma filter_elem {A} (f : A -> bool) l x : x ∈ List.filter f l <-> x ∈ l /\ f x = true.
Proof. rewrite !list_elem_of_In. apply filter_In. Qed.

Lemma get_renumber (i : nat) (p : obj) (k : jsstring) :
  k <> F_No -> get (renumber i p) k = get p k.
Proof. intros Hk. unfold get. rewrite renumber_insert. by rewrite lookup_insert_ne. Qed.

Lemma get_renumberMaster (i : nat) (p : obj) (k : jsstring) :
  k <> F_No -> get (renumberMaster i p) k = get p k.
Proof. intros Hk. unfold get. by rewrite renumberMaster_other. Qed.

Section Runs.

Variable CONSTR_MAPPING DETAIL_CONSTR_MAPPING : obj.
Variable REGION_MAPPING REGION_MAPPING2 : list (jsstring * number).
Variable toLowerCase : jsstring -> jsstring.
Variable jsdate : Type.
Variable dfns_parse : jsstring -> jsstring -> jsdate -> result jsdate.
Variable dfns_isValid : jsdate -> bool.
Variable dfns_format : jsdate -> jsstring -> result jsstring.
Variable dfns_addDays : jsdate -> number -> jsdate.
Variable now : jsdate.
Variable config : PipelineConfig jsdate.

Local Abbreviation parseDate' := (parseDate jsdate dfns_parse dfns_isValid dfns_format now).
Local Abbreviation normalizeA :=
  (normalizeWhobuilds CONSTR_MAPPING DETAIL_CONSTR_MAPPING REGION_MAPPING REGION_MAPPING2
     jsdate dfns_parse dfns_isValid dfns_format now).
Local Abbreviation normalizeB :=
  (normalizeNarajang CONSTR_MAPPING DETAIL_CONSTR_MAPPING REGION_MAPPING REGION_MAPPING2
     jsdate dfns_parse dfns_isValid dfns_format now).
Local Abbreviation keepA := (whobuildsPredicate toLowerCase config).
Local Abbreviation keepB := (narajangPredicate toLowerCase config).
Local Abbreviation run :=
  (runPipeline CONSTR_MAPPING DETAIL_CONSTR_MAPPING REGION_MAPPING REGION_MAPPING2
     toLowerCase jsdate dfns_parse dfns_isValid dfns_format dfns_addDays now config).

(** The stages of a run that returned. *)
Lemma run_stages (whobuildsFiles : list (list obj)) (narajangFile masterFile : option (list obj))
    (r : PipelineResult) :
  run whobuildsFiles narajangFile masterFile = Ok r ->
  exists (cutoff : jsstring) (mergedNew : list obj),
    dfns_format (dfns_addDays (today config) (completionOffsetDays config))
                (js "yyyy-MM-dd") = Ok cutoff /\
    Forall (fun p : obj =>
              mergedPredicate p = true /\
              (keptFrom normalizeA (keepA cutoff) (concat whobuildsFiles) p \/
               keptFrom normalizeB (keepB cutoff) (default [] narajangFile) p))
           mergedNew /\
    length mergedNew <= length (concat whobuildsFiles) + length (default [] narajangFile) /\
    duplicates r = (deduplicate (default [] masterFile) mergedNew).1 /\
    resultDf r = numberResult (deduplicate (default [] masterFile) mergedNew).2 /\
    updatedMaster r
      = mergeMaster (default [] masterFile) (deduplicate (default [] masterFile) mergedNew).2 /\
    resultChunkSize r = chunkSize config.
Proof.
  intros H. cbv beta zeta delta [runPipeline] in H.
  bind_inv_as H cutoff Hcut.
  bind_inv_as H normalizedA HnA.
  bind_inv_as H processedA HfA.
  bind_inv_as H processedB HB.
  exists cutoff, (List.filter mergedPredicate (processedA ++ processedB)).
  destruct (deduplicate _ _) as [d u] eqn:Hd.
  bind_inv H. apply Ok_inj in H as <-. cbn [resultDf updatedMaster duplicates resultChunkSize].
  split; [done|].
  assert (HA : Forall (keptFrom normalizeA (keepA cutoff) (concat whobuildsFiles)) processedA
               /\ length processedA <= length (concat whobuildsFiles)).
  { split.
    - apply Forall_forall. intros p Hp.
      destruct (filterR_elem _ _ _ _ HfA Hp) as [Hin Hkept].
      destruct (mapR_elem_inv _ _ _ _ HnA Hin) as (row & Hrow & Hnorm). by exists row.
    - apply filterR_length in HfA. apply mapR_length in HnA. lia. }
  assert (HB' : Forall (keptFrom normalizeB (keepB cutoff) (default [] narajangFile)) processedB
                /\ length processedB <= length (default [] narajangFile)).
  { destruct narajangFile as [raw|]; simpl.
    - bind_inv_as HB normalizedB HnB. split.
      + apply Forall_forall. intros p Hp.
        destruct (filterR_elem _ _ _ _ HB Hp) as [Hin Hkept].
        destruct (mapR_elem_inv _ _ _ _ HnB Hin) as (row & Hrow & Hnorm). by exists row.
      + apply filterR_length in HB. apply mapR_length in HnB. lia.
    - apply Ok_inj in HB as <-. split; [constructor|done]. }
  destruct HA as [HA HlA], HB' as [HB' HlB].
  split; [|split; [|by repeat split]].
  - apply Forall_forall. intros p [Hin Hm]%filter_elem. split; [done|].
    apply elem_of_app in Hin as [Hin|Hin].
    + left. by apply (proj1 (Forall_forall _ _) HA).
    + right. by apply (proj1 (Forall_forall _ _) HB').
  - pose proof (filter_length_le mergedPredicate (processedA ++ processedB)) as Hle.
    rewrite length_app in Hle. lia.
Qed.


Lemma numberResult_nil_inv (U : list obj) : numberResult U = [] -> U = [].
Proof. by destruct U. Qed.



Lemma mergedPredicate_renumber (i : nat) (p : obj) :
  mergedPredicate (renumber i p) = mergedPredicate p.
Proof. unfold mergedPredicate. by rewrite !get_renumber by field_ne. Qed.

Lemma constrCheck_renumber (i : nat) (p : obj) :
  constrCheck config (renumber i p) = constrCheck config p.
Proof. unfold constrCheck. by rewrite !get_renumber by field_ne. Qed.

Lemma kept_checks_A (cutoff : jsstring) (p : obj) :
  keepA cutoff p = Ok true ->
  includes (toString (get p F_agency)) (js "방위사업청") = false /\
  constrCheck config p = true /\
  containsExcludedKeyword toLowerCase (get p F_name) (excludedKeywords config) = Ok false.
Proof.
  unfold whobuildsPredicate.
  destruct (containsExcludedKeyword _ _ _) as [ex|]; simpl; [|done]. intros [= H].
  apply andb_prop in H as [H Hk]. apply andb_prop in H as [H Hc].
  apply andb_prop in H as [Ha _].
  apply negb_true_iff in Ha, Hk. by subst.
Qed.

Lemma kept_checks_B (cutoff : jsstring) (p : obj) :
  keepB cutoff p = Ok true ->
  js_ge (VNum (toNumber (get p F_amount))) (VNum (minContractAmount config)) = true /\
  constrCheck config p = true /\
  containsExcludedKeyword toLowerCase (get p F_name) (excludedKeywords config) = Ok false.
Proof.
  unfold narajangPredicate.
  destruct (containsExcludedKeyword _ _ _) as [ex|]; simpl; [|done]. intros [= H].
  apply andb_prop in H as [H Hk]. apply andb_prop in H as [H Hc].
  apply andb_prop in H as [Ha _].
  apply negb_true_iff in Hk. by subst.
Qed.

(** Every record a run returns in [resultDf] or [duplicates] is one of the
    merged new records, renumbered or as it was. *)
Lemma returned_record (M mergedNew : list obj) (q : obj) :
  q ∈ numberResult (deduplicate M mergedNew).2 ++ (deduplicate M mergedNew).1 ->
  exists p, p ∈ mergedNew /\ (q = p \/ exists i, q = renumber i p).
Proof.
  rewrite deduplicate_filter. simpl. intros [Hq|Hq]%elem_of_app.
  - unfold numberResult in Hq. apply elem_of_lookup_imap in Hq as (i & p & -> & Hp).
    apply list_elem_of_lookup_2, filter_elem in Hp as [Hp _]. eauto.
  - apply filter_elem in Hq as [Hq _]. eauto.
Qed.

(** X5.  A run that returns accounts for its records: the updated master
    has one record per master record and per new unique record; duplicates
    and new unique records together are no more than the rows read from the
    two sources; with no new unique record the updated master is the master
    renumbered. *)
Theorem run_accounting (whobuildsFiles : list (list obj))
    (narajangFile masterFile : option (list obj)) (r : PipelineResult) :
  run whobuildsFiles narajangFile masterFile = Ok r ->
  length (updatedMaster r) = length (default [] masterFile) + length (resultDf r) /\
  length (duplicates r) + length (resultDf r)
    <= length (concat whobuildsFiles) + length (default [] narajangFile) /\
  (resultDf r = [] -> updatedMaster r = imap renumberMaster (default [] masterFile)).
Proof.
  intros H. apply run_stages in H as (cutoff & N & _ & _ & Hlen & Hd & Hr & Hu & _).
  rewrite Hd, Hr, Hu. unfold mergeMaster, numberResult.
  rewrite !length_imap, length_app. split; [done|]. split.
  - rewrite deduplicate_filter. simpl.
    pose proof (filter_split_length (isDuplicate (default [] masterFile)) N). lia.
  - intros HU. apply numberResult_nil_inv in HU. by rewrite HU, app_nil_r.
Qed.

(** X6.  A run that returns numbers its new records 1, 2, ... in
    [resultDf]; the same records, in the same order, end the updated
    master, where their numbers continue after the master's length. *)
Theorem run_numbers_new_records (whobuildsFiles : list (list obj))
    (narajangFile masterFile : option (list obj)) (r : PipelineResult) :
  run whobuildsFiles narajangFile masterFile = Ok r ->
  (fun q : obj => q !! F_No) <$> resultDf r
    = (fun i => Some (VNum (Fin (Z.of_nat i)))) <$> seq 1 (length (resultDf r)) /\
  delete F_No <$> drop (length (default [] masterFile)) (updatedMaster r)
    = delete F_No <$> resultDf r /\
  (fun q : obj => q !! F_No) <$> drop (length (default [] masterFile)) (updatedMaster r)
    = (fun i => Some (VNum (Fin (Z.of_nat (length (default [] masterFile) + i)))))
        <$> seq 1 (length (resultDf r)).
Proof.
  intros H. apply run_stages in H as (cutoff & N & _ & _ & _ & _ & Hr & Hu & _).
  rewrite Hr, Hu. set (M := default [] masterFile).
  set (U := (deduplicate M N).2). unfold numberResult, mergeMaster.
  rewrite imap_app, drop_app_length' by (by rewrite length_imap).
  rewrite length_imap. split; [apply renumber_numbers|]. split.
  - rewrite renumber_erased, fmap_imap, <- (imap_const (delete F_No)).
    apply imap_ext. intros i p _. simpl. rewrite renumberMaster_insert.
    apply delete_insert_eq.
  - rewrite fmap_imap.
    rewrite <- (imap_seq U (fun i => Some (VNum (Fin (Z.of_nat (length M + i))))) 1).
    apply imap_ext. intros i p _. simpl.
    rewrite renumberMaster_insert, lookup_insert_eq. do 3 f_equal. lia.
Qed.


(** X8.  Every record a run returns, new or duplicate, from either
    source, has an original type that is not excluded, a name that contains
    no excluded keyword, and floor counts within the structural bounds. *)
Theorem run_returns_eligible_records (whobuildsFiles : list (list obj))
    (narajangFile masterFile : option (list obj)) (r : PipelineResult) :
  run whobuildsFiles narajangFile masterFile = Ok r ->
  Forall (fun q =>
            constrCheck config q = true /\
            containsExcludedKeyword toLowerCase (get q F_name) (excludedKeywords config)
              = Ok false /\
            mergedPredicate q = true)
         (resultDf r ++ duplicates r).
Proof.
  intros H. apply run_stages in H as (cutoff & N & _ & HN & _ & Hd & Hr & _).
  rewrite Hd, Hr. apply Forall_forall. intros q Hq.
  apply returned_record in Hq as (p & Hp & Hqp).
  destruct (proj1 (Forall_forall _ _) HN p Hp) as [Hm Hfrom].
  assert (constrCheck config p = true /\
          containsExcludedKeyword toLowerCase (get p F_name) (excludedKeywords config)
            = Ok false) as [Hc Hk].
  { destruct Hfrom as [(row & _ & _ & Hkept)|(row & _ & _ & Hkept)].
    - by apply kept_checks_A in Hkept as (_ & ? & ?).
    - by apply kept_checks_B in Hkept as (_ & ? & ?). }
  destruct Hqp as [->|[i ->]]; [done|].
  by rewrite constrCheck_renumber, mergedPredicate_renumber, get_renumber by field_ne.
Qed.


Lemma normalizeWhobuilds_more_fields (row p : obj) :
  normalizeA row = Ok p ->
  p !! F_name = Some (get row (js "공사명")) /\
  p !! F_agency = Some (get row (js "발주처")) /\
  p !! F_source = Some (VStr (js "01")) /\
  p !! F_start
    = Some (textOrEmpty (parseDate' (at_index (split 126 (dateRangeOf row)) 0))) /\
  (exists code, mapRegion REGION_MAPPING (get row (js "주소")) = Ok code /\
                p !! F_sido = Some code) /\
  (exists code, mapRegion2 REGION_MAPPING2 (get row (js "주소")) = Ok code /\
                p !! F_sigungu = Some code) /\
  dom p = list_to_set (canonicalFields ++ [F_originalConstr]).
Proof.
  unfold dateRangeOf. intros H.
  cbv beta zeta delta [normalizeWhobuilds] in H.
  do 6 bind_inv H. apply Ok_inj in H as <-.
  repeat split; try (eexists; split; [reflexivity|]); try (by read_field).
Qed.

Lemma normalizeNarajang_more_fields (row p : obj) :
  normalizeB row = Ok p ->
  (exists name, cleanProjectName (get row (js "계약명")) = Ok name /\ p !! F_name = Some name) /\
  p !! F_source = Some (VStr (js "02")) /\
  p !! F_basement = Some emptyText /\
  p !! F_ground = Some emptyText /\
  p !! F_amount = Some (js_or (get row (js "계약금액")) (VNum (Fin 0))) /\
  p !! F_constr
    = Some (js_or (get CONSTR_MAPPING (toString (js_or (get row (js "공공조달분류")) emptyText)))
                  (VStr (js "E0"))) /\
  (exists code, mapRegion REGION_MAPPING (get row (js "현장지역")) = Ok code /\
                p !! F_sido = Some code) /\
  (exists code, mapRegion2 REGION_MAPPING2 (get row (js "현장지역")) = Ok code /\
                p !! F_sigungu = Some code) /\
  dom p = list_to_set (canonicalFields ++ [F_originalConstr]).
Proof.
  intros H. cbv beta zeta delta [normalizeNarajang] in H.
  do 3 bind_inv H. apply Ok_inj in H as <-.
  repeat split; try (eexists; split; [reflexivity|]); try (by read_field).
Qed.


Lemma containsExcludedKeyword_nonText (v : value) (keywords : list jsstring) :
  nonText v -> containsExcludedKeyword toLowerCase v keywords = Throw TypeError.
Proof.
  intros [Ht Hs]. unfold containsExcludedKeyword. rewrite Ht. simpl.
  destruct v; try done. by destruct (Hs s).
Qed.

Lemma cleanProjectName_nonText (v : value) : nonText v -> cleanProjectName v = Throw TypeError.
Proof.
  intros [Ht Hs]. unfold cleanProjectName. rewrite Ht. simpl.
  destruct v; try done. by destruct (Hs s).
Qed.

Lemma mapRegionWith_nonText (table : list (jsstring * number)) (v : value) :
  nonText v -> table <> [] -> mapRegionWith table v = Throw TypeError.
Proof.
  intros [Ht Hs] Hne. unfold mapRegionWith. rewrite Ht. simpl.
  destruct table as [|[reg code] rest]; [done|]. simpl.
  destruct v; try done. by destruct (Hs s).
Qed.

(** X10.  A single row whose project-name cell is truthy but not text, a
    number for instance, makes the whole run raise: no result is returned,
    whatever the other rows are. *)
Theorem run_aborts_on_nontext_name (whobuildsFiles : list (list obj))
    (narajangFile masterFile : option (list obj)) :
  (exists row, row ∈ concat whobuildsFiles /\ nonText (get row (js "공사명"))) \/
  (exists raw row, narajangFile = Some raw /\ row ∈ raw /\ nonText (get row (js "계약명"))) ->
  forall r, run whobuildsFiles narajangFile masterFile <> Ok r.
Proof.
  intros Hbad r H. cbv beta zeta delta [runPipeline] in H.
  bind_inv_as H cutoff Hcut.
  bind_inv_as H normalizedA HnA.
  bind_inv_as H processedA HfA.
  bind_inv_as H processedB HB. clear H.
  destruct Hbad as [(row & Hrow & Hname)|(raw & row & -> & Hrow & Hname)].
  - destruct (mapR_elem _ _ _ _ HnA Hrow) as (p & Hp & Hnorm).
    destruct (filterR_returns _ _ _ _ HfA Hp) as [b Hb].
    apply normalizeWhobuilds_more_fields in Hnorm as (Hn & _).
    unfold whobuildsPredicate, get in Hb. rewrite Hn in Hb. simpl in Hb.
    by rewrite (containsExcludedKeyword_nonText _ _ Hname) in Hb.
  - bind_inv_as HB normalizedB HnB.
    destruct (mapR_elem _ _ _ _ HnB Hrow) as (p & Hp & Hnorm).
    apply normalizeNarajang_more_fields in Hnorm as ((name & Hclean & _) & _).
    by rewrite (cleanProjectName_nonText _ Hname) in Hclean.
Qed.

(** X11.  Unless both region tables are empty, a single row whose address
    cell is truthy but not text makes the whole run raise. *)
Theorem run_aborts_on_nontext_address (whobuildsFiles : list (list obj))
    (narajangFile masterFile : option (list obj)) :
  REGION_MAPPING <> [] \/ REGION_MAPPING2 <> [] ->
  (exists row, row ∈ concat whobuildsFiles /\ nonText (get row (js "주소"))) \/
  (exists raw row, narajangFile = Some raw /\ row ∈ raw /\ nonText (get row (js "현장지역"))) ->
  forall r, run whobuildsFiles narajangFile masterFile <> Ok r.
Proof.
  intros Htable Hbad r H. cbv beta zeta delta [runPipeline] in H.
  bind_inv_as H cutoff Hcut.
  bind_inv_as H normalizedA HnA.
  bind_inv_as H processedA HfA.
  bind_inv_as H processedB HB. clear H.
  destruct Hbad as [(row & Hrow & Haddr)|(raw & row & -> & Hrow & Haddr)].
  - destruct (mapR_elem _ _ _ _ HnA Hrow) as (p & Hp & Hnorm).
    apply normalizeWhobuilds_more_fields
      in Hnorm as (_ & _ & _ & _ & (c1 & H1 & _) & (c2 & H2 & _) & _).
    unfold mapRegion in H1. unfold mapRegion2 in H2.
    destruct Htable as [Ht|Ht].
    + by rewrite (mapRegionWith_nonText _ _ Haddr Ht) in H1.
    + by rewrite (mapRegionWith_nonText _ _ Haddr Ht) in H2.
  - bind_inv_as HB normalizedB HnB.
    destruct (mapR_elem _ _ _ _ HnB Hrow) as (p & Hp & Hnorm).
    apply normalizeNarajang_more_fields
      in Hnorm as (_ & _ & _ & _ & _ & _ & (c1 & H1 & _) & (c2 & H2 & _) & _).
    unfold mapRegion in H1. unfold mapRegion2 in H2.
    destruct Htable as [Ht|Ht].
    + by rewrite (mapRegionWith_nonText _ _ Haddr Ht) in H1.
    + by rewrite (mapRegionWith_nonText _ _ Haddr Ht) in H2.
Qed.

Lemma parseDateLoop_some (str out : jsstring) (formats : list jsstring) :
  parseDateLoop jsdate dfns_parse dfns_isValid dfns_format now str formats = Some out ->
  exists f, f ∈ formats /\
            tryFormat jsdate dfns_parse dfns_isValid dfns_format now str f = Ok (Some out).
Proof.
  induction formats as [|f fs IH]; simpl; [done|].
  destruct (tryFormat _ _ _ _ _ str f) as [[o|]|e] eqn:E.
  - intros [= ->]. exists f. split; [by left|done].
  - intros H. destruct (IH H) as (g & Hg & Hgo). exists g. split; [by right|done].
  - intros H. destruct (IH H) as (g & Hg & Hgo). exists g. split; [by right|done].
Qed.

Lemma parseDate_rendering (v : value) (out : jsstring) :
  parseDate' v = Some out -> isRendering dfns_isValid dfns_format out.
Proof.
  unfold parseDate. destruct (negb (truthy v)); [done|]. intros H.
  apply parseDateLoop_some in H as (f & _ & H). unfold tryFormat in H.
  destruct (dfns_parse _ f now) as [d|]; simpl in H; [|done].
  destruct (dfns_isValid d) eqn:Hv; [|done].
  destruct (dfns_format d _) as [o|] eqn:Hf; simpl in H; [|done].
  injection H as <-. by exists d.
Qed.

Lemma textOrEmpty_rendering (v : value) :
  exists out, textOrEmpty (parseDate' v) = VStr out /\
              (out = [] \/ isRendering dfns_isValid dfns_format out).
Proof.
  destruct (parseDate' v) as [out|] eqn:E.
  - exists out. split; [|right; by eapply parseDate_rendering].
    unfold textOrEmpty, js_or. simpl. unfold str_eqb. case_bool_decide; by subst.
  - exists []. by split; [|left].
Qed.

(** X12.  The four date fields of a normalized record, from either source,
    hold the empty string or the yyyy-MM-dd rendering of a valid date:
    never the raw cell text. *)
Theorem date_fields_are_renderings (row p : obj) :
  (normalizeA row = Ok p ->
   Forall (fun k => exists out, p !! k = Some (VStr out) /\
                      (out = [] \/ isRendering dfns_isValid dfns_format out))
          [F_start; F_completion; F_registered; F_firstContract]) /\
  (normalizeB row = Ok p ->
   Forall (fun k => exists out, p !! k = Some (VStr out) /\
                      (out = [] \/ isRendering dfns_isValid dfns_format out))
          [F_start; F_completion; F_registered; F_firstContract]).
Proof.
  split; intros H.
  - pose proof (normalizeWhobuilds_more_fields _ _ H) as (_ & _ & _ & Hs & _).
    pose proof (normalizeWhobuilds_fields _ _ _ _ _ _ _ _ _ _ _ H) as (_ & _ & _ & Hc & Hr & _).
    assert (p !! F_firstContract = Some (VStr [])) as Hf.
    { cbv beta zeta delta [normalizeWhobuilds] in H.
      do 6 bind_inv H. apply Ok_inj in H as <-. by read_field. }
    rewrite !Forall_cons, Hs, Hc, Hr, Hf. repeat split; try done.
    + destruct (textOrEmpty_rendering (at_index (split 126 (dateRangeOf row)) 0))
        as (out & -> & Ho). eauto.
    + destruct (textOrEmpty_rendering (completionTextOf row)) as (out & -> & Ho). eauto.
    + destruct (textOrEmpty_rendering (get row (js "등록일"))) as (out & -> & Ho). eauto.
    + eauto.
  - pose proof (normalizeNarajang_fields _ _ _ _ _ _ _ _ _ _ _ H) as (_ & Hc & Hs & Hr & Hf).
    rewrite !Forall_cons, Hs, Hc, Hr, Hf. repeat split; try done.
    + destruct (textOrEmpty_rendering (get row (js "착수일자"))) as (out & -> & Ho). eauto.
    + destruct (textOrEmpty_rendering (get row (js "총완수일자"))) as (out & -> & Ho). eauto.
    + destruct (textOrEmpty_rendering (get row (js "기준일자"))) as (out & -> & Ho). eauto.
    + destruct (textOrEmpty_rendering (get row (js "최초계약일자"))) as (out & -> & Ho). eauto.
Qed.

(** X13.  Every record a run returns has exactly the thirty canonical
    fields and the original-type field, whatever columns its row had. *)
Theorem run_records_keep_the_schema (whobuildsFiles : list (list obj))
    (narajangFile masterFile : option (list obj)) (r : PipelineResult) :
  run whobuildsFiles narajangFile masterFile = Ok r ->
  Forall (fun q : obj => dom q = list_to_set (canonicalFields ++ [F_originalConstr]))
         (resultDf r ++ duplicates r).
Proof.
  intros H. apply run_stages in H as (cutoff & N & _ & HN & _ & Hd & Hr & _).
  rewrite Hd, Hr. apply Forall_forall. intros q Hq.
  apply returned_record in Hq as (p & Hp & Hqp).
  destruct (proj1 (Forall_forall _ _) HN p Hp) as [_ Hfrom].
  assert (Hdom : dom p = list_to_set (canonicalFields ++ [F_originalConstr])).
  { destruct Hfrom as [(row & _ & Hnorm & _)|(row & _ & Hnorm & _)].
    - by apply normalizeWhobuilds_more_fields in Hnorm as (_ & _ & _ & _ & _ & _ & ?).
    - by apply normalizeNarajang_more_fields
        in Hnorm as (_ & _ & _ & _ & _ & _ & _ & _ & ?). }
  destruct Hqp as [->|[i ->]]; [done|].
  rewrite renumber_insert, dom_insert_lookup_L; [done|].
  apply elem_of_dom. rewrite Hdom. apply elem_of_list_to_set. by left.
Qed.

Lemma mapRegionLoop_code (table : list (jsstring * number)) (address v : value) :
  mapRegionLoop address table = Ok v -> regionCodeFor table address v.
Proof.
  induction table as [|[reg code] rest IH]; simpl.
  - intros [= <-]. by left.
  - destruct address as [| | | |a]; try done.
    destruct (includes a reg) eqn:Hin.
    + intros [= <-]. right. exists a, reg, code. repeat split; [by left|].
      by apply includes_occurs.
    + intros H. destruct (IH H) as [->|(a' & reg' & code' & Ha & Hin' & Hocc & ->)];
        [by left|].
      right. exists a', reg', code'. repeat split; try done. by right.
Qed.

(** X14.  The two region fields of a normalized record hold the empty
    string or the code of a table entry whose name occurs in the row's
    address. *)
Theorem region_fields_come_from_the_tables (row p : obj) :
  (normalizeA row = Ok p ->
   regionCodeFor REGION_MAPPING (get row (js "주소")) (get p F_sido) /\
   regionCodeFor REGION_MAPPING2 (get row (js "주소")) (get p F_sigungu)) /\
  (normalizeB row = Ok p ->
   regionCodeFor REGION_MAPPING (get row (js "현장지역")) (get p F_sido) /\
   regionCodeFor REGION_MAPPING2 (get row (js "현장지역")) (get p F_sigungu)).
Proof.
  assert (Hcode : forall table address v,
             mapRegionWith table address = Ok v -> regionCodeFor table address v).
  { intros table address v. unfold mapRegionWith.
    destruct (negb (truthy address)); [intros [= <-]; by left|apply mapRegionLoop_code]. }
  split; intros H.
  - apply normalizeWhobuilds_more_fields
      in H as (_ & _ & _ & _ & (c1 & H1 & Hp1) & (c2 & H2 & Hp2) & _).
    unfold get. rewrite Hp1, Hp2. simpl. split; by apply Hcode.
  - apply normalizeNarajang_more_fields
      in H as (_ & _ & _ & _ & _ & _ & (c1 & H1 & Hp1) & (c2 & H2 & Hp2) & _).
    unfold get. rewrite Hp1, Hp2. simpl. split; by apply Hcode.
Qed.

Lemma floorOk_numberOrEmpty (limit : Z) (o : option number) :
  (0 < limit)%Z ->
  floorOk limit (numberOrEmpty o) = true <-> (forall z, o = Some (Fin z) -> (z < limit)%Z).
Proof.
  intros Hl. destruct o as [[|z]|]; simpl.
  - split; [by intros _ z [=]|done].
  - destruct (decide (z = 0%Z)) as [->|Hz].
    + split; [intros _ z [= <-]; lia|done].
    + assert (numberOrEmpty (Some (Fin z)) = VNum (Fin z)) as ->.
      { unfold numberOrEmpty, js_or. simpl. destruct z; done. }
      unfold floorOk, js_ltb, js_lt. simpl.
      destruct (Z.ltb_spec z limit) as [Hlt|Hge]; split; try done.
      * by intros _ z' [= <-].
      * intros H. specialize (H z eq_refl). lia.
  - split; [by intros _ z [=]|done].
Qed.

(** X15.  The structural bounds only ever reject Source-A records: a
    Source-B record always passes, and a Source-A record passes exactly
    when the basement count read from its overview is below 10 and the
    above-ground count below 100, a count that is absent passing. *)
Theorem structural_bounds_by_source (row p : obj) :
  (normalizeB row = Ok p -> mergedPredicate p = true) /\
  (normalizeA row = Ok p ->
   (mergedPredicate p = true <->
    (forall z, extractFloors (overviewOf row) Basement = Some (Fin z) -> (z < 10)%Z) /\
    (forall z, extractFloors (overviewOf row) Ground = Some (Fin z) -> (z < 100)%Z))).
Proof.
  split; intros H.
  - apply normalizeNarajang_more_fields in H as (_ & _ & Hb & Hg & _).
    unfold mergedPredicate, get. by rewrite Hb, Hg.
  - pose proof (normalizeWhobuilds_fields _ _ _ _ _ _ _ _ _ _ _ H) as (_ & Hb & Hg & _).
    unfold mergedPredicate, get. rewrite Hb, Hg. simpl.
    rewrite andb_true_iff, !floorOk_numberOrEmpty by lia. done.
Qed.

Lemma split_no_separator (sep : N) (s : jsstring) : sep ∉ s -> split sep s = [s].
Proof.
  induction s as [|c s IH]; simpl; [done|].
  intros Hn. apply not_elem_of_cons in Hn as [Hc Hs].
  destruct (N.eqb_spec c sep) as [->|_]; [done|].
  by rewrite (IH Hs).
Qed.

(** X16.  A Source-A row whose date cell holds no tilde has no completion
    date, however the cell reads, and the eligibility filter rejects its
    record. *)
Theorem whobuilds_row_without_tilde_is_dropped (row p : obj) (cutoff : jsstring) (b : bool) :
  (126%N) ∉ dateRangeOf row ->
  normalizeA row = Ok p ->
  keepA cutoff p = Ok b ->
  p !! F_completion = Some emptyText /\ b = false.
Proof.
  intros Hno Hnorm Hkeep.
  pose proof (normalizeWhobuilds_fields _ _ _ _ _ _ _ _ _ _ _ Hnorm) as (_ & _ & _ & Hc & _).
  assert (completionTextOf row = VUndef) as Hundef.
  { unfold completionTextOf. fold (dateRangeOf row). by rewrite split_no_separator. }
  rewrite Hundef in Hc. split; [done|].
  unfold whobuildsPredicate in Hkeep. bind_inv Hkeep. apply Ok_inj in Hkeep as <-.
  unfold dateCheck, get. rewrite Hc. simpl. by rewrite !andb_false_r.
Qed.

(** The new records of a run do not depend on the master file. *)
Lemma run_with_other_master (whobuildsFiles : list (list obj))
    (narajangFile masterFile otherMaster : option (list obj)) (r : PipelineResult) :
  run whobuildsFiles narajangFile masterFile = Ok r ->
  exists (r' : PipelineResult) (mergedNew : list obj),
    run whobuildsFiles narajangFile otherMaster = Ok r' /\
    duplicates r = (deduplicate (default [] masterFile) mergedNew).1 /\
    resultDf r = numberResult (deduplicate (default [] masterFile) mergedNew).2 /\
    updatedMaster r
      = mergeMaster (default [] masterFile) (deduplicate (default [] masterFile) mergedNew).2 /\
    duplicates r' = (deduplicate (default [] otherMaster) mergedNew).1 /\
    resultDf r' = numberResult (deduplicate (default [] otherMaster) mergedNew).2 /\
    updatedMaster r'
      = mergeMaster (default [] otherMaster) (deduplicate (default [] otherMaster) mergedNew).2.
Proof.
  intros H. cbv beta zeta delta [runPipeline] in H |- *.
  bind_inv_as H cutoff Hcut. change (bind (Ok ?x) ?k) with (k x). cbv beta.
  bind_inv_as H normalizedA HnA. change (bind (Ok ?x) ?k) with (k x). cbv beta.
  bind_inv_as H processedA HfA. change (bind (Ok ?x) ?k) with (k x). cbv beta.
  bind_inv_as H processedB HB. change (bind (Ok ?x) ?k) with (k x). cbv beta.
  destruct (deduplicate (default [] masterFile) _) as [d u] eqn:Hd.
  destruct (deduplicate (default [] otherMaster) _) as [d' u'] eqn:Hd'.
  bind_inv_as H tag Htag. apply Ok_inj in H as <-.
  change (bind (Ok ?x) ?k) with (k x). cbv beta.
  eexists. exists (List.filter mergedPredicate (processedA ++ processedB)).
  split; [reflexivity|]. rewrite Hd, Hd'. done.
Qed.

Lemma sameKey_refl (p : obj) : sameKey p p = true.
Proof.
  unfold sameKey. apply forallb_forall. intros k _. unfold str_eqb.
  by apply bool_decide_eq_true.
Qed.

Lemma sameKey_renumberMaster (i : nat) (p m : obj) :
  sameKey p (renumberMaster i m) = sameKey p m.
Proof.
  unfold sameKey, keyCols, keyText. simpl.
  by rewrite !get_renumberMaster by field_ne.
Qed.

Lemma isDuplicate_mergeMaster (M U : list obj) (n : obj) :
  isDuplicate (mergeMaster M U) n = isDuplicate (M ++ U) n.
Proof.
  unfold mergeMaster, isDuplicate. generalize (M ++ U). intros l.
  apply eq_true_iff_eq. rewrite !existsb_exists. split.
  - intros (m & Hm & Hs). apply list_elem_of_In, elem_of_lookup_imap in Hm as (i & m' & -> & Hm').
    exists m'. rewrite sameKey_renumberMaster in Hs. split; [|done].
    apply list_elem_of_In. by eapply list_elem_of_lookup_2.
  - intros (m & Hm & Hs). apply list_elem_of_In, list_elem_of_lookup in Hm as [i Hi].
    exists (renumberMaster i m). rewrite sameKey_renumberMaster. split; [|done].
    apply list_elem_of_In, elem_of_lookup_imap. eauto.
Qed.

Lemma isDuplicate_app (M U : list obj) (n : obj) :
  isDuplicate (M ++ U) n = isDuplicate M n || isDuplicate U n.
Proof. unfold isDuplicate. apply existsb_app. Qed.

Lemma isDuplicate_self (U : list obj) (n : obj) : n ∈ U -> isDuplicate U n = true.
Proof.
  intros H. unfold isDuplicate. apply existsb_exists. exists n.
  split; [by apply list_elem_of_In|apply sameKey_refl].
Qed.

Lemma filter_all {A} (f : A -> bool) (l : list A) :
  (forall a, a ∈ l -> f a = true) ->
  List.filter f l = l /\ List.filter (fun a => negb (f a)) l = [].
Proof.
  induction l as [|a l IH]; intros H; simpl; [done|].
  rewrite (H a) by by left. simpl.
  destruct IH as [-> ->]; [|done]. intros b Hb. apply H. by right.
Qed.

Lemma rededuplicate (M N : list obj) :
  deduplicate (mergeMaster M (deduplicate M N).2) N = (N, []).
Proof.
  rewrite (deduplicate_filter (mergeMaster _ _)).
  destruct (filter_all (isDuplicate (mergeMaster M (deduplicate M N).2)) N) as [-> ->]; [|done].
  intros n Hn. rewrite isDuplicate_mergeMaster, isDuplicate_app.
  destruct (isDuplicate M n) eqn:Hdup; [done|]. simpl.
  apply isDuplicate_self. rewrite deduplicate_filter. simpl.
  apply list_elem_of_In, filter_In. split; [by apply list_elem_of_In|by rewrite Hdup].
Qed.

Lemma imap_renumberMaster_idem (l : list obj) :
  imap renumberMaster (imap renumberMaster l) = imap renumberMaster l.
Proof.
  apply list_eq. intros i. rewrite !list_lookup_imap.
  destruct (l !! i) as [p|]; simpl; [|done].
  by rewrite !renumberMaster_insert, insert_insert_eq.
Qed.

Lemma imap_renumber_idem (l : list obj) :
  imap renumber (imap renumber l) = imap renumber l.
Proof.
  apply list_eq. intros i. rewrite !list_lookup_imap.
  destruct (l !! i) as [p|]; simpl; [|done].
  by rewrite !renumber_insert, insert_insert_eq.
Qed.

(** X17.  Running again on the same inputs with the updated master as
    master file returns, finds no new record, and leaves the master as it
    is; the records now reported as duplicates are those the first run
    split into duplicates and new records. *)
Theorem second_run_finds_nothing_new (whobuildsFiles : list (list obj))
    (narajangFile masterFile : option (list obj)) (r : PipelineResult) :
  run whobuildsFiles narajangFile masterFile = Ok r ->
  exists r' : PipelineResult,
    run whobuildsFiles narajangFile (Some (updatedMaster r)) = Ok r' /\
    resultDf r' = [] /\
    updatedMaster r' = updatedMaster r /\
    duplicates r = (deduplicate (default [] masterFile) (duplicates r')).1 /\
    resultDf r = numberResult (deduplicate (default [] masterFile) (duplicates r')).2.
Proof.
  intros H.
  destruct (run_with_other_master _ _ _ (Some (updatedMaster r)) _ H)
    as (r' & N & Hrun & Hd & Hr & Hm & Hd' & Hr' & Hm').
  exists r'. split; [done|]. simpl in Hd', Hr', Hm'.
  rewrite Hm, rededuplicate in Hd', Hr', Hm'. simpl in Hd', Hr', Hm'.
  rewrite Hd'. repeat split; try done.
  rewrite Hm', Hm. unfold mergeMaster. rewrite app_nil_r. apply imap_renumberMaster_idem.
Qed.

(** X18.  When the new records of a run fit in one chunk, the export loop
    writes a single chunk file, with the very rows of the upload form. *)
Theorem single_chunk_is_the_upload_form (whobuildsFiles : list (list obj))
    (narajangFile masterFile : option (list obj)) (r : PipelineResult) (c : Z) :
  run whobuildsFiles narajangFile masterFile = Ok r ->
  chunkSize config = Fin c ->
  0 < length (resultDf r) ->
  (Z.of_nat (length (resultDf r)) <= c)%Z ->
  exportChunks (resultDf r) (resultChunkSize r) = Some [resultDf r].
Proof.
  intros H Hc Hpos Hle.
  apply run_stages in H as (_ & N & _ & _ & _ & _ & Hr & _ & Hsize).
  rewrite Hsize, Hc. unfold exportChunks.
  assert ((0 <? c)%Z = true) as -> by (apply Z.ltb_lt; lia).
  rewrite ceilDiv_nat by lia.
  set (n := length (resultDf r)) in *. set (m := Z.to_nat c).
  assert (n / m + (if n mod m =? 0 then 0 else 1) = 1) as ->.
  { destruct (decide (n = m)) as [->|Hne].
    - rewrite Nat.div_same, Nat.Div0.mod_same by lia. done.
    - rewrite Nat.div_small, Nat.mod_small by lia.
      destruct (Nat.eqb_spec n 0); [lia|done]. }
  simpl. unfold slice. rewrite drop_0, take_ge by (fold n; lia).
  rewrite Hr. unfold numberResult. by rewrite imap_renumber_idem.
Qed.

Lemma includes_nil (s : jsstring) : includes s [] = true.
Proof. apply includes_occurs. by exists [], s. Qed.

(** X19.  A keyword that is blank once trimmed excludes every record with
    a non-empty name, provided lower-casing keeps the empty string. *)
Theorem blank_keyword_matches_every_name (s k : jsstring) (keywords : list jsstring) :
  toLowerCase [] = [] ->
  k ∈ keywords -> trim k = [] -> s <> [] ->
  containsExcludedKeyword toLowerCase (VStr s) keywords = Ok true.
Proof.
  intros Hlow Hk Hblank Hs. unfold containsExcludedKeyword.
  rewrite truthy_nonempty by done. simpl. f_equal.
  apply existsb_exists. exists k. split; [by apply list_elem_of_In|].
  rewrite Hblank, Hlow. apply includes_nil.
Qed.

End Runs.

(** ** Trimming and splitting *)

Lemma trimStart_suffix (s : jsstring) :
  exists ws, s = ws ++ trimStart s /\ Forall (fun c => isWhiteSpace c = true) ws.
Proof.
  induction s as [|c s (ws & IH & Hws)]; simpl; [by exists []|].
  destruct (isWhiteSpace c) eqn:Hc.
  - exists (c :: ws). split; [by rewrite IH at 1|by constructor].
  - by exists [].
Qed.

Lemma trimStart_app_space (ws s : jsstring) :
  Forall (fun c => isWhiteSpace c = true) ws -> trimStart (ws ++ s) = trimStart s.
Proof. induction 1 as [|c ws Hc _ IH]; simpl; [done|by rewrite Hc]. Qed.

Lemma trimStart_head (s : jsstring) :
  trimStart s = [] \/ exists c t, trimStart s = c :: t /\ isWhiteSpace c = false.
Proof.
  induction s as [|c s IH]; simpl; [by left|].
  destruct (isWhiteSpace c) eqn:Hc; [done|]. right. by exists c, s.
Qed.

Lemma trimStart_fixed (c : N) (t : jsstring) : isWhiteSpace c = false -> trimStart (c :: t) = c :: t.
Proof. intros H. simpl. by rewrite H. Qed.

Lemma trimStart_idem (s : jsstring) : trimStart (trimStart s) = trimStart s.
Proof.
  destruct (trimStart_head s) as [->|(c & t & -> & Hc)]; [done|by apply trimStart_fixed].
Qed.

Lemma trimStart_snoc (s : jsstring) (c : N) :
  isWhiteSpace c = false ->
  exists ws, s ++ [c] = ws ++ trimStart (s ++ [c]) /\ exists t, trimStart (s ++ [c]) = t ++ [c].
Proof.
  intros Hc. induction s as [|a s (ws & IH & t & Ht)]; simpl.
  - rewrite Hc. exists []. split; [done|by exists []].
  - destruct (isWhiteSpace a) eqn:Ha.
    + exists (a :: ws). split; [by rewrite IH at 1|by exists t].
    + exists []. split; [done|]. by exists (a :: s).
Qed.

(** A trimmed text starts and ends with a unit that is not white space. *)
Lemma trim_parts (s : jsstring) :
  exists pre post,
    s = pre ++ trim s ++ post /\
    Forall (fun c => isWhiteSpace c = true) pre /\
    Forall (fun c => isWhiteSpace c = true) post /\
    trimStart (trim s) = trim s.
Proof.
  unfold trim, trimEnd.
  destruct (trimStart_suffix s) as (pre & Hs & Hpre).
  destruct (trimStart_suffix (rev (trimStart s))) as (post & Hr & Hpost).
  exists pre, (rev post). repeat split; try done.
  - rewrite <- rev_app_distr, <- Hr, rev_involutive. done.
  - by apply Forall_rev.
  - destruct (trimStart_head s) as [->|(c & t & Ht & Hc)]; [done|].
    rewrite Ht. simpl.
    destruct (trimStart_snoc (rev t) c Hc) as (_ & _ & u & ->).
    rewrite rev_app_distr. simpl. by rewrite Hc.
Qed.

Lemma trim_idem (s : jsstring) : trim (trim s) = trim s.
Proof.
  destruct (trim_parts s) as (_ & _ & _ & _ & _ & Hfix).
  unfold trim at 1. rewrite Hfix. unfold trim, trimEnd.
  by rewrite rev_involutive, trimStart_idem.
Qed.

Lemma trim_occurs (s : jsstring) : occursIn (trim s) s.
Proof. destruct (trim_parts s) as (pre & post & H & _). by exists pre, post. Qed.

Lemma trim_length (s : jsstring) : length (trim s) <= length s.
Proof.
  destruct (trim_parts s) as (pre & post & H & _).
  rewrite H at 2. rewrite !length_app. lia.
Qed.

Lemma trim_app_space (ws s : jsstring) :
  Forall (fun c => isWhiteSpace c = true) ws -> trim (ws ++ s) = trim s.
Proof. intros H. unfold trim. by rewrite trimStart_app_space. Qed.

Lemma split_pieces (sep : N) (s piece : jsstring) : piece ∈ split sep s -> sep ∉ piece.
Proof.
  revert piece. induction s as [|c s IH]; simpl; intros piece.
  - intros ->%list_elem_of_singleton. apply not_elem_of_nil.
  - destruct (N.eqb_spec c sep) as [->|Hne].
    + intros [->|H]%elem_of_cons; [apply not_elem_of_nil|by apply IH].
    + destruct (split sep s) as [|h t] eqn:E.
      * intros ->%list_elem_of_singleton. apply not_elem_of_cons. split; [done|].
        apply not_elem_of_nil.
      * intros [->|H]%elem_of_cons.
        -- apply not_elem_of_cons. split; [done|]. apply IH. by left.
        -- apply IH. by right.
Qed.

Lemma split_app_separator (sep : N) (x y : jsstring) :
  sep ∉ x -> split sep (x ++ sep :: y) = x :: split sep y.
Proof.
  induction x as [|c x IH]; simpl; intros Hn.
  - by rewrite N.eqb_refl.
  - apply not_elem_of_cons in Hn as [Hc Hx].
    destruct (N.eqb_spec c sep) as [->|_]; [done|]. by rewrite (IH Hx).
Qed.

(** ** The configuration form *)

Lemma parsed_entry (str e : jsstring) : e ∈ parseList str -> listEntry e.
Proof.
  unfold parseList. intros He. apply list_elem_of_In, filter_In in He as [He Hne].
  apply list_elem_of_In, list_elem_of_fmap in He as (piece & -> & Hp).
  repeat split.
  - intros Heq. rewrite Heq in Hne. done.
  - apply trim_idem.
  - intros Hc. apply (split_pieces _ _ _ Hp).
    destruct (trim_occurs piece) as (u & v & ->). set_solver.
Qed.

(** X20.  Whatever the two list fields of the form hold, every excluded
    type and every excluded keyword of the configuration built from them
    is non-empty, trimmed and free of commas. *)
Theorem formConfig_lists_are_clean {jsdate : Type} (chunk : number) (day : jsdate)
    (offset minAmount : number) (typesText keywordsText : jsstring) :
  Forall listEntry (excludedTypes (formConfig chunk day offset minAmount typesText keywordsText))
  /\ Forall listEntry
       (excludedKeywords (formConfig chunk day offset minAmount typesText keywordsText)).
Proof. split; apply Forall_forall; intros e He; by apply parsed_entry in He. Qed.

Lemma split_joined (l : list jsstring) (ws : jsstring) :
  Forall listEntry l -> l <> [] ->
  Forall (fun c => isWhiteSpace c = true) ws -> (44%N) ∉ ws ->
  trim <$> split 44 (ws ++ initialText l) = l.
Proof.
  intros Hl. revert ws. induction Hl as [|x l (Hne & Htrim & Hcomma) Hl IH]; [done|].
  intros ws _ Hws Hnc. unfold initialText. simpl. destruct l as [|y l].
  - rewrite split_no_separator by (rewrite elem_of_app; tauto).
    simpl. by rewrite trim_app_space, Htrim.
  - change (js ", " ++ ?t) with (44%N :: [32%N] ++ t).
    rewrite (app_assoc ws x), split_app_separator by (rewrite elem_of_app; tauto).
    rewrite fmap_cons, trim_app_space, Htrim by done. f_equal.
    apply (IH [32%N]); [done|by repeat constructor|].
    by intros [=]%list_elem_of_singleton.
Qed.

(** X21.  Parsing the initial text of a list field gives back the
    constant it was joined from, when the entries of the constant are
    non-empty, trimmed and free of commas. *)
Theorem parseList_initialText (constant : list jsstring) :
  Forall listEntry constant -> parseList (initialText constant) = constant.
Proof.
  intros H. destruct (decide (constant = [])) as [->|Hne]; [done|].
  unfold parseList. rewrite <- (app_nil_l (initialText _)).
  rewrite split_joined by (done || constructor || apply not_elem_of_nil).
  clear Hne. induction H as [|e l (Hne & _) _ IH]; simpl; [done|].
  unfold str_eqb at 1. rewrite bool_decide_eq_false_2 by done. simpl. by rewrite IH.
Qed.

Lemma sameValueZero_text (t o : jsstring) : sameValueZero (VStr t) (VStr o) = true -> t = o.
Proof. simpl. unfold str_eqb. by intros ?%bool_decide_eq_true. Qed.

(** X22.  With a configuration built by the form, the type check keeps
    every record whose original type is not text that is non-empty,
    trimmed and free of commas: whatever the field says, such a type cannot
    be excluded. *)
Theorem form_types_are_trimmed {jsdate : Type} (chunk : number) (day : jsdate)
    (offset minAmount : number) (typesText keywordsText : jsstring) (p : obj) :
  (forall o, get p F_originalConstr = VStr o -> ~ listEntry o) ->
  constrCheck (formConfig chunk day offset minAmount typesText keywordsText) p = true.
Proof.
  intros Hp. unfold constrCheck, formConfig. simpl.
  apply negb_true_iff, not_true_iff_false. intros (t & Ht & Hs)%existsb_exists.
  apply list_elem_of_In, parsed_entry in Ht.
  destruct (get p F_originalConstr) as [| | | |o] eqn:E; try done.
  apply sameValueZero_text in Hs as ->. by apply (Hp o).
Qed.

(** ** The name cleaner *)

Lemma firstIndexFrom_take (P : N -> bool) (n : nat) (s : jsstring) (k i : nat) :
  firstIndexFrom P (take n s) k = Some i -> firstIndexFrom P s k = Some i.
Proof.
  revert n k. induction s as [|c s IH]; intros [|n] k; simpl; try done.
  destruct (P c); [done|]. apply IH.
Qed.

(** X23.  The name cleaner returns the name unchanged or the trimmed text
    that follows the first closing bracket of the name; the result is never
    longer than the name. *)
Theorem cleanProjectName_cuts_after_first_closing (s : jsstring) (v : value) :
  cleanProjectName (VStr s) = Ok v ->
  exists t, v = VStr t /\ length t <= length s /\
    (t = s \/ exists i, firstIndexFrom isClosing s 0 = Some i /\ t = trim (drop (S i) s)).
Proof.
  rewrite cleanProjectName_string. intros [= <-].
  exists (cleanTrimmedPrefix s). split; [done|].
  assert (Hlen : forall i, length (trim (drop (S i) s)) <= length s).
  { intros i. etrans; [apply trim_length|]. rewrite length_drop. lia. }
  unfold cleanTrimmedPrefix, cleanByRule.
  destruct (length s <=? 4); [by split; [|left]|].
  destruct (firstIndexFrom isClosing (take 4 s) 0) as [i|] eqn:Hfront.
  - apply firstIndexFrom_take in Hfront. split; [done|]. right. by exists i.
  - destruct (firstIndexFrom isClosing s 0) as [j|] eqn:Hfull; [|by split; [|left]].
    destruct (firstIndexFrom isOpening (take j s) 0) as [i|]; [|by split; [|left]].
    destruct (length (trim (take i s)) <=? 3); [|by split; [|left]].
    split; [done|]. right. by exists j.
Qed.

(** ** Deduplication *)

(** X24.  Deduplication judges each new record against the master only:
    deduplicating two batches at once gives the duplicates and the unique
    records of the first followed by those of the second, so a record that
    occurs twice among the new ones is kept twice. *)
Theorem deduplicate_app (existingMaster new1 new2 : list obj) :
  deduplicate existingMaster (new1 ++ new2)
  = ((deduplicate existingMaster new1).1 ++ (deduplicate existingMaster new2).1,
     (deduplicate existingMaster new1).2 ++ (deduplicate existingMaster new2).2).
Proof. rewrite !deduplicate_filter. simpl. by rewrite !List.filter_app. Qed.

(** ** The export files *)

Lemma uint_of_padded (k : nat) (u : Decimal.uint) :
  NilEmpty.uint_of_string
    (string_of_list_ascii
       (replicate k "0"%char ++ list_ascii_of_string (NilEmpty.string_of_uint u)))
  = Some (Nat.iter k Decimal.D0 u).
Proof.
  induction k as [|k IH]; simpl.
  - by rewrite string_of_list_ascii_of_string, NilEmpty.usu.
  - by rewrite IH.
Qed.

Lemma of_uint_padded (k : nat) (u : Decimal.uint) :
  Pos.of_uint (Nat.iter k Decimal.D0 u) = Pos.of_uint u.
Proof. induction k as [|k IH]; simpl; done. Qed.

Lemma ascii_units_back (l : list ascii) : ascii_of_N <$> map N_of_ascii l = l.
Proof.
  induction l as [|a l IH]; [done|].
  change (ascii_of_N (N_of_ascii a) :: (ascii_of_N <$> map N_of_ascii l) = a :: l).
  by rewrite ascii_N_embedding, IH.
Qed.

Lemma readDecimal_padded (k : nat) (z : Z) :
  (0 <= z)%Z -> readDecimal (replicate k 48%N ++ numberToString (Fin z)) = Some z.
Proof.
  intros Hz. unfold readDecimal, numberToString.
  assert (exists u, Z.to_int z = Decimal.Pos u /\ u <> Decimal.Nil) as (u & Hu & Hnil).
  { destruct z as [|p|p]; [by eexists|eexists; split; [done|]|lia].
    apply DecimalPos.Unsigned.to_uint_nonnil. }
  pose proof (DecimalZ.of_to z) as Hback. rewrite Hu in *. simpl in Hback.
  assert (NilZero.string_of_int (Decimal.Pos u) = NilEmpty.string_of_uint u) as ->
    by by destruct u.
  rewrite fmap_app, fmap_replicate. change (ascii_of_N 48) with "0"%char.
  rewrite ascii_units_back.
  rewrite uint_of_padded. cbn [fmap option_fmap option_map].
  rewrite of_uint_padded. f_equal. exact Hback.
Qed.

Lemma chunkFileName_inj (i j : nat) : chunkFileName i = chunkFileName j -> i = j.
Proof.
  unfold chunkFileName, padStart. intros H.
  apply app_inv_head, app_inv_tail in H.
  apply (f_equal readDecimal) in H. rewrite !readDecimal_padded in H by lia.
  injection H. lia.
Qed.

Lemma imap_names (chunks : list (list obj)) :
  (imap (fun i chunk => (chunk, chunkFileName i)) chunks).*2
  = chunkFileName <$> seq 0 (length chunks).
Proof.
  apply list_eq. intros i. rewrite list_lookup_fmap, list_lookup_imap, list_lookup_fmap.
  destruct (chunks !! i) as [chunk|] eqn:E; simpl.
  - rewrite lookup_seq_lt by by eapply lookup_lt_Some. done.
  - rewrite lookup_seq_ge by by apply lookup_ge_None. done.
Qed.

(** X25.  With a positive chunk size the download ends, writes two files,
    or three when there are duplicates, and one file per chunk, and no two
    of the files have the same name. *)
Theorem downloadAll_writes_distinct_files (r : PipelineResult) (c : Z) :
  resultChunkSize r = Fin c -> (0 < c)%Z ->
  exists exports : list (list obj * jsstring),
    downloadAll (Some r) = Some exports /\
    NoDup exports.*2 /\
    length exports
    = (if decide (duplicates r = []) then 2 else 3)
      + Z.to_nat (ceilDiv (Z.of_nat (length (resultDf r))) c).
Proof.
  intros Hc Hpos. unfold downloadAll. rewrite Hc. unfold exportChunks.
  assert ((0 <? c)%Z = true) as -> by by apply Z.ltb_lt.
  set (chunks := _ <$> seq 0 _). eexists. split; [reflexivity|].
  assert (Hlen : length chunks
                 = Z.to_nat (ceilDiv (Z.of_nat (length (resultDf r))) c)).
  { unfold chunks. by rewrite length_fmap, length_seq. }
  split.
  - rewrite !fmap_app, imap_names.
    assert (Hsix : forall x i, x ∈ chunkFileName <$> seq 0 (length chunks) ->
                               x !! 5 = Some i -> i = 0xB370%N).
    { intros x i (k & -> & _)%list_elem_of_fmap. by intros [= <-]. }
    apply NoDup_app. split; [|split].
    + destruct (0 <? length (duplicates r)); [apply NoDup_singleton|apply NoDup_nil_2].
    + intros x Hx [Hin|Hin]%elem_of_app.
      * destruct (0 <? length (duplicates r)); [|by apply elem_of_nil in Hx].
        apply list_elem_of_singleton in Hx as ->.
        apply elem_of_cons in Hin as [Heq|Hin];
          [by apply (f_equal (fun l => l !! 5)) in Heq|].
        apply list_elem_of_singleton in Hin. by apply (f_equal (fun l => l !! 5)) in Hin.
      * destruct (0 <? length (duplicates r)); [|by apply elem_of_nil in Hx].
        apply list_elem_of_singleton in Hx as ->.
        by specialize (Hsix _ 0xC911%N Hin eq_refl).
    + apply NoDup_app. split; [|split].
      * apply NoDup_cons. split; [|apply NoDup_singleton].
        intros Heq%list_elem_of_singleton.
        by apply (f_equal (fun l => l !! 5)) in Heq.
      * intros x Hx Hin. simpl in Hx.
        apply elem_of_cons in Hx as [->|Hx].
        -- by specialize (Hsix _ 0xC5C5%N Hin eq_refl).
        -- apply list_elem_of_singleton in Hx as ->.
           by specialize (Hsix _ 0xD1B5%N Hin eq_refl).
      * apply NoDup_fmap_2_strong; [|apply NoDup_seq].
        intros i j _ _. apply chunkFileName_inj.
  - rewrite !length_app, length_imap, Hlen.
    destruct (duplicates r) as [|d ds]; case_decide; try done; reflexivity.
Qed.

(** * Further instances *)


Lemma extractArea_reads_number_witness :
  exists pre mid g post,
    js "건축면적 1,200.5㎡, 대지면적 3,000㎡"
      = pre ++ areaLabelText BuiltArea ++ mid ++ g ++ js "㎡" ++ post /\
    Forall (fun x => isLineTerminator x = false) mid /\
    groupedNumber g /\ js "1200.5" = removeAll 44 g /\ decimalText (js "1200.5").
Proof.
  apply (extractArea_reads_number (js "건축면적 1,200.5㎡, 대지면적 3,000㎡") BuiltArea
           (js "1200.5")).
  vm_compute. reflexivity.
Defined.

Lemma extractHouseholds_reads_number_witness :
  occursIn (js "세") (js "총 1,234 세대 규모") /\
  exists g, occursIn g (js "총 1,234 세대 규모") /\ groupedNumber g /\
            js "1234" = removeAll 44 g /\ decimalText (js "1234").
Proof.
  apply (extractHouseholds_reads_number (js "총 1,234 세대 규모") (js "1234")).
  vm_compute. reflexivity.
Defined.

Lemma extractAmount_reads_number_witness :
  (occursIn (js "금액") (js "공사금액 12,345,000") \/
   occursIn (js "공사비") (js "공사금액 12,345,000")) /\
  exists g, occursIn g (js "공사금액 12,345,000") /\ groupedNumber g /\
            js "12345000" = removeAll 44 g /\ decimalText (js "12345000").
Proof.
  apply (extractAmount_reads_number (js "공사금액 12,345,000") (js "12345000")).
  vm_compute. reflexivity.
Defined.

(** X5 to X9, X13: the sample run returns two new records and no duplicate. *)
Lemma run_accounting_witness :
  observe (fun r => (length (resultDf r), length (duplicates r), length (updatedMaster r)))
          sampleRun = Ok (2, 0, 2) /\
  match sampleRun with
  | Ok r =>
    length (updatedMaster r) = 0 + length (resultDf r) /\
    length (duplicates r) + length (resultDf r) <= 1 + 1 /\
    (resultDf r = [] -> updatedMaster r = imap renumberMaster [])
  | Throw _ => False
  end.
Proof.
  split; [vm_compute; reflexivity|].
  destruct sampleRun as [r|e] eqn:Hr.
  - exact (run_accounting sampleConstr sampleDetail sampleRegion sampleRegion2 asciiLower
             (option Z) sampleParse sampleIsValid sampleFormat sampleAddDays sampleNow
             sampleConfig [[sampleRowA "2099.12.31"]] (Some [sampleRowB]) None r Hr).
  - apply (returns_Throw _ e) in Hr; [done|]. vm_compute. reflexivity.
Defined.

Lemma run_numbers_new_records_witness :
  returns sampleRun = true /\
  match sampleRun with
  | Ok r =>
    (fun q : obj => q !! F_No) <$> resultDf r
      = (fun i => Some (VNum (Fin (Z.of_nat i)))) <$> seq 1 (length (resultDf r)) /\
    delete F_No <$> drop 0 (updatedMaster r) = delete F_No <$> resultDf r /\
    (fun q : obj => q !! F_No) <$> drop 0 (updatedMaster r)
      = (fun i => Some (VNum (Fin (Z.of_nat (0 + i))))) <$> seq 1 (length (resultDf r))
  | Throw _ => False
  end.
Proof.
  split; [vm_compute; reflexivity|].
  destruct sampleRun as [r|e] eqn:Hr.
  - exact (run_numbers_new_records sampleConstr sampleDetail sampleRegion sampleRegion2
             asciiLower (option Z) sampleParse sampleIsValid sampleFormat sampleAddDays
             sampleNow sampleConfig [[sampleRowA "2099.12.31"]] (Some [sampleRowB]) None r Hr).
  - apply (returns_Throw _ e) in Hr; [done|]. vm_compute. reflexivity.
Defined.


Lemma run_returns_eligible_records_witness :
  returns sampleRun = true /\
  match sampleRun with
  | Ok r =>
    Forall (fun q =>
              constrCheck sampleConfig q = true /\
              containsExcludedKeyword asciiLower (get q F_name) (excludedKeywords sampleConfig)
                = Ok false /\
              mergedPredicate q = true)
           (resultDf r ++ duplicates r)
  | Throw _ => False
  end.
Proof.
  split; [vm_compute; reflexivity|].
  destruct sampleRun as [r|e] eqn:Hr.
  - exact (run_returns_eligible_records sampleConstr sampleDetail sampleRegion sampleRegion2
             asciiLower (option Z) sampleParse sampleIsValid sampleFormat sampleAddDays
             sampleNow sampleConfig [[sampleRowA "2099.12.31"]] (Some [sampleRowB]) None r Hr).
  - apply (returns_Throw _ e) in Hr; [done|]. vm_compute. reflexivity.
Defined.


(** X10, X11: one row with a number for a name, or for an address. *)
Lemma run_aborts_on_nontext_name_witness :
  returns (samplePipeline [[sampleRowA "2099.12.31"; sampleRowNumericName]] None None) = false.
Proof.
  destruct (samplePipeline [[sampleRowA "2099.12.31"; sampleRowNumericName]] None None)
    as [r|e] eqn:Hr; [exfalso|reflexivity].
  refine (run_aborts_on_nontext_name sampleConstr sampleDetail sampleRegion sampleRegion2
            asciiLower (option Z) sampleParse sampleIsValid sampleFormat sampleAddDays
            sampleNow sampleConfig [[sampleRowA "2099.12.31"; sampleRowNumericName]] None None
            _ r Hr).
  left. exists sampleRowNumericName. split.
  - cbn [concat app]. apply elem_of_cons. right. apply elem_of_cons. by left.
  - split; [vm_compute; reflexivity|]. intros s. vm_compute. discriminate.
Defined.

Lemma run_aborts_on_nontext_address_witness :
  returns (samplePipeline [[sampleRowNumericAddress]] None None) = false.
Proof.
  destruct (samplePipeline [[sampleRowNumericAddress]] None None)
    as [r|e] eqn:Hr; [exfalso|reflexivity].
  refine (run_aborts_on_nontext_address sampleConstr sampleDetail sampleRegion sampleRegion2
            asciiLower (option Z) sampleParse sampleIsValid sampleFormat sampleAddDays
            sampleNow sampleConfig [[sampleRowNumericAddress]] None None _ _ r Hr).
  - left. discriminate.
  - left. exists sampleRowNumericAddress. split.
    + cbn [concat app]. apply elem_of_cons. by left.
    + split; [vm_compute; reflexivity|]. intros s. vm_compute. discriminate.
Defined.

(** X12, X14, X15: the normalized records of the two sample rows. *)
Lemma date_fields_are_renderings_witness :
  observe (fun p => (get p F_start, get p F_completion, get p F_firstContract))
          (sampleNormalizeA (sampleRowA "2099.12.31"))
    = Ok (VStr (js "2024-01-15"), VStr (js "2099-12-31"), VStr []) /\
  match sampleNormalizeA (sampleRowA "2099.12.31") with
  | Ok p =>
    Forall (fun k => exists out, p !! k = Some (VStr out) /\
                       (out = [] \/ isRendering sampleIsValid sampleFormat out))
           [F_start; F_completion; F_registered; F_firstContract]
  | Throw _ => False
  end /\
  match sampleNormalizeB sampleRowB with
  | Ok p =>
    Forall (fun k => exists out, p !! k = Some (VStr out) /\
                       (out = [] \/ isRendering sampleIsValid sampleFormat out))
           [F_start; F_completion; F_registered; F_firstContract]
  | Throw _ => False
  end.
Proof.
  split; [vm_compute; reflexivity|]. split.
  - destruct (sampleNormalizeA (sampleRowA "2099.12.31")) as [p|e] eqn:Hp.
    + exact (proj1 (date_fields_are_renderings sampleConstr sampleDetail sampleRegion
                      sampleRegion2 (option Z) sampleParse sampleIsValid sampleFormat
                      sampleNow (sampleRowA "2099.12.31") p) Hp).
    + apply (returns_Throw _ e) in Hp; [done|]. vm_compute. reflexivity.
  - destruct (sampleNormalizeB sampleRowB) as [p|e] eqn:Hp.
    + exact (proj2 (date_fields_are_renderings sampleConstr sampleDetail sampleRegion
                      sampleRegion2 (option Z) sampleParse sampleIsValid sampleFormat
                      sampleNow sampleRowB p) Hp).
    + apply (returns_Throw _ e) in Hp; [done|]. vm_compute. reflexivity.
Defined.

Lemma run_records_keep_the_schema_witness :
  returns sampleRun = true /\
  match sampleRun with
  | Ok r =>
    Forall (fun q : obj => dom q = list_to_set (canonicalFields ++ [F_originalConstr]))
           (resultDf r ++ duplicates r)
  | Throw _ => False
  end.
Proof.
  split; [vm_compute; reflexivity|].
  destruct sampleRun as [r|e] eqn:Hr.
  - exact (run_records_keep_the_schema sampleConstr sampleDetail sampleRegion sampleRegion2
             asciiLower (option Z) sampleParse sampleIsValid sampleFormat sampleAddDays
             sampleNow sampleConfig [[sampleRowA "2099.12.31"]] (Some [sampleRowB]) None r Hr).
  - apply (returns_Throw _ e) in Hr; [done|]. vm_compute. reflexivity.
Defined.

Lemma region_fields_come_from_the_tables_witness :
  observe (fun p => (get p F_sido, get p F_sigungu))
          (sampleNormalizeA (sampleRowA "2099.12.31"))
    = Ok (VNum (Fin 11), VNum (Fin 11680)) /\
  match sampleNormalizeA (sampleRowA "2099.12.31") with
  | Ok p =>
    regionCodeFor sampleRegion (get (sampleRowA "2099.12.31") (js "주소")) (get p F_sido) /\
    regionCodeFor sampleRegion2 (get (sampleRowA "2099.12.31") (js "주소")) (get p F_sigungu)
  | Throw _ => False
  end /\
  match sampleNormalizeB sampleRowB with
  | Ok p =>
    regionCodeFor sampleRegion (get sampleRowB (js "현장지역")) (get p F_sido) /\
    regionCodeFor sampleRegion2 (get sampleRowB (js "현장지역")) (get p F_sigungu)
  | Throw _ => False
  end.
Proof.
  split; [vm_compute; reflexivity|]. split.
  - destruct (sampleNormalizeA (sampleRowA "2099.12.31")) as [p|e] eqn:Hp.
    + exact (proj1 (region_fields_come_from_the_tables sampleConstr sampleDetail sampleRegion
                      sampleRegion2 (option Z) sampleParse sampleIsValid sampleFormat
                      sampleNow (sampleRowA "2099.12.31") p) Hp).
    + apply (returns_Throw _ e) in Hp; [done|]. vm_compute. reflexivity.
  - destruct (sampleNormalizeB sampleRowB) as [p|e] eqn:Hp.
    + exact (proj2 (region_fields_come_from_the_tables sampleConstr sampleDetail sampleRegion
                      sampleRegion2 (option Z) sampleParse sampleIsValid sampleFormat
                      sampleNow sampleRowB p) Hp).
    + apply (returns_Throw _ e) in Hp; [done|]. vm_compute. reflexivity.
Defined.

Lemma structural_bounds_by_source_witness :
  match sampleNormalizeB sampleRowB with
  | Ok p => mergedPredicate p = true
  | Throw _ => False
  end /\
  match sampleNormalizeA (sampleRowA "2099.12.31") with
  | Ok p => mergedPredicate p = true
  | Throw _ => False
  end.
Proof.
  split.
  - destruct (sampleNormalizeB sampleRowB) as [p|e] eqn:Hp.
    + exact (proj1 (structural_bounds_by_source sampleConstr sampleDetail sampleRegion
                      sampleRegion2 (option Z) sampleParse sampleIsValid sampleFormat
                      sampleNow sampleRowB p) Hp).
    + apply (returns_Throw _ e) in Hp; [done|]. vm_compute. reflexivity.
  - destruct (sampleNormalizeA (sampleRowA "2099.12.31")) as [p|e] eqn:Hp.
    + apply (proj2 (structural_bounds_by_source sampleConstr sampleDetail sampleRegion
                      sampleRegion2 (option Z) sampleParse sampleIsValid sampleFormat
                      sampleNow (sampleRowA "2099.12.31") p) Hp).
      split; intros z Hz; vm_compute in Hz; injection Hz as <-; lia.
    + apply (returns_Throw _ e) in Hp; [done|]. vm_compute. reflexivity.
Defined.

(** X16: the date cell reads 2099.12.31, which would pass as a completion
    date, but holds no tilde. *)
Lemma whobuilds_row_without_tilde_is_dropped_witness :
  observe id (let* p := sampleNormalizeA sampleRowNoTilde in
              whobuildsPredicate asciiLower sampleConfig (js "2024-07-01") p) = Ok false.
Proof.
  assert (Hret : returns (let* p := sampleNormalizeA sampleRowNoTilde in
                          whobuildsPredicate asciiLower sampleConfig (js "2024-07-01") p)
                 = true) by (vm_compute; reflexivity).
  destruct (sampleNormalizeA sampleRowNoTilde) as [p|e] eqn:Hp; [|discriminate Hret].
  change (bind (Ok p) ?k) with (k p) in Hret |- *. cbv beta in Hret |- *.
  destruct (whobuildsPredicate asciiLower sampleConfig (js "2024-07-01") p) as [b|e] eqn:Hb;
    [|discriminate Hret].
  cbn [observe id]. f_equal.
  refine (proj2 (whobuilds_row_without_tilde_is_dropped sampleConstr sampleDetail sampleRegion
                   sampleRegion2 asciiLower (option Z) sampleParse sampleIsValid sampleFormat
                   sampleNow sampleConfig sampleRowNoTilde p (js "2024-07-01") b _ Hp Hb)).
  apply (bool_decide_unpack _). vm_compute. exact I.
Defined.

(** X17, X18: the sample run again, with its updated master; its two new
    records in chunks of 500. *)
Lemma second_run_finds_nothing_new_witness :
  returns sampleRun = true /\
  match sampleRun with
  | Ok r =>
    exists r' : PipelineResult,
      samplePipeline [[sampleRowA "2099.12.31"]] (Some [sampleRowB]) (Some (updatedMaster r))
        = Ok r' /\
      resultDf r' = [] /\
      updatedMaster r' = updatedMaster r /\
      duplicates r = (deduplicate [] (duplicates r')).1 /\
      resultDf r = numberResult (deduplicate [] (duplicates r')).2
  | Throw _ => False
  end.
Proof.
  split; [vm_compute; reflexivity|].
  destruct sampleRun as [r|e] eqn:Hr.
  - exact (second_run_finds_nothing_new sampleConstr sampleDetail sampleRegion sampleRegion2
             asciiLower (option Z) sampleParse sampleIsValid sampleFormat sampleAddDays
             sampleNow sampleConfig [[sampleRowA "2099.12.31"]] (Some [sampleRowB]) None r Hr).
  - apply (returns_Throw _ e) in Hr; [done|]. vm_compute. reflexivity.
Defined.

Lemma single_chunk_is_the_upload_form_witness :
  returns sampleRun = true /\
  match sampleRun with
  | Ok r => exportChunks (resultDf r) (resultChunkSize r) = Some [resultDf r]
  | Throw _ => False
  end.
Proof.
  split; [vm_compute; reflexivity|].
  assert (Hlen : observe (fun r => length (resultDf r)) sampleRun = Ok 2)
    by (vm_compute; reflexivity).
  destruct sampleRun as [r|e] eqn:Hr; [|discriminate Hlen].
  cbn [observe] in Hlen. apply Ok_inj in Hlen.
  apply (single_chunk_is_the_upload_form sampleConstr sampleDetail sampleRegion sampleRegion2
           asciiLower (option Z) sampleParse sampleIsValid sampleFormat sampleAddDays
           sampleNow sampleConfig [[sampleRowA "2099.12.31"]] (Some [sampleRowB]) None r 500 Hr).
  - reflexivity.
  - rewrite Hlen. lia.
  - rewrite Hlen. lia.
Defined.

(** X19: a keyword list with a blank entry. *)
Lemma blank_keyword_matches_every_name_witness :
  containsExcludedKeyword asciiLower (VStr (js "한빛 아파트")) [js "철거"; js "  "] = Ok true.
Proof.
  apply (blank_keyword_matches_every_name asciiLower (js "한빛 아파트") (js "  ")
           [js "철거"; js "  "]).
  - reflexivity.
  - apply elem_of_cons. right. apply elem_of_cons. by left.
  - vm_compute. reflexivity.
  - vm_compute. discriminate.
Defined.

(** X21, X22: a constant of two entries; a type with a leading space. *)
Lemma parseList_initialText_witness :
  parseList (initialText [js "조경"; js "가설 울타리"]) = [js "조경"; js "가설 울타리"].
Proof.
  apply (parseList_initialText [js "조경"; js "가설 울타리"]).
  repeat constructor; try (vm_compute; (reflexivity || discriminate));
    apply (bool_decide_unpack _); vm_compute; exact I.
Defined.

Lemma form_types_are_trimmed_witness :
  constrCheck (formConfig (Fin 500) sampleNow (Fin 30) (Fin 10000000)
                          (js " 조경, 토목") (js "철거"))
              sampleRecordUntrimmedType = true.
Proof.
  apply (form_types_are_trimmed (Fin 500) sampleNow (Fin 30) (Fin 10000000)
           (js " 조경, 토목") (js "철거") sampleRecordUntrimmedType).
  intros o Ho (_ & Htrim & _). vm_compute in Ho. injection Ho as <-.
  vm_compute in Htrim. discriminate Htrim.
Defined.

(** X23: a tag in front of a name. *)
Lemma cleanProjectName_cuts_after_first_closing_witness :
  exists t, VStr (js "한빛 도로 보수공사") = VStr t /\
    length t <= length (js "[긴급] 한빛 도로 보수공사") /\
    (t = js "[긴급] 한빛 도로 보수공사" \/
     exists i, firstIndexFrom isClosing (js "[긴급] 한빛 도로 보수공사") 0 = Some i /\
               t = trim (drop (S i) (js "[긴급] 한빛 도로 보수공사"))).
Proof.
  apply (cleanProjectName_cuts_after_first_closing (js "[긴급] 한빛 도로 보수공사")
           (VStr (js "한빛 도로 보수공사"))).
  vm_compute. reflexivity.
Defined.

(** X25: three new records in chunks of 2: four files. *)
Lemma downloadAll_writes_distinct_files_witness :
  exists exports : list (list obj * jsstring),
    downloadAll (Some sampleResults) = Some exports /\
    NoDup exports.*2 /\
    length exports = 4.
Proof.
  destruct (downloadAll_writes_distinct_files sampleResults 2 eq_refl ltac:(lia))
    as (exports & He & Hn & Hl).
  exists exports. split; [exact He|]. split; [exact Hn|]. rewrite Hl. reflexivity.
Defined.
